(** * Open Binaural Renderer (obr): a shallow embedding of its DSP core

    The development follows the C++ sources: the sample converters of
    [sample_type_conversion.h], the peak limiter of [peak_limiter.cc], the
    Ambisonic encoder of [ambisonic_encoder.cc], the HRIR loader of
    [sh_hrir_creator.cc] and the renderer facade [ObrImpl].

    C++ [float] and [double] are IEEE-754 binary32 and binary64 numbers with
    round-to-nearest-even arithmetic; they are modelled by [spec_float] with
    the operations of [SpecFloat] at precisions 24 and 53. *)

From Stdlib Require Import ZArith Bool List Lia SpecFloat Ascii.
From Stdlib Require Strings.Byte.
From stdpp Require Import base list gmap strings pretty.
Import ListNotations.

Local Open Scope Z_scope.

(** ** IEEE-754 arithmetic *)

Abbreviation float := spec_float (only parsing).
Abbreviation double := spec_float (only parsing).

(** C++ [float]: binary32. *)
Module F32.
Definition prec : Z := 24.
Definition emax : Z := 128.
Definition of_Z (z : Z) : spec_float := binary_normalize prec emax z 0 false.
Definition zero : spec_float := S754_zero false.
Definition one : spec_float := of_Z 1.
Definition add := SFadd prec emax.
Definition mul := SFmul prec emax.
Definition div := SFdiv prec emax.
Definition ltb := SFltb.
Definition eqb := SFeqb.
Definition abs := SFabs.
End F32.

(** C++ [double]: binary64. *)
Module F64.
Definition prec : Z := 53.
Definition emax : Z := 1024.
Definition of_Z (z : Z) : spec_float := binary_normalize prec emax z 0 false.
Definition one : spec_float := of_Z 1.
Definition add := SFadd prec emax.
Definition sub := SFsub prec emax.
Definition mul := SFmul prec emax.
Definition div := SFdiv prec emax.
Definition ltb := SFltb.
Definition abs := SFabs.
End F64.

(** Implicit conversion [float -> double]: exact, the mantissa is only
    re-aligned to 53 bits. *)
Definition float_to_double (x : spec_float) : spec_float :=
  match x with
  | S754_finite s m e => binary_round F64.prec F64.emax s m e
  | _ => x
  end.

(** [static_cast<float>(double)]: rounds to nearest even. *)
Definition double_to_float (x : spec_float) : spec_float :=
  match x with
  | S754_finite s m e => binary_round F32.prec F32.emax s m e
  | _ => x
  end.

(** [std::max(a, b)] is [(a < b) ? b : a]; [std::min(a, b)] is
    [(b < a) ? b : a]. *)
Definition std_max (a b : spec_float) : spec_float := if SFltb a b then b else a.
Definition std_min (a b : spec_float) : spec_float := if SFltb b a then b else a.

(** Conversion of a floating-point value to an integer type: the fractional
    part is discarded.  Zero is returned for infinities and NaN, where C++
    leaves the conversion undefined. *)
Definition float_trunc (x : spec_float) : Z :=
  match x with
  | S754_finite s m e =>
      let a := match e with
               | Zneg p => Z.shiftr (Zpos m) (Zpos p)
               | _ => Z.shiftl (Zpos m) e
               end in
      if s then - a else a
  | _ => 0
  end.

(** The functions of the C library that the sources call: [std::pow] and
    [std::exp] on [double], [std::sin] and [std::cos] on [float]. *)
Class Libm : Type := {
  std_pow : double -> double -> double;
  std_exp : double -> double;
  std_sin : float -> float;
  std_cos : float -> float
}.

(** ** [sample_type_conversion.h] *)

Module SampleConversion.

Definition kInt16Max : spec_float := F32.of_Z 32767.
Definition kInt16Min : spec_float := F32.of_Z (-32767).
Definition kInt16ToFloat : spec_float := F32.div F32.one kInt16Max.
Definition kFloatToInt16 : spec_float := kInt16Max.

(** [ConvertSampleToFloatFormat(int16_t input, float* output)] *)
Definition ConvertSampleToFloatFormat (input : Z) : spec_float :=
  F32.mul (F32.of_Z input) kInt16ToFloat.

(** [ConvertSampleFromFloatFormat(float input, int16_t* output)] *)
Definition ConvertSampleFromFloatFormat (input : spec_float) : Z :=
  let scaled_value := F32.mul input kFloatToInt16 in
  let clamped_value := std_min kInt16Max (std_max kInt16Min scaled_value) in
  float_trunc clamped_value.

Definition round_trip (v : Z) : Z :=
  ConvertSampleFromFloatFormat (ConvertSampleToFloatFormat v).

(** The round trip is checked on the whole range by enumeration. *)
Definition round_trip_near (v : Z) : bool :=
  let r := round_trip v in
  (r =? v) || ((r =? v - Z.sgn v) && (512 <? Z.abs v)).

Fixpoint all_range (P : Z -> bool) (lo : Z) (n : nat) : bool :=
  match n with
  | O => true
  | S n' => P lo && all_range P (lo + 1) n'
  end.

End SampleConversion.

(** ** [audio_buffer.h]: planar storage, one list of samples per channel *)

Record AudioBuffer : Type := mkAudioBuffer {
  num_frames : nat;
  channels : list (list float)
}.

Definition num_channels (b : AudioBuffer) : nat := length (channels b).

(** Every [ChannelView] of a buffer spans [num_frames] samples. *)
Definition buffer_wf (b : AudioBuffer) : Prop :=
  Forall (fun ch => length ch = num_frames b) (channels b).

(** [AudioBuffer(num_channels, num_frames)]: zero-initialised storage. *)
Definition AudioBuffer_new (nch nfr : nat) : AudioBuffer :=
  {| num_frames := nfr; channels := replicate nch (replicate nfr F32.zero) |}.

(** [AudioBuffer::Clear]. *)
Definition AudioBuffer_Clear (b : AudioBuffer) : AudioBuffer :=
  {| num_frames := num_frames b;
     channels := map (fun ch => replicate (length ch) F32.zero) (channels b) |}.

(** ** [peak_limiter.cc] *)

Module Limiter.
Section WithLibm.

Context {libm : Libm}.

Record PeakLimiter : Type := mkPeakLimiter {
  sampling_rate_ : Z;
  ceiling_ : double;
  release_time_constant_ : double;
  env_ : double
}.

(** [PeakLimiter::PeakLimiter(sampling_rate, release_ms, ceiling_db)] *)
Definition PeakLimiter_new (sampling_rate : Z) (release_ms ceiling_db : double)
  : PeakLimiter :=
  {| sampling_rate_ := sampling_rate;
     ceiling_ := std_pow (F64.of_Z 10) (F64.div ceiling_db (F64.of_Z 20));
     release_time_constant_ :=
       std_exp (F64.div (F64.of_Z (-3))
                  (F64.div (F64.mul (F64.of_Z sampling_rate) release_ms)
                     (F64.of_Z 1000)));
     env_ := F64.one |}.

(** [PeakLimiter::GetMaximumRequiredGain] *)
Definition GetMaximumRequiredGain (l : PeakLimiter) (sample : double) : double :=
  if F64.ltb (ceiling_ l) (F64.abs sample)
  then F64.div (ceiling_ l) (F64.abs sample)
  else F64.one.

(** First loop of [Process]: running maximum over the channels.  The
    unqualified [abs] is read as the floating-point overload of [<cmath>],
    here and in [GetMaximumRequiredGain]. *)
Definition max_samples_step (max_samples channel : list float) : list float :=
  zip_with (fun m x => std_max m (F32.abs x)) max_samples channel.

Definition max_samples_of (input : AudioBuffer) : list float :=
  foldl max_samples_step (replicate (num_frames input) F32.zero) (channels input).

(** Body of the second loop: one envelope update. *)
Definition env_update (l : PeakLimiter) (env : double) (max_sample : float)
  : double :=
  let max_req_gain := GetMaximumRequiredGain l (float_to_double max_sample) in
  if F64.ltb max_req_gain env
  then max_req_gain
  else F64.add (F64.mul (release_time_constant_ l) (F64.sub env max_req_gain))
         max_req_gain.

(** Second loop: returns the final [env_] and the vector [limiter_env]. *)
Fixpoint limiter_env_loop (l : PeakLimiter) (env : double)
    (max_samples : list float) : double * list float :=
  match max_samples with
  | [] => (env, [])
  | m :: rest =>
      let env' := env_update l env m in
      let '(env_end, tail) := limiter_env_loop l env' rest in
      (env_end, double_to_float env' :: tail)
  end.

(** Third loop: gain applied per channel and frame. *)
Definition apply_env (limiter_env : list float) (channel : list float)
  : list float :=
  zip_with F32.mul channel limiter_env.

Definition set_env (l : PeakLimiter) (e : double) : PeakLimiter :=
  {| sampling_rate_ := sampling_rate_ l;
     ceiling_ := ceiling_ l;
     release_time_constant_ := release_time_constant_ l;
     env_ := e |}.

(** [PeakLimiter::Process(input, output)].  [None] stands for a failed
    [CHECK_EQ] on the shapes, which aborts the program. *)
Definition Process (l : PeakLimiter) (input output : AudioBuffer)
  : option (PeakLimiter * AudioBuffer) :=
  if negb (Nat.eqb (num_channels input) (num_channels output)) then None
  else if negb (Nat.eqb (num_frames input) (num_frames output)) then None
  else
    let max_samples := max_samples_of input in
    let '(env_end, limiter_env) := limiter_env_loop l (env_ l) max_samples in
    Some (set_env l env_end,
          {| num_frames := num_frames output;
             channels := map (apply_env limiter_env) (channels input) |}).

(** The renderer limits its output in place: input and output are the
    same buffer. *)
Definition Process_in_place (l : PeakLimiter) (b : AudioBuffer)
  : option (PeakLimiter * AudioBuffer) :=
  Process l b b.

(** A stream fed block after block; the envelope is carried along. *)
Fixpoint Process_blocks (l : PeakLimiter) (blocks : list AudioBuffer)
  : option (PeakLimiter * list AudioBuffer) :=
  match blocks with
  | [] => Some (l, [])
  | b :: rest =>
      match Process_in_place l b with
      | None => None
      | Some (l1, out) =>
          match Process_blocks l1 rest with
          | None => None
          | Some (l2, outs) => Some (l2, out :: outs)
          end
      end
  end.

End WithLibm.
End Limiter.

(** *** The limiter as the specification words it, frame by frame *)

Module LimiterSpec.

(** Cross-channel peak of frame [i]: the maximum over the channels of
    the absolute sample value. *)
Definition frame_peak (input : AudioBuffer) (i : nat) : float :=
  foldl (fun m ch => std_max m (F32.abs (nth i ch F32.zero))) F32.zero
    (channels input).

(** Required gain: [c / m] if [m > c], else 1. *)
Definition required_gain (c m : double) : double :=
  if F64.ltb c m then F64.div c m else F64.one.

(** Envelope update: instantaneous attack, exponential release. *)
Definition envelope_step (c alpha e : double) (m : float) : double :=
  let g := required_gain c (float_to_double m) in
  if F64.ltb g e then g else F64.add (F64.mul alpha (F64.sub e g)) g.

(** Envelope after frame [i] of a block entered with envelope [e0]. *)
Fixpoint envelope_at (c alpha e0 : double) (input : AudioBuffer) (i : nat)
  : double :=
  match i with
  | O => envelope_step c alpha e0 (frame_peak input 0)
  | S j =>
      envelope_step c alpha (envelope_at c alpha e0 input j)
        (frame_peak input (S j))
  end.

(** Envelope left behind by a block of [n] frames. *)
Definition envelope_end (c alpha e0 : double) (input : AudioBuffer) (n : nat)
  : double :=
  match n with
  | O => e0
  | S j => envelope_at c alpha e0 input j
  end.

(** Frame [i] of every channel multiplied by the updated envelope. *)
Definition limited (c alpha e0 : double) (input : AudioBuffer)
  : list (list float) :=
  map (imap (fun i x =>
               F32.mul x (double_to_float (envelope_at c alpha e0 input i))))
    (channels input).

End LimiterSpec.

(** Blocks laid end to end, channel by channel. *)
Definition append_frames (b1 b2 : AudioBuffer) : AudioBuffer :=
  {| num_frames := (num_frames b1 + num_frames b2)%nat;
     channels := zip_with app (channels b1) (channels b2) |}.

Definition concat_blocks (nch : nat) (blocks : list AudioBuffer) : AudioBuffer :=
  foldr append_frames (AudioBuffer_new nch 0) blocks.

(** ** [ambisonic_encoder.cc] *)

(** What the encoder takes from files that are not part of this tree: the
    constant [kRadiansFromDegrees] of [constants.h], [Sn3dNormalization] of
    [ambisonic_utils.h], and the implementation of the associated Legendre
    polynomial generator ([Generate] of a generator built for a maximum
    degree, and [GetIndex]). *)
Class ShTables : Type := {
  kRadiansFromDegrees : float;
  Sn3dNormalization : Z -> Z -> float;
  alp_Generate : nat -> float -> list float;
  alp_GetIndex : Z -> Z -> nat
}.

(** Modelled from the spec: [AcnSequence] of [ambisonic_utils.h], which is
    not part of this tree; the real spherical harmonic of degree [l] and
    order [m] has ACN index [l * l + l + m]. *)
Definition AcnSequence (degree order : Z) : Z := degree * degree + degree + order.

(** Modelled from the spec: [kNegative120dbInAmplitude] of [constants.h],
    which is not part of this tree; the mute threshold is [10^-6], here the
    [float] nearest to it. *)
Definition kNegative120dbInAmplitude : float :=
  F32.div F32.one (F32.of_Z 1000000).

(** The literal [0.5f]. *)
Definition kHalf : float := F32.div F32.one (F32.of_Z 2).

Module Encoder.
Section WithTables.

Context {libm : Libm} {tables : ShTables}.

Record Source : Type := mkSource {
  gain : float;
  azimuth : float;
  elevation : float;
  distance : float
}.

(** [encoding_matrix_] is an [Eigen::MatrixXf], stored column by column:
    one column of [number_of_output_channels_] entries per input channel. *)
Record AmbisonicEncoder : Type := mkAmbisonicEncoder {
  number_of_input_channels_ : nat;
  number_of_output_channels_ : nat;
  ambisonic_order_ : nat;
  sources_ : gmap nat Source;
  encoding_matrix_ : list (list float)
}.

Definition zero_column (rows : nat) : list float := replicate rows F32.zero.

(** [AmbisonicEncoder::AmbisonicEncoder]; [None] is a failed [CHECK_GT]. *)
Definition AmbisonicEncoder_new (number_of_input_channels ambisonic_order : nat)
  : option AmbisonicEncoder :=
  if (number_of_input_channels =? 0)%nat then None
  else if (ambisonic_order =? 0)%nat then None
  else
    let rows := ((ambisonic_order + 1) * (ambisonic_order + 1))%nat in
    Some {| number_of_input_channels_ := number_of_input_channels;
            number_of_output_channels_ := rows;
            ambisonic_order_ := ambisonic_order;
            sources_ := ∅;
            encoding_matrix_ := replicate number_of_input_channels (zero_column rows) |}.

(** [coeffs.at(row) = v]: [std::vector::at] throws outside the vector. *)
Definition vector_at_put (coeffs : list float) (row : Z) (v : float)
  : option (list float) :=
  if (0 <=? row) && (row <? Z.of_nat (length coeffs))
  then Some (<[Z.to_nat row := v]> coeffs)
  else None.

(** The values of the loop counters [degree] and [order]. *)
Definition degrees_upto (ambisonic_order : nat) : list Z :=
  map Z.of_nat (seq 0 (S ambisonic_order)).

Definition orders_of (degree : Z) : list Z :=
  map (fun k => - degree + Z.of_nat k) (seq 0 (Z.to_nat (2 * degree + 1))).

(** The value assigned in the body of the inner loop of [GetShCoeffs]. *)
Definition sh_term (azimuth_rad : float) (alp : list float) (degree order : Z)
  : float :=
  let last_term :=
    if 0 <=? order
    then std_cos (F32.mul (F32.of_Z order) azimuth_rad)
    else std_sin (F32.mul (F32.of_Z (- order)) azimuth_rad) in
  F32.mul
    (F32.mul (Sn3dNormalization degree order)
       (nth (alp_GetIndex degree (Z.abs order)) alp F32.zero))
    last_term.

Definition GetShCoeffs_body (azimuth_rad : float) (alp : list float)
    (degree : Z) (coeffs : option (list float)) (order : Z)
  : option (list float) :=
  match coeffs with
  | None => None
  | Some coeffs =>
      let row := AcnSequence degree order in
      if row =? -1 then Some coeffs
      else vector_at_put coeffs row (sh_term azimuth_rad alp degree order)
  end.

(** [AmbisonicEncoder::GetShCoeffs(azimuth, elevation, order, coeffs)] *)
Definition GetShCoeffs (azimuth elevation : float) (ambisonic_order : nat)
    (max_degree : nat) (coeffs : list float) : option (list float) :=
  let azimuth_rad := F32.mul azimuth kRadiansFromDegrees in
  let elevation_rad := F32.mul elevation kRadiansFromDegrees in
  let alp := alp_Generate max_degree (std_sin elevation_rad) in
  foldl (fun coeffs degree =>
           foldl (GetShCoeffs_body azimuth_rad alp degree) coeffs
             (orders_of degree))
    (Some coeffs) (degrees_upto ambisonic_order).

(** The assignments of [GetShCoeffs] in the order of execution, each with
    the row it writes. *)
Definition sh_writes (azimuth_rad : float) (alp : list float) (degrees : list Z)
  : list (Z * float) :=
  flat_map (fun l =>
              map (fun m => (AcnSequence l m, sh_term azimuth_rad alp l m))
                (orders_of l))
    degrees.

Definition put_row (coeffs : option (list float)) (rv : Z * float)
  : option (list float) :=
  match coeffs with
  | None => None
  | Some c => if fst rv =? -1 then Some c else vector_at_put c (fst rv) (snd rv)
  end.

(** The comparison that guards the early return of [SetSource]. *)
Definition source_eqb (s : Source) (g a e d : float) : bool :=
  F32.eqb (gain s) g && F32.eqb (azimuth s) a &&
  F32.eqb (elevation s) e && F32.eqb (distance s) d.

Definition set_sources_matrix (enc : AmbisonicEncoder)
    (sources : gmap nat Source) (matrix : list (list float))
  : AmbisonicEncoder :=
  {| number_of_input_channels_ := number_of_input_channels_ enc;
     number_of_output_channels_ := number_of_output_channels_ enc;
     ambisonic_order_ := ambisonic_order_ enc;
     sources_ := sources;
     encoding_matrix_ := matrix |}.

(** [AmbisonicEncoder::SetSource]; [None] is a failed [CHECK] or an
    exception of [at]. *)
Definition SetSource (enc : AmbisonicEncoder) (input_channel : nat)
    (g a e d : float) : option AmbisonicEncoder :=
  if (number_of_input_channels_ enc =? 0)%nat then None
  else if (number_of_output_channels_ enc =? 0)%nat then None
  else if negb (input_channel <? number_of_input_channels_ enc)%nat then None
  else
    let sources :=
      match sources_ enc !! input_channel with
      | None =>
          <[input_channel := mkSource F32.zero F32.zero F32.zero F32.zero]>
            (sources_ enc)
      | Some _ => sources_ enc
      end in
    match sources !! input_channel with
    | None => None
    | Some s =>
        if source_eqb s g a e d
        then Some (set_sources_matrix enc sources (encoding_matrix_ enc))
        else
          let sources := <[input_channel := mkSource g a e d]> sources in
          let overall_gain := F32.div g (std_max d kHalf) in
          if F32.ltb overall_gain kNegative120dbInAmplitude
          then Some (set_sources_matrix enc sources
                       (<[input_channel :=
                            zero_column (number_of_output_channels_ enc)]>
                          (encoding_matrix_ enc)))
          else
            match GetShCoeffs a e (ambisonic_order_ enc) (ambisonic_order_ enc)
                    (zero_column (number_of_output_channels_ enc)) with
            | None => None
            | Some sh_coeffs =>
                Some (set_sources_matrix enc sources
                        (<[input_channel :=
                             map (fun c => F32.mul c overall_gain) sh_coeffs]>
                           (encoding_matrix_ enc)))
            end
    end.

(** [AmbisonicEncoder::RemoveSource] *)
Definition RemoveSource (enc : AmbisonicEncoder) (input_channel : nat)
  : AmbisonicEncoder :=
  set_sources_matrix enc (delete input_channel (sources_ enc))
    (<[input_channel := zero_column (number_of_output_channels_ enc)]>
       (encoding_matrix_ enc)).

(** Entry [(row, frame)] of [encoding_matrix_ * unencoded_buffer], summed
    over the input channels from the first to the last. *)
Definition encoded_sample (matrix : list (list float))
    (input : list (list float)) (row frame : nat) : float :=
  foldl (fun acc '(column, channel) =>
           F32.add acc (F32.mul (nth row column F32.zero)
                          (nth frame channel F32.zero)))
    F32.zero (zip matrix input).

(** [AmbisonicEncoder::ProcessPlanarAudioData]; [None] is a failed
    [CHECK_EQ]. *)
Definition ProcessPlanarAudioData (enc : AmbisonicEncoder)
    (input_buffer output_buffer : AudioBuffer) : option AudioBuffer :=
  if negb (number_of_input_channels_ enc =? num_channels input_buffer)%nat
  then None
  else if negb (number_of_output_channels_ enc =? num_channels output_buffer)%nat
  then None
  else if negb (num_frames input_buffer =? num_frames output_buffer)%nat
  then None
  else
    Some {| num_frames := num_frames output_buffer;
            channels :=
              map (fun row =>
                     map (encoded_sample (encoding_matrix_ enc)
                            (channels input_buffer) row)
                       (seq 0 (num_frames output_buffer)))
                (seq 0 (number_of_output_channels_ enc)) |}.

End WithTables.
End Encoder.

(** *** The encoder column as the specification words it *)

Module EncoderSpec.

(** The comparison [==] of two [float]s as IEEE 754 has it: neither is NaN,
    and they are the same value, the zeros of either sign being one
    value. *)
Definition compares_equal (x y : float) : Prop :=
  x <> S754_nan /\ y <> S754_nan /\
  (x = y \/ exists sx sy : bool, x = S754_zero sx /\ y = S754_zero sy).

(** The tuple given to [SetSource] repeats the cached one. *)
Definition repeats (cached : Encoder.Source) (g a e d : float) : Prop :=
  compares_equal (Encoder.gain cached) g /\
  compares_equal (Encoder.azimuth cached) a /\
  compares_equal (Encoder.elevation cached) e /\
  compares_equal (Encoder.distance cached) d.

Section WithTables.

Context {libm : Libm} {tables : ShTables}.

(** [Y_l^m(a, e) = K_l^|m| * P_l^|m|(sin e) * cos(m a)] for [m >= 0] and
    [... * sin(-m a)] for [m < 0], angles in degrees. *)
Definition sh_coefficient (N : nat) (a e : float) (l m : Z) : float :=
  let a_rad := F32.mul a kRadiansFromDegrees in
  let e_rad := F32.mul e kRadiansFromDegrees in
  let P := nth (alp_GetIndex l (Z.abs m)) (alp_Generate N (std_sin e_rad)) F32.zero in
  let trig := if 0 <=? m then std_cos (F32.mul (F32.of_Z m) a_rad)
              else std_sin (F32.mul (F32.of_Z (- m)) a_rad) in
  F32.mul (F32.mul (Sn3dNormalization l m) P) trig.

(** The coefficients in ACN order: degree after degree, and within a
    degree [l] the orders from [-l] to [l]. *)
Definition sh_coefficients (N : nat) (a e : float) : list float :=
  flat_map (fun l => map (sh_coefficient N a e l) (Encoder.orders_of l))
    (Encoder.degrees_upto N).

(** Overall gain [g = gain / max(distance, 0.5)]. *)
Definition overall_gain (s : Encoder.Source) : float :=
  F32.div (Encoder.gain s) (std_max (Encoder.distance s) kHalf).

(** Column of a source: zero below [10^-6], else [g * Y] in ACN order. *)
Definition source_column (N rows : nat) (s : Encoder.Source) : list float :=
  if F32.ltb (overall_gain s) kNegative120dbInAmplitude
  then replicate rows F32.zero
  else map (fun y => F32.mul y (overall_gain s))
         (sh_coefficients N (Encoder.azimuth s) (Encoder.elevation s)).

End WithTables.
End EncoderSpec.

(** The encoder's representation invariant: the matrix has one column per
    input channel; a channel without a cached source has a zero column, a
    channel with a cached source has the column of that source. *)
Definition enc_inv {libm : Libm} {tables : ShTables} (enc : Encoder.AmbisonicEncoder) : Prop :=
  let N := Encoder.ambisonic_order_ enc in
  let rows := Encoder.number_of_output_channels_ enc in
  Encoder.number_of_input_channels_ enc <> 0%nat /\
  rows = ((N + 1) * (N + 1))%nat /\
  length (Encoder.encoding_matrix_ enc) = Encoder.number_of_input_channels_ enc /\
  forall c : nat,
    (c < Encoder.number_of_input_channels_ enc)%nat ->
    Encoder.encoding_matrix_ enc !! c =
    Some match Encoder.sources_ enc !! c with
         | None => Encoder.zero_column rows
         | Some s => EncoderSpec.source_column N rows s
         end.

(** ** [audio_element_type.h], [input_channel_config.h],
       [loudspeaker_layouts.h], [audio_element_config.cc] *)

(** Modelled from the spec: the enumeration [AudioElementType] of
    [audio_element_type.h], which is not part of this tree; its enumerators
    are the ones the tests and the command line tool name. *)
Inductive AudioElementType : Type :=
  | kInvalidType
  | k1OA | k2OA | k3OA | k4OA | k5OA | k6OA | k7OA
  | kLayoutMono | kLayoutStereo | kLayout3_1_2_ch | kLayout5_1_0_ch
  | kLayout5_1_2_ch | kLayout5_1_4_ch | kLayout7_1_0_ch | kLayout7_1_2_ch
  | kLayout7_1_4_ch | kLayout9_1_0_ch | kLayout9_1_2_ch | kLayout9_1_4_ch
  | kLayout9_1_6_ch
  | kObjectMono.

#[global] Instance AudioElementType_eq_dec : EqDecision AudioElementType.
Proof. solve_decision. Defined.

(** Modelled from the spec: [GetAmbisonicOrder], [IsAmbisonicsType],
    [IsLoudspeakerLayoutType] and [IsObjectType] of [audio_element_type.cc],
    which is not part of this tree; the tables are those of
    [audio_element_type_test.cc]. *)
Definition GetAmbisonicOrder (type : AudioElementType) : option nat :=
  match type with
  | k1OA => Some 1%nat | k2OA => Some 2%nat | k3OA => Some 3%nat
  | k4OA => Some 4%nat | k5OA => Some 5%nat | k6OA => Some 6%nat
  | k7OA => Some 7%nat
  | _ => None
  end.

Definition IsAmbisonicsType (type : AudioElementType) : bool :=
  match type with
  | k1OA | k2OA | k3OA | k4OA | k5OA | k6OA | k7OA => true
  | _ => false
  end.

Definition IsLoudspeakerLayoutType (type : AudioElementType) : bool :=
  match type with
  | kLayoutMono | kLayoutStereo | kLayout3_1_2_ch | kLayout5_1_0_ch
  | kLayout5_1_2_ch | kLayout5_1_4_ch | kLayout7_1_0_ch | kLayout7_1_2_ch
  | kLayout7_1_4_ch | kLayout9_1_0_ch | kLayout9_1_2_ch | kLayout9_1_4_ch
  | kLayout9_1_6_ch => true
  | _ => false
  end.

Definition IsObjectType (type : AudioElementType) : bool :=
  match type with
  | kObjectMono => true
  | _ => false
  end.

(** Modelled from the spec: [kMinSupportedAmbisonicOrder] and
    [kMaxSupportedAmbisonicOrder] of [constants.h], which is not part of this
    tree; the supported orders are 1 to 7. *)
Definition kMinSupportedAmbisonicOrder : nat := 1.
Definition kMaxSupportedAmbisonicOrder : nat := 7.

Record AmbisonicSceneInputChannel : Type := mkAmbisonicChannel {
  amb_id : string;
  amb_channel_index : nat
}.

Record LoudspeakerLayoutInputChannel : Type := mkLoudspeakerChannel {
  ls_id : string;
  ls_channel_index : nat;
  ls_azimuth : float;
  ls_elevation : float;
  ls_distance : float;
  ls_is_LFE : bool
}.

Record AudioObjectInputChannel : Type := mkObjectChannel {
  obj_id : string;
  obj_channel_index : nat;
  obj_gain : float;
  obj_azimuth : float;
  obj_elevation : float;
  obj_distance : float
}.

Module LoudspeakerLayouts.

Inductive VirtualLoudspeaker : Type :=
  | kC | kLFE | kL30 | kR30 | kL45 | kR45 | kL60 | kR60 | kL90 | kR90
  | kL110 | kR110 | kL135 | kR135 | kTL30 | kTR30 | kTL45 | kTR45
  | kTL90 | kTR90 | kTL135 | kTR135 | kTL150 | kTR150.

Definition speaker (id : string) (az el : Z) (is_LFE : bool)
  : LoudspeakerLayoutInputChannel :=
  mkLoudspeakerChannel id 0 (F32.of_Z az) (F32.of_Z el) F32.one is_LFE.

Definition loudspeaker_map (l : VirtualLoudspeaker)
  : LoudspeakerLayoutInputChannel :=
  match l with
  | kC => speaker "kC" 0 0 false
  | kLFE => speaker "kLFE" 0 (-30) true
  | kL30 => speaker "kL30" 30 0 false
  | kR30 => speaker "kR30" (-30) 0 false
  | kL45 => speaker "kL45" 45 0 false
  | kR45 => speaker "kR45" (-45) 0 false
  | kL60 => speaker "kL60" 60 0 false
  | kR60 => speaker "kR60" (-60) 0 false
  | kL90 => speaker "kL90" 90 0 false
  | kR90 => speaker "kR90" (-90) 0 false
  | kL110 => speaker "kL110" 110 0 false
  | kR110 => speaker "kR110" (-110) 0 false
  | kL135 => speaker "kL135" 135 0 false
  | kR135 => speaker "kR135" (-135) 0 false
  | kTL30 => speaker "kTL30" 30 45 false
  | kTR30 => speaker "kTR30" (-30) 45 false
  | kTL45 => speaker "kTL45" 45 45 false
  | kTR45 => speaker "kTR45" (-45) 45 false
  | kTL90 => speaker "kTL90" 90 45 false
  | kTR90 => speaker "kTR90" (-90) 45 false
  | kTL135 => speaker "kTL135" 135 45 false
  | kTR135 => speaker "kTR135" (-135) 45 false
  | kTL150 => speaker "kTL150" 150 45 false
  | kTR150 => speaker "kTR150" (-150) 45 false
  end.

Definition layout_map (type : AudioElementType)
  : option (list VirtualLoudspeaker) :=
  match type with
  | kLayoutMono => Some [kC]
  | kLayoutStereo => Some [kL30; kR30]
  | kLayout3_1_2_ch => Some [kL45; kR45; kC; kLFE; kTL30; kTR30]
  | kLayout5_1_0_ch => Some [kL30; kR30; kC; kLFE; kL110; kR110]
  | kLayout5_1_2_ch => Some [kL30; kR30; kC; kLFE; kL110; kR110; kTL90; kTR90]
  | kLayout5_1_4_ch =>
      Some [kL30; kR30; kC; kLFE; kL110; kR110; kTL45; kTR45; kTL135; kTR135]
  | kLayout7_1_0_ch => Some [kL30; kR30; kC; kLFE; kL90; kR90; kL135; kR135]
  | kLayout7_1_2_ch =>
      Some [kL30; kR30; kC; kLFE; kL90; kR90; kL135; kR135; kTL90; kTR90]
  | kLayout7_1_4_ch =>
      Some [kL30; kR30; kC; kLFE; kL90; kR90; kL135; kR135; kTL45; kTR45;
            kTL135; kTR135]
  | kLayout9_1_0_ch =>
      Some [kL30; kR30; kC; kLFE; kL60; kR60; kL90; kR90; kL135; kR135]
  | kLayout9_1_2_ch =>
      Some [kL30; kR30; kC; kLFE; kL60; kR60; kL90; kR90; kL135; kR135;
            kTL90; kTR90]
  | kLayout9_1_4_ch =>
      Some [kL30; kR30; kC; kLFE; kL60; kR60; kL90; kR90; kL135; kR135;
            kTL45; kTR45; kTL135; kTR135]
  | kLayout9_1_6_ch =>
      Some [kL30; kR30; kC; kLFE; kL60; kR60; kL90; kR90; kL135; kR135;
            kTL30; kTR30; kTL90; kTR90; kTL150; kTR150]
  | _ => None
  end.

(** [LoudspeakerLayouts::getLoudspeakerLayout] *)
Definition getLoudspeakerLayout (type : AudioElementType)
  : list LoudspeakerLayoutInputChannel :=
  match layout_map type with
  | None => []
  | Some layout => map loudspeaker_map layout
  end.

End LoudspeakerLayouts.

(** The result of a call that may end the program: a failed [CHECK], a
    [LOG(FATAL)], [ABSL_DIE_IF_NULL] or a null pointer dereferenced. *)
Inductive outcome (A : Type) : Type :=
  | Returns (a : A)
  | Aborts.
Arguments Returns {A} a.
Arguments Aborts {A}.

#[global] Instance outcome_ret : MRet outcome := @Returns.
#[global] Instance outcome_bind : MBind outcome :=
  fun A B f x =>
    match x with
    | Returns a => f a
    | Aborts => Aborts
    end.

(** [CHECK(b)] *)
Definition check (b : bool) : outcome unit := if b then Returns tt else Aborts.

(** *** [audio_element_config.cc] *)

Module Element.

Record AudioElementConfig : Type := mkAudioElementConfig {
  type_ : AudioElementType;
  first_channel_index_ : nat;
  number_of_input_channels_ : nat;
  binaural_filters_ambisonic_order_ : nat;
  ambisonic_channels_ : list AmbisonicSceneInputChannel;
  loudspeaker_channels_ : list LoudspeakerLayoutInputChannel;
  object_channels_ : list AudioObjectInputChannel
  }.

(** [AudioElementConfig::SetFirstChannelIndex] *)
Definition SetFirstChannelIndex (cfg : AudioElementConfig) (first_channel : nat)
  : AudioElementConfig :=
  {| type_ := type_ cfg;
     first_channel_index_ := first_channel;
     number_of_input_channels_ := number_of_input_channels_ cfg;
     binaural_filters_ambisonic_order_ := binaural_filters_ambisonic_order_ cfg;
     ambisonic_channels_ :=
       imap (fun i ch => mkAmbisonicChannel (amb_id ch) (first_channel + i))
         (ambisonic_channels_ cfg);
     loudspeaker_channels_ :=
       imap (fun i ch =>
               mkLoudspeakerChannel (ls_id ch) (first_channel + i) (ls_azimuth ch)
                 (ls_elevation ch) (ls_distance ch) (ls_is_LFE ch))
         (loudspeaker_channels_ cfg);
     object_channels_ :=
       imap (fun i ch =>
               mkObjectChannel (obj_id ch) (first_channel + i) (obj_gain ch)
                 (obj_azimuth ch) (obj_elevation ch) (obj_distance ch))
         (object_channels_ cfg) |}.

(** [AudioElementConfig::AudioElementConfig(type)] *)
Definition AudioElementConfig_new (type : AudioElementType)
  : outcome AudioElementConfig :=
  cfg ←
    (if IsAmbisonicsType type then
       match GetAmbisonicOrder type with
       | None => Aborts
       | Some order =>
           _ ← check (kMinSupportedAmbisonicOrder <=? order)%nat;
           _ ← check (order <=? kMaxSupportedAmbisonicOrder)%nat;
           let n := ((order + 1) * (order + 1))%nat in
           Returns (mkAudioElementConfig type 0 n order
                      (map (fun i => mkAmbisonicChannel ("kACN" +:+ pretty i) 0)
                         (seq 0 n))
                      [] [])
       end
     else if IsLoudspeakerLayoutType type then
       let layout := LoudspeakerLayouts.getLoudspeakerLayout type in
       Returns (mkAudioElementConfig type 0 (length layout)
                  kMaxSupportedAmbisonicOrder [] layout [])
     else if IsObjectType type then
       let objects :=
         if decide (type = kObjectMono)
         then [mkObjectChannel "kMono" 0 F32.one F32.zero F32.zero F32.one]
         else [] in
       Returns (mkAudioElementConfig type 0 (length objects)
                  kMaxSupportedAmbisonicOrder [] [] objects)
     else Returns (mkAudioElementConfig type 0 0 0 [] [] []));
  Returns (SetFirstChannelIndex cfg 0).

End Element.

(** ** The renderer: [obr_impl.cc] and [sh_hrir_creator.cc] *)

(** Modelled from the spec: the class [WorldRotation], whose header is not
    part of this tree; [WorldRotation(w, x, y, z)] stores the four components
    of the head orientation quaternion as given. *)
Record WorldRotation : Type := mkWorldRotation {
  rot_w : float;
  rot_x : float;
  rot_y : float;
  rot_z : float
}.

(** [absl::Status] *)
Inductive StatusCode : Type :=
  | kOk | kInvalidArgument | kFailedPrecondition | kResourceExhausted.

Record Status : Type := mkStatus {
  code : StatusCode;
  message : string
}.

Definition OkStatus : Status := mkStatus kOk "".
Definition FailedPreconditionError (msg : string) : Status :=
  mkStatus kFailedPrecondition msg.
Definition ResourceExhaustedError (msg : string) : Status :=
  mkStatus kResourceExhausted msg.
Definition InvalidArgumentError (msg : string) : Status :=
  mkStatus kInvalidArgument msg.

Definition status_ok (st : Status) : bool :=
  match code st with
  | kOk => true
  | _ => false
  end.

(** [Wav]: a decoded file. *)
Record Wav : Type := mkWav {
  wav_num_channels : nat;
  wav_sample_rate : Z;
  interleaved_samples : list Z
}.

(** What the renderer takes from outside this development: the constant
    [kMaxSupportedNumInputChannels] of [constants.h] and the default
    [WorldRotation], the HOA rotator and the binaural decoder as opaque
    stateful objects, the HRIR asset provider [GetFile], the WAV decoder
    [Wav::CreateOrNull], [IsValidAmbisonicOrder], [FillAudioBuffer], and
    the resampler ([AreSampleRatesSupported], and [Resample] for the
    sequence reset, set rates, process). *)
Class Dsp : Type := {
  kMaxSupportedNumInputChannels : nat;
  WorldRotation_default : WorldRotation;
  AmbisonicRotator : Type;
  AmbisonicRotator_new : nat -> AmbisonicRotator;
  AmbisonicRotator_Process :
    AmbisonicRotator -> WorldRotation -> AudioBuffer -> AmbisonicRotator * AudioBuffer;
  AmbisonicBinauralDecoder : Type;
  AmbisonicBinauralDecoder_new :
    AudioBuffer -> AudioBuffer -> nat -> AmbisonicBinauralDecoder;
  ProcessAudioBuffer :
    AmbisonicBinauralDecoder -> AudioBuffer -> AudioBuffer ->
    AmbisonicBinauralDecoder * AudioBuffer;
  GetFile : string -> option string;
  Wav_CreateOrNull : string -> option Wav;
  IsValidAmbisonicOrder : nat -> bool;
  FillAudioBuffer : list Z -> nat -> AudioBuffer -> AudioBuffer;
  AreSampleRatesSupported : Z -> Z -> bool;
  Resample : Z -> Z -> AudioBuffer -> AudioBuffer
}.

Module Obr.
Section WithDsp.

Context {libm : Libm} {tables : ShTables} {dsp : Dsp}.

Record ObrImpl : Type := mkObrImpl {
  buffer_size_per_channel_ : nat;
  sampling_rate_ : Z;
  head_tracking_enabled_ : bool;
  world_rotation_ : WorldRotation;
  audio_elements_ : list Element.AudioElementConfig;
  ambisonic_encoder_ : option Encoder.AmbisonicEncoder;
  ambisonic_encoder_input_buffer_ : AudioBuffer;
  ambisonic_rotator_ : option AmbisonicRotator;
  sh_hrirs_L_ : option AudioBuffer;
  sh_hrirs_R_ : option AudioBuffer;
  ambisonic_binaural_decoder_ : option AmbisonicBinauralDecoder;
  peak_limiter_ : option Limiter.PeakLimiter;
  ambisonic_mix_bed_ : AudioBuffer
}.

Definition set_audio_elements (s : ObrImpl) (elements : list Element.AudioElementConfig) : ObrImpl :=
  {| buffer_size_per_channel_ := buffer_size_per_channel_ s;
     sampling_rate_ := sampling_rate_ s;
     head_tracking_enabled_ := head_tracking_enabled_ s;
     world_rotation_ := world_rotation_ s;
     audio_elements_ := elements;
     ambisonic_encoder_ := ambisonic_encoder_ s;
     ambisonic_encoder_input_buffer_ := ambisonic_encoder_input_buffer_ s;
     ambisonic_rotator_ := ambisonic_rotator_ s;
     sh_hrirs_L_ := sh_hrirs_L_ s;
     sh_hrirs_R_ := sh_hrirs_R_ s;
     ambisonic_binaural_decoder_ := ambisonic_binaural_decoder_ s;
     peak_limiter_ := peak_limiter_ s;
     ambisonic_mix_bed_ := ambisonic_mix_bed_ s |}.

Definition set_head_tracking (s : ObrImpl) (enabled : bool) : ObrImpl :=
  {| buffer_size_per_channel_ := buffer_size_per_channel_ s;
     sampling_rate_ := sampling_rate_ s;
     head_tracking_enabled_ := enabled;
     world_rotation_ := world_rotation_ s;
     audio_elements_ := audio_elements_ s;
     ambisonic_encoder_ := ambisonic_encoder_ s;
     ambisonic_encoder_input_buffer_ := ambisonic_encoder_input_buffer_ s;
     ambisonic_rotator_ := ambisonic_rotator_ s;
     sh_hrirs_L_ := sh_hrirs_L_ s;
     sh_hrirs_R_ := sh_hrirs_R_ s;
     ambisonic_binaural_decoder_ := ambisonic_binaural_decoder_ s;
     peak_limiter_ := peak_limiter_ s;
     ambisonic_mix_bed_ := ambisonic_mix_bed_ s |}.

Definition set_world_rotation (s : ObrImpl) (q : WorldRotation) : ObrImpl :=
  {| buffer_size_per_channel_ := buffer_size_per_channel_ s;
     sampling_rate_ := sampling_rate_ s;
     head_tracking_enabled_ := head_tracking_enabled_ s;
     world_rotation_ := q;
     audio_elements_ := audio_elements_ s;
     ambisonic_encoder_ := ambisonic_encoder_ s;
     ambisonic_encoder_input_buffer_ := ambisonic_encoder_input_buffer_ s;
     ambisonic_rotator_ := ambisonic_rotator_ s;
     sh_hrirs_L_ := sh_hrirs_L_ s;
     sh_hrirs_R_ := sh_hrirs_R_ s;
     ambisonic_binaural_decoder_ := ambisonic_binaural_decoder_ s;
     peak_limiter_ := peak_limiter_ s;
     ambisonic_mix_bed_ := ambisonic_mix_bed_ s |}.

Definition set_mix_bed (s : ObrImpl) (bed : AudioBuffer) : ObrImpl :=
  {| buffer_size_per_channel_ := buffer_size_per_channel_ s;
     sampling_rate_ := sampling_rate_ s;
     head_tracking_enabled_ := head_tracking_enabled_ s;
     world_rotation_ := world_rotation_ s;
     audio_elements_ := audio_elements_ s;
     ambisonic_encoder_ := ambisonic_encoder_ s;
     ambisonic_encoder_input_buffer_ := ambisonic_encoder_input_buffer_ s;
     ambisonic_rotator_ := ambisonic_rotator_ s;
     sh_hrirs_L_ := sh_hrirs_L_ s;
     sh_hrirs_R_ := sh_hrirs_R_ s;
     ambisonic_binaural_decoder_ := ambisonic_binaural_decoder_ s;
     peak_limiter_ := peak_limiter_ s;
     ambisonic_mix_bed_ := bed |}.

Definition set_encoder (s : ObrImpl) (enc : option Encoder.AmbisonicEncoder) : ObrImpl :=
  {| buffer_size_per_channel_ := buffer_size_per_channel_ s;
     sampling_rate_ := sampling_rate_ s;
     head_tracking_enabled_ := head_tracking_enabled_ s;
     world_rotation_ := world_rotation_ s;
     audio_elements_ := audio_elements_ s;
     ambisonic_encoder_ := enc;
     ambisonic_encoder_input_buffer_ := ambisonic_encoder_input_buffer_ s;
     ambisonic_rotator_ := ambisonic_rotator_ s;
     sh_hrirs_L_ := sh_hrirs_L_ s;
     sh_hrirs_R_ := sh_hrirs_R_ s;
     ambisonic_binaural_decoder_ := ambisonic_binaural_decoder_ s;
     peak_limiter_ := peak_limiter_ s;
     ambisonic_mix_bed_ := ambisonic_mix_bed_ s |}.

Definition set_encoder_input (s : ObrImpl) (b : AudioBuffer) : ObrImpl :=
  {| buffer_size_per_channel_ := buffer_size_per_channel_ s;
     sampling_rate_ := sampling_rate_ s;
     head_tracking_enabled_ := head_tracking_enabled_ s;
     world_rotation_ := world_rotation_ s;
     audio_elements_ := audio_elements_ s;
     ambisonic_encoder_ := ambisonic_encoder_ s;
     ambisonic_encoder_input_buffer_ := b;
     ambisonic_rotator_ := ambisonic_rotator_ s;
     sh_hrirs_L_ := sh_hrirs_L_ s;
     sh_hrirs_R_ := sh_hrirs_R_ s;
     ambisonic_binaural_decoder_ := ambisonic_binaural_decoder_ s;
     peak_limiter_ := peak_limiter_ s;
     ambisonic_mix_bed_ := ambisonic_mix_bed_ s |}.

Definition set_rotator (s : ObrImpl) (r : option AmbisonicRotator) : ObrImpl :=
  {| buffer_size_per_channel_ := buffer_size_per_channel_ s;
     sampling_rate_ := sampling_rate_ s;
     head_tracking_enabled_ := head_tracking_enabled_ s;
     world_rotation_ := world_rotation_ s;
     audio_elements_ := audio_elements_ s;
     ambisonic_encoder_ := ambisonic_encoder_ s;
     ambisonic_encoder_input_buffer_ := ambisonic_encoder_input_buffer_ s;
     ambisonic_rotator_ := r;
     sh_hrirs_L_ := sh_hrirs_L_ s;
     sh_hrirs_R_ := sh_hrirs_R_ s;
     ambisonic_binaural_decoder_ := ambisonic_binaural_decoder_ s;
     peak_limiter_ := peak_limiter_ s;
     ambisonic_mix_bed_ := ambisonic_mix_bed_ s |}.

Definition set_hrirs (s : ObrImpl) (hl hr : option AudioBuffer) : ObrImpl :=
  {| buffer_size_per_channel_ := buffer_size_per_channel_ s;
     sampling_rate_ := sampling_rate_ s;
     head_tracking_enabled_ := head_tracking_enabled_ s;
     world_rotation_ := world_rotation_ s;
     audio_elements_ := audio_elements_ s;
     ambisonic_encoder_ := ambisonic_encoder_ s;
     ambisonic_encoder_input_buffer_ := ambisonic_encoder_input_buffer_ s;
     ambisonic_rotator_ := ambisonic_rotator_ s;
     sh_hrirs_L_ := hl;
     sh_hrirs_R_ := hr;
     ambisonic_binaural_decoder_ := ambisonic_binaural_decoder_ s;
     peak_limiter_ := peak_limiter_ s;
     ambisonic_mix_bed_ := ambisonic_mix_bed_ s |}.

Definition set_decoder (s : ObrImpl) (dec : option AmbisonicBinauralDecoder) : ObrImpl :=
  {| buffer_size_per_channel_ := buffer_size_per_channel_ s;
     sampling_rate_ := sampling_rate_ s;
     head_tracking_enabled_ := head_tracking_enabled_ s;
     world_rotation_ := world_rotation_ s;
     audio_elements_ := audio_elements_ s;
     ambisonic_encoder_ := ambisonic_encoder_ s;
     ambisonic_encoder_input_buffer_ := ambisonic_encoder_input_buffer_ s;
     ambisonic_rotator_ := ambisonic_rotator_ s;
     sh_hrirs_L_ := sh_hrirs_L_ s;
     sh_hrirs_R_ := sh_hrirs_R_ s;
     ambisonic_binaural_decoder_ := dec;
     peak_limiter_ := peak_limiter_ s;
     ambisonic_mix_bed_ := ambisonic_mix_bed_ s |}.

Definition set_limiter (s : ObrImpl) (lim : option Limiter.PeakLimiter) : ObrImpl :=
  {| buffer_size_per_channel_ := buffer_size_per_channel_ s;
     sampling_rate_ := sampling_rate_ s;
     head_tracking_enabled_ := head_tracking_enabled_ s;
     world_rotation_ := world_rotation_ s;
     audio_elements_ := audio_elements_ s;
     ambisonic_encoder_ := ambisonic_encoder_ s;
     ambisonic_encoder_input_buffer_ := ambisonic_encoder_input_buffer_ s;
     ambisonic_rotator_ := ambisonic_rotator_ s;
     sh_hrirs_L_ := sh_hrirs_L_ s;
     sh_hrirs_R_ := sh_hrirs_R_ s;
     ambisonic_binaural_decoder_ := ambisonic_binaural_decoder_ s;
     peak_limiter_ := lim;
     ambisonic_mix_bed_ := ambisonic_mix_bed_ s |}.

(** [ObrImpl::ObrImpl(buffer_size_per_channel, sampling_rate)] *)
Definition ObrImpl_new (buffer_size_per_channel : nat) (sampling_rate : Z)
  : outcome ObrImpl :=
  _ ← check (0 <? buffer_size_per_channel)%nat;
  _ ← check (0 <? sampling_rate);
  Returns {| buffer_size_per_channel_ := buffer_size_per_channel;
             sampling_rate_ := sampling_rate;
             head_tracking_enabled_ := false;
             world_rotation_ := WorldRotation_default;
             audio_elements_ := [];
             ambisonic_encoder_ := None;
             ambisonic_encoder_input_buffer_ := mkAudioBuffer 0 [];
             ambisonic_rotator_ := None;
             sh_hrirs_L_ := None;
             sh_hrirs_R_ := None;
             ambisonic_binaural_decoder_ := None;
             peak_limiter_ := None;
             ambisonic_mix_bed_ := mkAudioBuffer 0 [] |}.

(** [ObrImpl::GetNumberOfInputChannels] *)
Definition GetNumberOfInputChannels (s : ObrImpl) : nat :=
  foldl (fun n e => (n + Element.number_of_input_channels_ e)%nat) 0%nat
    (audio_elements_ s).

(** [ObrImpl::GetAmbisonicEncoderSourceChannelIndices] *)
Definition GetAmbisonicEncoderSourceChannelIndices (s : ObrImpl) : list nat :=
  flat_map (fun e =>
              if IsLoudspeakerLayoutType (Element.type_ e) ||
                 IsObjectType (Element.type_ e)
              then map (fun i => (Element.first_channel_index_ e + i)%nat)
                     (seq 0 (Element.number_of_input_channels_ e))
              else [])
    (audio_elements_ s).

(** [ObrImpl::ResetDsp] *)
Definition ResetDsp (s : ObrImpl) : Status * ObrImpl :=
  (OkStatus,
   {| buffer_size_per_channel_ := buffer_size_per_channel_ s;
      sampling_rate_ := sampling_rate_ s;
      head_tracking_enabled_ := head_tracking_enabled_ s;
      world_rotation_ := world_rotation_ s;
      audio_elements_ := audio_elements_ s;
      ambisonic_encoder_ := None;
      ambisonic_encoder_input_buffer_ := ambisonic_encoder_input_buffer_ s;
      ambisonic_rotator_ := None;
      sh_hrirs_L_ := None;
      sh_hrirs_R_ := None;
      ambisonic_binaural_decoder_ := None;
      peak_limiter_ := None;
      ambisonic_mix_bed_ := AudioBuffer_Clear (ambisonic_mix_bed_ s) |}).

(** The positions that [UpdateAmbisonicEncoder] hands to the encoder, in
    the order of its loops. *)
Definition encoder_sources (elements : list Element.AudioElementConfig)
  : list (float * float * float) :=
  flat_map (fun e =>
              map (fun ch => (ls_azimuth ch, ls_elevation ch, ls_distance ch))
                (Element.loudspeaker_channels_ e) ++
              map (fun ch => (obj_azimuth ch, obj_elevation ch, obj_distance ch))
                (Element.object_channels_ e))
    elements.

(** [ObrImpl::UpdateAmbisonicEncoder] *)
Definition UpdateAmbisonicEncoder (s : ObrImpl) : outcome (Status * ObrImpl) :=
  match ambisonic_encoder_ s with
  | None =>
      Returns (FailedPreconditionError "Ambisonic encoder not initialized.", s)
  | Some enc =>
      enc' ←
        snd (foldl (fun '(index, enc) '(a, e, d) =>
                      (S index,
                       enc ← enc;
                       match Encoder.SetSource enc index F32.one a e d with
                       | None => Aborts
                       | Some enc' => Returns enc'
                       end))
               (0%nat, Returns enc) (encoder_sources (audio_elements_ s)));
      Returns (OkStatus, set_encoder s (Some enc'))
  end.

(** [CreateShHrirsFromWav] *)
Definition CreateShHrirsFromWav (wav : Wav) (target_sample_rate_hz : Z)
  : outcome AudioBuffer :=
  let num_channels := wav_num_channels wav in
  _ ← check (IsValidAmbisonicOrder num_channels);
  let sh_hrir_length := (length (interleaved_samples wav) / num_channels)%nat in
  let sh_hrirs :=
    FillAudioBuffer (interleaved_samples wav) num_channels
      (AudioBuffer_new num_channels sh_hrir_length) in
  let wav_sample_rate_hz := wav_sample_rate wav in
  _ ← check (0 <? wav_sample_rate_hz);
  _ ← check (0 <? target_sample_rate_hz);
  if negb (wav_sample_rate_hz =? target_sample_rate_hz) then
    if negb (AreSampleRatesSupported wav_sample_rate_hz target_sample_rate_hz)
    then Aborts
    else Returns (Resample wav_sample_rate_hz target_sample_rate_hz sh_hrirs)
  else Returns sh_hrirs.

(** [CreateShHrirsFromAssets] *)
Definition CreateShHrirsFromAssets (filename : string)
    (target_sample_rate_hz : Z) : outcome AudioBuffer :=
  match GetFile filename with
  | None => Aborts
  | Some sh_hrir_data =>
      match Wav_CreateOrNull sh_hrir_data with
      | None => Aborts
      | Some wav => CreateShHrirsFromWav wav target_sample_rate_hz
      end
  end.

(** [ObrImpl::InitializeDsp] *)
Definition InitializeDsp (s : ObrImpl) : outcome (Status * ObrImpl) :=
  match audio_elements_ s with
  | [] =>
      Returns (FailedPreconditionError
                 "No audio elements configured. Can't initialize DSP.", s)
  | first :: _ =>
      let order := Element.binaural_filters_ambisonic_order_ first in
      _ ← check (negb (order =? 0)%nat);
      _ ← check (kMinSupportedAmbisonicOrder <=? order)%nat;
      _ ← check (order <=? kMaxSupportedAmbisonicOrder)%nat;
      if (GetNumberOfInputChannels s =? 0)%nat then
        Returns (FailedPreconditionError
                   "No input channels configured. Can't initialize DSP.", s)
      else
        let '(status, s) := ResetDsp s in
        if negb (status_ok status) then Returns (status, s) else
        let s := set_mix_bed s
                   (AudioBuffer_new ((order + 1) * (order + 1))
                      (buffer_size_per_channel_ s)) in
        let indices := GetAmbisonicEncoderSourceChannelIndices s in
        '(status, s) ←
          match indices with
          | [] => Returns (OkStatus, s)
          | _ :: _ =>
              let s := set_encoder_input s
                         (AudioBuffer_new (length indices)
                            (buffer_size_per_channel_ s)) in
              match Encoder.AmbisonicEncoder_new (length indices) order with
              | None => Aborts
              | Some enc => UpdateAmbisonicEncoder (set_encoder s (Some enc))
              end
          end;
        if negb (status_ok status) then Returns (status, s) else
        let s := set_rotator s (Some (AmbisonicRotator_new order)) in
        let order_string := pretty order in
        hl ← CreateShHrirsFromAssets (order_string +:+ "OA_L") (sampling_rate_ s);
        hr ← CreateShHrirsFromAssets (order_string +:+ "OA_R") (sampling_rate_ s);
        let s := set_hrirs s (Some hl) (Some hr) in
        _ ← check (num_channels hl =? num_channels hr)%nat;
        _ ← check (num_frames hl =? num_frames hr)%nat;
        let s := set_decoder s
                   (Some (AmbisonicBinauralDecoder_new hl hr
                            (buffer_size_per_channel_ s))) in
        let s := set_limiter s
                   (Some (Limiter.PeakLimiter_new (sampling_rate_ s)
                            (F64.of_Z 50)
                            (F64.div (F64.of_Z (-1)) (F64.of_Z 2)))) in
        Returns (OkStatus, s)
  end.

(** [ObrImpl::AddAudioElement] *)
Definition AddAudioElement (s : ObrImpl) (type : AudioElementType)
  : outcome (Status * ObrImpl) :=
  match last (audio_elements_ s) with
  | Some back =>
      if decide (Element.type_ back = type) then
        audio_element_config ← Element.AudioElementConfig_new type;
        let audio_element_config :=
          Element.SetFirstChannelIndex audio_element_config
            (Element.first_channel_index_ back +
             Element.number_of_input_channels_ back) in
        if (kMaxSupportedNumInputChannels <?
            GetNumberOfInputChannels s +
            Element.number_of_input_channels_ audio_element_config)%nat
        then Returns (ResourceExhaustedError
                        "More input channels requested than supported.", s)
        else InitializeDsp
               (set_audio_elements s (audio_elements_ s ++ [audio_element_config]))
      else Returns (FailedPreconditionError
                      "Only same-typed audio elements are supported.", s)
  | None =>
      audio_element_config ← Element.AudioElementConfig_new type;
      if (kMaxSupportedNumInputChannels <?
          GetNumberOfInputChannels s +
          Element.number_of_input_channels_ audio_element_config)%nat
      then Returns (ResourceExhaustedError
                      "More input channels requested than supported.", s)
      else InitializeDsp
             (set_audio_elements s (audio_elements_ s ++ [audio_element_config]))
  end.

(** [ObrImpl::RemoveLastAudioElement] *)
Definition RemoveLastAudioElement (s : ObrImpl) : outcome (Status * ObrImpl) :=
  match audio_elements_ s with
  | [] => Returns (FailedPreconditionError "No audio elements to remove.", s)
  | _ :: _ =>
      let s := set_audio_elements s (removelast (audio_elements_ s)) in
      match audio_elements_ s with
      | [] => Returns (OkStatus, s)
      | _ :: _ =>
          '(status, s) ← InitializeDsp s;
          if negb (status_ok status) then Returns (status, s) else
          '(status, s) ← UpdateAmbisonicEncoder s;
          if negb (status_ok status) then Returns (status, s) else
          Returns (OkStatus, s)
      end
  end.

Definition set_object_position (a e d : float) (cfg : Element.AudioElementConfig)
  : Element.AudioElementConfig :=
  {| Element.type_ := Element.type_ cfg;
     Element.first_channel_index_ := Element.first_channel_index_ cfg;
     Element.number_of_input_channels_ := Element.number_of_input_channels_ cfg;
     Element.binaural_filters_ambisonic_order_ :=
       Element.binaural_filters_ambisonic_order_ cfg;
     Element.ambisonic_channels_ := Element.ambisonic_channels_ cfg;
     Element.loudspeaker_channels_ := Element.loudspeaker_channels_ cfg;
     Element.object_channels_ :=
       map (fun ch =>
              mkObjectChannel (obj_id ch) (obj_channel_index ch) (obj_gain ch) a e d)
         (Element.object_channels_ cfg) |}.

(** [ObrImpl::UpdateObjectPosition] *)
Definition UpdateObjectPosition (s : ObrImpl) (audio_element_index : nat)
    (a e d : float) : outcome (Status * ObrImpl) :=
  match audio_elements_ s !! audio_element_index with
  | None => Returns (InvalidArgumentError "Invalid audio element index.", s)
  | Some cfg =>
      match Element.object_channels_ cfg with
      | [] => Returns (FailedPreconditionError "No objects in the audio element.", s)
      | _ :: _ =>
          let s := set_audio_elements s
                     (<[audio_element_index := set_object_position a e d cfg]>
                        (audio_elements_ s)) in
          '(status, s) ← UpdateAmbisonicEncoder s;
          if negb (status_ok status) then Returns (status, s) else
          Returns (OkStatus, s)
      end
  end.

(** [ObrImpl::EnableHeadTracking] *)
Definition EnableHeadTracking (s : ObrImpl) (enable_head_tracking : bool)
  : ObrImpl :=
  set_head_tracking s enable_head_tracking.

(** [ObrImpl::SetHeadRotation] *)
Definition SetHeadRotation (s : ObrImpl) (w x y z : float) : Status * ObrImpl :=
  (OkStatus, set_world_rotation s (mkWorldRotation w x y z)).

(** [buffer[i] = source]: a [ChannelView] assigned from another one. *)
Definition channel_assign (b : AudioBuffer) (i : nat) (source : list float)
  : outcome AudioBuffer :=
  match channels b !! i with
  | None => Aborts
  | Some ch =>
      _ ← check (length source =? length ch)%nat;
      Returns {| num_frames := num_frames b; channels := <[i := source]> (channels b) |}
  end.

(** [buffer[i] += other]: [AddPointwise(size, other, this, this)]. *)
Definition channel_add (b : AudioBuffer) (i : nat) (other : list float)
  : outcome AudioBuffer :=
  match channels b !! i with
  | None => Aborts
  | Some ch =>
      _ ← check (length other =? length ch)%nat;
      Returns {| num_frames := num_frames b;
                 channels := <[i := zip_with F32.add other ch]> (channels b) |}
  end.

(** [input_buffer[i]] *)
Definition channel_at (b : AudioBuffer) (i : nat) : outcome (list float) :=
  match channels b !! i with
  | None => Aborts
  | Some ch => Returns ch
  end.

(** The first stage of [ObrImpl::Process]: the encoder fed with the
    loudspeaker and object channels, then the Ambisonic input channels
    added to the mix bed. *)
Definition EncodeStage (s : ObrImpl) (input_buffer : AudioBuffer)
  : outcome ObrImpl :=
  let indices := GetAmbisonicEncoderSourceChannelIndices s in
  s ←
    match indices with
    | [] => Returns (set_mix_bed s (AudioBuffer_Clear (ambisonic_mix_bed_ s)))
    | _ :: _ =>
        encoder_input ←
          foldl (fun b '(i, index) =>
                   b ← b;
                   source ← channel_at input_buffer index;
                   channel_assign b i source)
            (Returns (ambisonic_encoder_input_buffer_ s))
            (imap (fun i index => (i, index)) indices);
        match ambisonic_encoder_ s with
        | None => Aborts
        | Some enc =>
            match Encoder.ProcessPlanarAudioData enc encoder_input
                    (ambisonic_mix_bed_ s) with
            | None => Aborts
            | Some bed => Returns (set_mix_bed (set_encoder_input s encoder_input) bed)
            end
        end
    end;
  bed ←
    foldl (fun bed audio_element =>
             if IsAmbisonicsType (Element.type_ audio_element) then
               foldl (fun bed channel =>
                        bed ← bed;
                        other ← channel_at input_buffer
                                  (Element.first_channel_index_ audio_element + channel);
                        channel_add bed channel other)
                 bed (seq 0 (Element.number_of_input_channels_ audio_element))
             else bed)
      (Returns (ambisonic_mix_bed_ s)) (audio_elements_ s);
  Returns (set_mix_bed s bed).

(** Modelled from the spec: [kNumBinauralChannels] of [constants.h], which
    is not part of this tree; the output is a two-channel mix. *)
Definition GetNumberOfOutputChannels : nat := 2.

(** The second stage of [ObrImpl::Process]: the mix bed rotated in place
    when head tracking is enabled. *)
Definition RotateStage (s : ObrImpl) : outcome ObrImpl :=
  if head_tracking_enabled_ s then
    match ambisonic_rotator_ s with
    | None => Aborts
    | Some rotator =>
        let '(rotator, bed) :=
          AmbisonicRotator_Process rotator (world_rotation_ s)
            (ambisonic_mix_bed_ s) in
        Returns (set_rotator (set_mix_bed s bed) (Some rotator))
    end
  else Returns s.

(** The last stages of [ObrImpl::Process]: binaural decoding and peak
    limiting of the output in place. *)
Definition DecodeLimitStage (s : ObrImpl) (output_buffer : AudioBuffer)
  : outcome (ObrImpl * AudioBuffer) :=
  match ambisonic_binaural_decoder_ s with
  | None => Aborts
  | Some decoder =>
      let '(decoder, output) :=
        ProcessAudioBuffer decoder (ambisonic_mix_bed_ s) output_buffer in
      match peak_limiter_ s with
      | None => Aborts
      | Some limiter =>
          match Limiter.Process limiter output output with
          | None => Aborts
          | Some (limiter, output) =>
              Returns (set_limiter (set_decoder s (Some decoder)) (Some limiter),
                       output)
          end
      end
  end.

(** [ObrImpl::Process] *)
Definition Process (s : ObrImpl) (input_buffer output_buffer : AudioBuffer)
  : outcome (ObrImpl * AudioBuffer) :=
  _ ← check (num_channels input_buffer =? GetNumberOfInputChannels s)%nat;
  _ ← check (num_frames input_buffer =? buffer_size_per_channel_ s)%nat;
  _ ← check (num_channels output_buffer =? GetNumberOfOutputChannels)%nat;
  _ ← check (num_frames output_buffer =? buffer_size_per_channel_ s)%nat;
  s ← EncodeStage s input_buffer;
  s ← RotateStage s;
  DecodeLimitStage s output_buffer.

(** The states a renderer can be in: those its constructor and its
    public operations produce. *)
Inductive reachable : ObrImpl -> Prop :=
  | reach_new (b : nat) (rate : Z) (s : ObrImpl) :
      ObrImpl_new b rate = Returns s -> reachable s
  | reach_add (s s' : ObrImpl) (type : AudioElementType) (st : Status) :
      reachable s -> AddAudioElement s type = Returns (st, s') -> reachable s'
  | reach_remove (s s' : ObrImpl) (st : Status) :
      reachable s -> RemoveLastAudioElement s = Returns (st, s') -> reachable s'
  | reach_update (s s' : ObrImpl) (i : nat) (a e d : float) (st : Status) :
      reachable s -> UpdateObjectPosition s i a e d = Returns (st, s') ->
      reachable s'
  | reach_tracking (s : ObrImpl) (enable : bool) :
      reachable s -> reachable (EnableHeadTracking s enable)
  | reach_rotation (s : ObrImpl) (w x y z : float) :
      reachable s -> reachable (snd (SetHeadRotation s w x y z))
  | reach_process (s s' : ObrImpl) (input output output' : AudioBuffer) :
      reachable s -> Process s input output = Returns (s', output') ->
      reachable s'.

(** No configured element is of the invalid type, and each has input
    channels. *)
Definition elements_ok (s : ObrImpl) : Prop :=
  Forall (fun e => Element.type_ e <> kInvalidType /\
                   (0 < Element.number_of_input_channels_ e)%nat)
    (audio_elements_ s).

End WithDsp.
End Obr.

(** A signal cut into consecutive blocks of the given sizes. *)
Definition take_frames (k : nat) (b : AudioBuffer) : AudioBuffer :=
  {| num_frames := k; channels := map (take k) (channels b) |}.

Definition drop_frames (k : nat) (b : AudioBuffer) : AudioBuffer :=
  {| num_frames := (num_frames b - k)%nat; channels := map (drop k) (channels b) |}.

Fixpoint split_frames (sizes : list nat) (b : AudioBuffer) : list AudioBuffer :=
  match sizes with
  | [] => []
  | k :: rest => take_frames k b :: split_frames rest (drop_frames k b)
  end.

(** ** A concrete environment

    Stand-ins for what lies outside this development, to run the model on
    concrete inputs: a C library known only at the arguments the renderer
    passes at 48 kHz, unit spherical-harmonic tables, a rotator and a decoder
    that pass their buffers through, the fourteen HRIR assets of the orders 1
    to 7, each a one-frame file of silence at 48 kHz, and a resampler for
    44.1 kHz and 48 kHz.  The theorems
    below hold for every environment; this one only serves the examples. *)
Module Sample.

Definition libm : Libm :=
  {| std_pow := fun _ _ =>
       F64.div (F64.of_Z 9440608762859234) (F64.of_Z 10000000000000000);
     std_exp := fun _ =>
       F64.div (F64.of_Z 9987507809245808) (F64.of_Z 10000000000000000);
     std_sin := fun x => x;
     std_cos := fun _ => F32.one |}.

Definition tables : ShTables :=
  {| kRadiansFromDegrees := F32.div (F32.of_Z 31415927) (F32.of_Z 1800000000);
     Sn3dNormalization := fun _ _ => F32.one;
     alp_Generate := fun N _ => replicate ((N + 1) * (N + 2) / 2) F32.one;
     alp_GetIndex := fun l m => Z.to_nat (l * (l + 1) / 2 + m) |}.

Definition asset_keys : list string :=
  ["1OA_L"; "1OA_R"; "2OA_L"; "2OA_R"; "3OA_L"; "3OA_R"; "4OA_L"; "4OA_R";
   "5OA_L"; "5OA_R"; "6OA_L"; "6OA_R"; "7OA_L"; "7OA_R"].

Definition order_of_asset (data : string) : nat :=
  match data with
  | String c _ => (nat_of_ascii c - 48)%nat
  | EmptyString => 0%nat
  end.

Definition dsp : Dsp :=
  {| kMaxSupportedNumInputChannels := 128;
     WorldRotation_default := mkWorldRotation F32.one F32.zero F32.zero F32.zero;
     AmbisonicRotator := nat;
     AmbisonicRotator_new := fun order => order;
     AmbisonicRotator_Process := fun r _ bed => (r, bed);
     AmbisonicBinauralDecoder := nat;
     AmbisonicBinauralDecoder_new := fun _ _ frames => frames;
     ProcessAudioBuffer := fun d _ output => (d, output);
     GetFile := fun name =>
       if bool_decide (name ∈ asset_keys) then Some name else None;
     Wav_CreateOrNull := fun data =>
       let n := ((order_of_asset data + 1) * (order_of_asset data + 1))%nat in
       Some (mkWav n 48000 (replicate n 0));
     IsValidAmbisonicOrder := fun n =>
       existsb (fun k => (k * k =? n)%nat) (seq 1 8);
     FillAudioBuffer := fun _ _ b => b;
     AreSampleRatesSupported := fun a b =>
       ((a =? 44100) || (a =? 48000)) && ((b =? 44100) || (b =? 48000));
     Resample := fun _ _ b => b |}.

(** A renderer of 4 frames per block at 48 kHz, as constructed. *)
Definition renderer : @Obr.ObrImpl dsp :=
  {| Obr.buffer_size_per_channel_ := 4;
     Obr.sampling_rate_ := 48000;
     Obr.head_tracking_enabled_ := false;
     Obr.world_rotation_ := mkWorldRotation F32.one F32.zero F32.zero F32.zero;
     Obr.audio_elements_ := [];
     Obr.ambisonic_encoder_ := None;
     Obr.ambisonic_encoder_input_buffer_ := mkAudioBuffer 0 [];
     Obr.ambisonic_rotator_ := None;
     Obr.sh_hrirs_L_ := None;
     Obr.sh_hrirs_R_ := None;
     Obr.ambisonic_binaural_decoder_ := None;
     Obr.peak_limiter_ := None;
     Obr.ambisonic_mix_bed_ := mkAudioBuffer 0 [] |}.

(** The state a successful call leaves, [s] itself when the call aborts. *)
Definition state_after (s : @Obr.ObrImpl dsp)
    (o : outcome (Status * @Obr.ObrImpl dsp)) : @Obr.ObrImpl dsp :=
  match o with
  | Returns (_, s') => s'
  | Aborts => s
  end.

Definition add (s : @Obr.ObrImpl dsp) (type : AudioElementType)
  : outcome (Status * @Obr.ObrImpl dsp) :=
  @Obr.AddAudioElement libm tables dsp s type.

(** The renderer after one and after two first-order Ambisonic elements. *)
Definition renderer_1OA : @Obr.ObrImpl dsp := state_after renderer (add renderer k1OA).
Definition renderer_1OA_1OA : @Obr.ObrImpl dsp :=
  state_after renderer_1OA (add renderer_1OA k1OA).

(** A block of [nch] channels and [nfr] frames, every sample 1. *)
Definition ones (nch nfr : nat) : AudioBuffer :=
  mkAudioBuffer nfr (replicate nch (replicate nfr F32.one)).

(** An encoder of one input channel and first order, and a source set
    once at 30 degrees azimuth. *)
Definition encoder : Encoder.AmbisonicEncoder :=
  {| Encoder.number_of_input_channels_ := 1;
     Encoder.number_of_output_channels_ := 4;
     Encoder.ambisonic_order_ := 1;
     Encoder.sources_ := ∅;
     Encoder.encoding_matrix_ := [replicate 4 F32.zero] |}.

Definition encoder_set : Encoder.AmbisonicEncoder :=
  match @Encoder.SetSource libm tables encoder 0 F32.one (F32.of_Z 30) F32.zero
          F32.one with
  | Some enc => enc
  | None => encoder
  end.

(** The encoder with a source set once straight ahead, at azimuth [+0]. *)
Definition encoder_front : Encoder.AmbisonicEncoder :=
  match @Encoder.SetSource libm tables encoder 0 F32.one (S754_zero false)
          F32.zero F32.one with
  | Some enc => enc
  | None => encoder
  end.

(** The renderer's limiter at 48 kHz. *)
Definition limiter : Limiter.PeakLimiter :=
  @Limiter.PeakLimiter_new libm 48000 (F64.of_Z 50)
    (F64.div (F64.of_Z (-1)) (F64.of_Z 2)).

(** The same environment with an asset provider that has no file at all,
    and a renderer constructed in it. *)
Definition dsp_without_assets : Dsp :=
  {| kMaxSupportedNumInputChannels := 128;
     WorldRotation_default := mkWorldRotation F32.one F32.zero F32.zero F32.zero;
     AmbisonicRotator := nat;
     AmbisonicRotator_new := fun order => order;
     AmbisonicRotator_Process := fun r _ bed => (r, bed);
     AmbisonicBinauralDecoder := nat;
     AmbisonicBinauralDecoder_new := fun _ _ frames => frames;
     ProcessAudioBuffer := fun d _ output => (d, output);
     GetFile := fun _ => None;
     Wav_CreateOrNull := fun _ => None;
     IsValidAmbisonicOrder := fun n =>
       existsb (fun k => (k * k =? n)%nat) (seq 1 8);
     FillAudioBuffer := fun _ _ b => b;
     AreSampleRatesSupported := fun a b =>
       ((a =? 44100) || (a =? 48000)) && ((b =? 44100) || (b =? 48000));
     Resample := fun _ _ b => b |}.

Definition renderer_without_assets : @Obr.ObrImpl dsp_without_assets :=
  {| Obr.buffer_size_per_channel_ := 4;
     Obr.sampling_rate_ := 48000;
     Obr.head_tracking_enabled_ := false;
     Obr.world_rotation_ := mkWorldRotation F32.one F32.zero F32.zero F32.zero;
     Obr.audio_elements_ := [];
     Obr.ambisonic_encoder_ := None;
     Obr.ambisonic_encoder_input_buffer_ := mkAudioBuffer 0 [];
     Obr.ambisonic_rotator_ := None;
     Obr.sh_hrirs_L_ := None;
     Obr.sh_hrirs_R_ := None;
     Obr.ambisonic_binaural_decoder_ := None;
     Obr.peak_limiter_ := None;
     Obr.ambisonic_mix_bed_ := mkAudioBuffer 0 [] |}.

(** A renderer of the sample environment at 12345 Hz, a rate that the
    resampler does not take the 48 kHz assets to. *)
Definition renderer_12345 : @Obr.ObrImpl dsp :=
  {| Obr.buffer_size_per_channel_ := 4;
     Obr.sampling_rate_ := 12345;
     Obr.head_tracking_enabled_ := false;
     Obr.world_rotation_ := mkWorldRotation F32.one F32.zero F32.zero F32.zero;
     Obr.audio_elements_ := [];
     Obr.ambisonic_encoder_ := None;
     Obr.ambisonic_encoder_input_buffer_ := mkAudioBuffer 0 [];
     Obr.ambisonic_rotator_ := None;
     Obr.sh_hrirs_L_ := None;
     Obr.sh_hrirs_R_ := None;
     Obr.ambisonic_binaural_decoder_ := None;
     Obr.peak_limiter_ := None;
     Obr.ambisonic_mix_bed_ := mkAudioBuffer 0 [] |}.

End Sample.

(** Arithmetic in [size_t], 64 bits wide. *)
Definition size_t_wrap (z : Z) : Z := z mod 18446744073709551616.

(** ** [dsp_utils.cc] *)

(** [CeilToMultipleOfFramesPerBuffer(size, frames_per_buffer)].  A zero
    [frames_per_buffer] fails the [DCHECK_NE]; without the check the
    remainder is undefined. *)
Definition CeilToMultipleOfFramesPerBuffer (size frames_per_buffer : Z)
  : outcome Z :=
  if frames_per_buffer =? 0 then Aborts
  else
    let remainder := size mod frames_per_buffer in
    Returns (if remainder =? 0 then Z.max size frames_per_buffer
             else size_t_wrap (size + frames_per_buffer - remainder)).

(** ** [aligned_allocator.h] *)

Module Aligned.

(** The two conditions of [StaticAlignmentCheck<TypeSize, Alignment>]. *)
Definition alignment_is_power_of_two (Alignment : Z) : bool :=
  negb (Alignment =? 0) &&
  negb (negb (Z.land Alignment (size_t_wrap (Alignment - 1)) =? 0)).

Definition type_size_is_power_of_two (TypeSize : Z) : bool :=
  negb (negb (Z.land TypeSize (size_t_wrap (TypeSize - 1)) =? 0)).

(** The heap as far as the allocator is concerned: the pointers that
    [AlignedMalloc] has saved, by the address they are saved at. *)
Definition saved_pointers : Type := gmap Z Z.

(** [AlignedMalloc<Type, SizeType, PointerType>(size, alignment)] with
    [malloc] as a parameter: [malloc n] is the address of a fresh block of
    [n] bytes, or [None] for [nullptr].  The result is the aligned address
    and the heap with the address of the block saved right before it. *)
Definition AlignedMalloc (sizeof_Type sizeof_PointerType : Z)
    (malloc : Z -> option Z) (heap : saved_pointers) (size alignment : Z)
  : option (Z * saved_pointers) :=
  let data_size := size_t_wrap (size * sizeof_Type) in
  let offset := size_t_wrap (alignment - 1 + sizeof_PointerType) in
  match malloc (size_t_wrap (data_size + offset)) with
  | None => None
  | Some mem_block_begin =>
      let mem_block_aligned :=
        Z.land (size_t_wrap (mem_block_begin + offset))
          (size_t_wrap (Z.lnot (size_t_wrap (alignment - 1)))) in
      Some (mem_block_aligned,
            <[mem_block_aligned - sizeof_PointerType := mem_block_begin]> heap)
  end.

(** [AlignedFree(mem_block_aligned)]: the address handed to [free]. *)
Definition AlignedFree (sizeof_PointerType : Z) (heap : saved_pointers)
    (mem_block_aligned : Z) : option Z :=
  heap !! (mem_block_aligned - sizeof_PointerType).

End Aligned.

(** ** [obr_cli.cc] and [obr_cli_lib.cc] *)

Module Cli.

(** [AbslParseFlag(text, input_type, error)]: the type parsed, or the
    error text when the function returns [false]. *)
Definition AbslParseFlag (text : string) : AudioElementType + string :=
  if decide (text = EmptyString) then inr "No input type specified."
  else if decide (text = "3OA") then inl k3OA
  else if decide (text = "7OA") then inl k7OA
  else if decide (text = "7.1.4") then inl kLayout7_1_4_ch
  else if decide (text = "OBA") then inl kObjectMono
  else inr "Unsupported input type.".

(** [AbslUnparseFlag(input_type)] *)
Definition AbslUnparseFlag (input_type : AudioElementType) : string :=
  match input_type with
  | k3OA => "3OA"
  | k7OA => "7OA"
  | kLayout7_1_4_ch => "7.1.4"
  | kObjectMono => "OBA"
  | _ => "Unsupported input type."
  end.

(** [static_cast<int16_t>] of a [float]: the fractional part is discarded;
    [None] where the value does not fit and the conversion is undefined. *)
Definition float_to_int16 (x : float) : option Z :=
  match x with
  | S754_zero _ | S754_finite _ _ _ =>
      let t := float_trunc x in
      if (-32768 <=? t) && (t <=? 32767) then Some t else None
  | _ => None
  end.

(** The loops of [ObrCliMain] that convert the samples of a WAV file:
    [static_cast<float>(sample) / 32768.0f] on the way in and
    [static_cast<int16_t>(sample * 32768.0f)] on the way out. *)
Definition input_sample (sample : Z) : float :=
  F32.div (F32.of_Z sample) (F32.of_Z 32768).

Definition output_sample (sample : float) : option Z :=
  float_to_int16 (F32.mul sample (F32.of_Z 32768)).

Definition round_trips (sample : Z) : bool :=
  match output_sample (input_sample sample) with
  | Some back => back =? sample
  | None => false
  end.

End Cli.

(** ** [wav_reader.cc] and [wav.cc] *)

Module WavFile.

#[global] Instance byte_eq_dec : EqDecision Byte.byte.
Proof.
  intros x y. destruct (Byte.eqb x y) eqn:E.
  - left. apply Byte.byte_dec_bl, E.
  - right. apply Byte.eqb_false, E.
Defined.

(** A [std::istream] over a byte string: the bytes, the get position, and
    whether the stream is still [good()].  A short read sets [eofbit] and
    [failbit] together, so a stream is either good or failed. *)
Record istream : Type := mkIstream {
  stream_data : list Byte.byte;
  stream_pos : nat;
  stream_good : bool
}.

(** [binary_stream->tellg()] *)
Definition tellg (s : istream) : Z :=
  if stream_good s then Z.of_nat (stream_pos s) else -1.

(** An unsigned integer as its bytes lie in memory on a little-endian
    host, which is how the header structs are filled. *)
Definition le_uint (bs : list Byte.byte) : Z :=
  foldr (fun b acc => Z.of_N (Byte.to_N b) + 256 * acc) 0 bs.

(** The same two bytes read as an [int16_t]. *)
Definition le_int16 (bs : list Byte.byte) : Z :=
  let u := le_uint bs in
  if u <? 32768 then u else u - 65536.

(** [static_cast<int>] of a [uint32_t]. *)
Definition to_int32 (u : Z) : Z :=
  if u <? 2147483648 then u else u - 4294967296.

(** The bytes [[from, from + len)] of a block read from the stream. *)
Definition field (block : list Byte.byte) (from len : nat) : list Byte.byte :=
  take len (drop from block).

Definition id_is (block : list Byte.byte) (from : nat) (id : string) : bool :=
  bool_decide (field block from 4 = String.list_byte_of_string id).

Record WavReader : Type := mkWavReader {
  binary_stream_ : istream;
  init_ : bool;
  num_channels_ : Z;
  sample_rate_hz_ : Z;
  num_total_samples_ : Z;
  num_remaining_samples_ : Z;
  (** [None] until [ParseHeader] assigns it. *)
  bytes_per_sample_ : option Z;
  pcm_offset_bytes_ : Z
}.

Definition kWavHeaderSize : nat := 44.
Definition kExtensibleWavFormat : Z := 65534.
Definition kPcmFormat : Z := 1.

(** [WavReader::ReadBinaryDataFromStream]: the bytes stored at the target,
    whose number is the value returned, and the stream afterwards. *)
Definition ReadBinaryDataFromStream (s : istream) (size : nat)
  : list Byte.byte * istream :=
  if negb (stream_good s) then ([], s)
  else
    let chunk := take size (drop (stream_pos s) (stream_data s)) in
    (chunk,
     {| stream_data := stream_data s;
        stream_pos := (stream_pos s + length chunk)%nat;
        stream_good := (length chunk =? size)%nat |}).

(** The loops of [ParseHeader] that read [n] bytes one at a time and give
    up at the first one missing. *)
Fixpoint skip_bytes (n : nat) (s : istream) : bool * istream :=
  match n with
  | O => (true, s)
  | S n' =>
      let '(data, s) := ReadBinaryDataFromStream s 1 in
      if negb (length data =? 1)%nat then (false, s) else skip_bytes n' s
  end.

Definition set_stream (r : WavReader) (s : istream) : WavReader :=
  {| binary_stream_ := s;
     init_ := init_ r;
     num_channels_ := num_channels_ r;
     sample_rate_hz_ := sample_rate_hz_ r;
     num_total_samples_ := num_total_samples_ r;
     num_remaining_samples_ := num_remaining_samples_ r;
     bytes_per_sample_ := bytes_per_sample_ r;
     pcm_offset_bytes_ := pcm_offset_bytes_ r |}.

(** The optional extension of the format chunk. *)
Definition skip_extension (format_size : Z) (s : istream) : bool * istream :=
  if format_size =? 16 then (true, s)
  else
    let '(extension_size, s) := ReadBinaryDataFromStream s 2 in
    if negb (length extension_size =? 2)%nat then (false, s)
    else skip_bytes (Z.to_nat (size_t_wrap (le_int16 extension_size))) s.

(** The [fact] chunk of the extensible format. *)
Definition skip_fact (format_tag : Z) (s : istream) : bool * istream :=
  if format_tag =? kExtensibleWavFormat then
    let '(fact_header, s) := ReadBinaryDataFromStream s 8 in
    if negb (length fact_header =? 8)%nat then (false, s)
    else if negb (id_is fact_header 0 "fact") then (false, s)
    else skip_bytes (Z.to_nat (le_uint (field fact_header 4 4))) s
  else (true, s).

(** [WavReader::ParseHeader] *)
Definition ParseHeader (r : WavReader) : bool * WavReader :=
  let '(header, s) :=
    ReadBinaryDataFromStream (binary_stream_ r) (kWavHeaderSize - 8) in
  if negb (length header =? kWavHeaderSize - 8)%nat then (false, set_stream r s)
  else
    let format_size := le_uint (field header 16 4) in
    if format_size <? 16 then (false, set_stream r s)
    else
      let '(ok, s) := skip_extension format_size s in
      if negb ok then (false, set_stream r s)
      else
        let format_tag := le_uint (field header 20 2) in
        let '(ok, s) := skip_fact format_tag s in
        if negb ok then (false, set_stream r s)
        else
          let '(data, s) := ReadBinaryDataFromStream s 8 in
          if negb (length data =? 8)%nat then (false, set_stream r s)
          else
            let num_channels := le_uint (field header 22 2) in
            let sample_rate_hz := to_int32 (le_uint (field header 24 4)) in
            let bytes_per_sample := le_uint (field header 34 2) / 8 in
            let r :=
              {| binary_stream_ := s;
                 init_ := init_ r;
                 num_channels_ := num_channels;
                 sample_rate_hz_ := sample_rate_hz;
                 num_total_samples_ := num_total_samples_ r;
                 num_remaining_samples_ := num_remaining_samples_ r;
                 bytes_per_sample_ := Some bytes_per_sample;
                 pcm_offset_bytes_ := pcm_offset_bytes_ r |} in
            if (bytes_per_sample =? 0) || negb (bytes_per_sample =? 2)
            then (false, r)
            else
              let bytes_in_payload := le_uint (field data 4 4) in
              let num_total_samples := bytes_in_payload / bytes_per_sample in
              let r :=
                {| binary_stream_ := s;
                   init_ := init_ r;
                   num_channels_ := num_channels;
                   sample_rate_hz_ := sample_rate_hz;
                   num_total_samples_ := num_total_samples;
                   num_remaining_samples_ := num_total_samples;
                   bytes_per_sample_ := Some bytes_per_sample;
                   pcm_offset_bytes_ := pcm_offset_bytes_ r |} in
              if (num_channels =? 0) || (num_total_samples =? 0) ||
                 negb (bytes_in_payload mod bytes_per_sample =? 0) ||
                 (negb (format_tag =? kPcmFormat) &&
                  negb (format_tag =? kExtensibleWavFormat)) ||
                 negb (id_is header 0 "RIFF") ||
                 negb (id_is header 8 "WAVE") ||
                 negb (id_is header 12 "fmt ") ||
                 negb (id_is data 0 "data")
              then (false, r)
              else
                let current_position := tellg s in
                if current_position <? 0 then (false, r)
                else
                  (true,
                   {| binary_stream_ := s;
                      init_ := init_ r;
                      num_channels_ := num_channels;
                      sample_rate_hz_ := sample_rate_hz;
                      num_total_samples_ := num_total_samples;
                      num_remaining_samples_ := num_total_samples;
                      bytes_per_sample_ := Some bytes_per_sample;
                      pcm_offset_bytes_ := current_position |}).

(** [WavReader::WavReader(binary_stream)] *)
Definition WavReader_new (binary_stream : istream) : WavReader :=
  let '(init, r) :=
    ParseHeader
      {| binary_stream_ := binary_stream;
         init_ := false;
         num_channels_ := 0;
         sample_rate_hz_ := -1;
         num_total_samples_ := 0;
         num_remaining_samples_ := 0;
         bytes_per_sample_ := None;
         pcm_offset_bytes_ := 0 |} in
  {| binary_stream_ := binary_stream_ r;
     init_ := init;
     num_channels_ := num_channels_ r;
     sample_rate_hz_ := sample_rate_hz_ r;
     num_total_samples_ := num_total_samples_ r;
     num_remaining_samples_ := num_remaining_samples_ r;
     bytes_per_sample_ := bytes_per_sample_ r;
     pcm_offset_bytes_ := pcm_offset_bytes_ r |}.

Definition GetNumTotalSamples (r : WavReader) : Z := num_total_samples_ r.
Definition GetNumChannels (r : WavReader) : Z := num_channels_ r.
Definition GetSampleRateHz (r : WavReader) : Z := sample_rate_hz_ r.
Definition IsHeaderValid (r : WavReader) : bool := init_ r.

(** [WavReader::ReadSamples(num_samples, target_buffer)]: the number of
    samples read, the bytes stored at the target, and the reader
    afterwards.  [None] is the division by a [bytes_per_sample_] that is
    zero or was never assigned. *)
Definition ReadSamples (r : WavReader) (num_samples : Z)
  : option (Z * list Byte.byte * WavReader) :=
  let num_samples_to_read := Z.min (num_remaining_samples_ r) num_samples in
  if num_samples_to_read =? 0 then Some (0, [], r)
  else
    let '(target, s) :=
      ReadBinaryDataFromStream (binary_stream_ r)
        (Z.to_nat (size_t_wrap (num_samples * 2))) in
    let num_bytes_read := Z.of_nat (length target) in
    match bytes_per_sample_ r with
    | None => None
    | Some bytes_per_sample =>
        if bytes_per_sample =? 0 then None
        else
          let num_samples_read := num_bytes_read / bytes_per_sample in
          Some (num_samples_read, target,
                {| binary_stream_ := s;
                   init_ := init_ r;
                   num_channels_ := num_channels_ r;
                   sample_rate_hz_ := sample_rate_hz_ r;
                   num_total_samples_ := num_total_samples_ r;
                   num_remaining_samples_ :=
                     size_t_wrap (num_remaining_samples_ r - num_samples_read);
                   bytes_per_sample_ := bytes_per_sample_ r;
                   pcm_offset_bytes_ := pcm_offset_bytes_ r |})
    end.

(** The [int16_t] values of a target buffer filled with [bytes]. *)
Fixpoint samples_of_bytes (bytes : list Byte.byte) : list Z :=
  match bytes with
  | lo :: hi :: rest => le_int16 [lo; hi] :: samples_of_bytes rest
  | _ => []
  end.

(** [Wav::CreateOrNull(binary_stream)] *)
Definition CreateOrNull (binary_stream : istream) : option Wav :=
  let wav_reader := WavReader_new binary_stream in
  let num_total_samples := GetNumTotalSamples wav_reader in
  if negb (IsHeaderValid wav_reader) || (num_total_samples =? 0) then None
  else
    match ReadSamples wav_reader num_total_samples with
    | None => None
    | Some (num_read, target, _) =>
        if negb (num_read =? num_total_samples) then None
        else Some (mkWav (Z.to_nat (GetNumChannels wav_reader))
                     (GetSampleRateHz wav_reader)
                     (samples_of_bytes target))
    end.

(** A stream opened on a byte string. *)
Definition open (data : list Byte.byte) : istream :=
  {| stream_data := data; stream_pos := 0; stream_good := true |}.

(** *** The plain 16-bit PCM layout

    A header of 44 bytes: no extension of the format chunk, no [fact]
    chunk, the data chunk right after the format chunk. *)
Definition plain_pcm16 (data : list Byte.byte) : bool :=
  (44 <=? length data)%nat &&
  id_is data 0 "RIFF" && id_is data 8 "WAVE" && id_is data 12 "fmt " &&
  id_is data 36 "data" &&
  (le_uint (field data 16 4) =? 16) &&
  (le_uint (field data 20 2) =? kPcmFormat) &&
  (le_uint (field data 34 2) / 8 =? 2) &&
  negb (le_uint (field data 22 2) =? 0) &&
  (le_uint (field data 40 4) mod 2 =? 0) &&
  negb (le_uint (field data 40 4) =? 0).

Definition byte_of_Z (z : Z) : Byte.byte :=
  default Byte.x00 (Byte.of_N (Z.to_N z)).

(** The [n] low bytes of [z], least significant first. *)
Fixpoint le_bytes (n : nat) (z : Z) : list Byte.byte :=
  match n with
  | O => []
  | S n' => byte_of_Z (z mod 256) :: le_bytes n' (z / 256)
  end.

(** The plain 44-byte header followed by the samples.  The reader does not
    look at the RIFF chunk size, the byte rate and the block alignment;
    they are left to the caller. *)
Definition pcm16_file (riff_size byte_rate block_align : Z)
    (channels rate : Z) (samples : list Z) : list Byte.byte :=
  String.list_byte_of_string "RIFF" ++ le_bytes 4 riff_size ++
  String.list_byte_of_string "WAVE" ++
  String.list_byte_of_string "fmt " ++ le_bytes 4 16 ++
  le_bytes 2 kPcmFormat ++ le_bytes 2 channels ++ le_bytes 4 rate ++
  le_bytes 4 byte_rate ++ le_bytes 2 block_align ++ le_bytes 2 16 ++
  String.list_byte_of_string "data" ++
  le_bytes 4 (2 * Z.of_nat (length samples)) ++
  flat_map (le_bytes 2) samples.

End WavFile.

(** *** The input channel layout of a renderer *)

(** The input channel indices that the channels of an element carry. *)
Definition channel_indices (e : Element.AudioElementConfig) : list nat :=
  map amb_channel_index (Element.ambisonic_channels_ e) ++
  map ls_channel_index (Element.loudspeaker_channels_ e) ++
  map obj_channel_index (Element.object_channels_ e).

(** Elements laid out back to back from input channel [from] on: each
    starts where the one before it ends, and its channels are numbered
    from its first index on. *)
Fixpoint channels_contiguous (from : nat) (l : list Element.AudioElementConfig)
  : Prop :=
  match l with
  | [] => True
  | e :: rest =>
      Element.first_channel_index_ e = from /\
      channel_indices e = seq from (Element.number_of_input_channels_ e) /\
      channels_contiguous (from + Element.number_of_input_channels_ e) rest
  end.

(** *** Invariants of the renderer state *)

Section RendererInvariants.
Context {libm : Libm} {tables : ShTables} {dsp : Dsp}.
Import Obr.

(** The number of input channels of a list of elements. *)
Definition total_channels (l : list Element.AudioElementConfig) : nat :=
  foldl (fun n e => (n + Element.number_of_input_channels_ e)%nat) 0%nat l.

(** The invariant of the element list. *)
Definition layout_inv (s : ObrImpl) : Prop :=
  channels_contiguous 0 (audio_elements_ s) /\
  (GetNumberOfInputChannels s <= kMaxSupportedNumInputChannels)%nat /\
  forall e1 e2, e1 ∈ audio_elements_ s -> e2 ∈ audio_elements_ s ->
    Element.type_ e1 = Element.type_ e2.

(** The DSP objects that [Process] goes through are there. *)
Definition dsp_ready (s : ObrImpl) : Prop :=
  is_Some (ambisonic_rotator_ s) /\
  is_Some (ambisonic_binaural_decoder_ s) /\
  is_Some (peak_limiter_ s) /\
  is_Some (sh_hrirs_L_ s) /\ is_Some (sh_hrirs_R_ s) /\
  (ambisonic_encoder_ s = None <-> GetAmbisonicEncoderSourceChannelIndices s = []).

End RendererInvariants.

(** A value that is neither an infinity nor NaN. *)
Definition is_finite (x : spec_float) : bool :=
  match x with
  | S754_zero _ | S754_finite _ _ _ => true
  | _ => false
  end.

(** [-1.0f <= x && x <= 1.0f], the range that the comments of
    [sample_type_conversion.h] give for a sample in float format. *)
Definition in_unit_range (x : float) : bool :=
  SFleb (F32.of_Z (-1)) x && SFleb x F32.one.

(** Whether a 16-bit sample converts into that range, against whether it is
    anything but the lowest one; checked on the whole range by
    enumeration. *)
Definition unit_range_check (v : Z) : bool :=
  Bool.eqb (in_unit_range (SampleConversion.ConvertSampleToFloatFormat v))
    (negb (v =? -32768)).

(** ** Sample inputs for the reader, the allocator and the limiter *)

Module SampleData.

(** A mono file at 48 kHz that holds the samples 1, -2 and 3, and the same
    file followed by four bytes that belong to no chunk. *)
Definition wav_bytes : list Byte.byte :=
  WavFile.pcm16_file 42 96000 2 1 48000 [1; -2; 3].

Definition wav_bytes_trailing : list Byte.byte :=
  wav_bytes ++ WavFile.le_bytes 4 0.

(** Readers over the two, as they are after the header. *)
Definition reader : WavFile.WavReader :=
  WavFile.WavReader_new (WavFile.open wav_bytes).

Definition reader_trailing : WavFile.WavReader :=
  WavFile.WavReader_new (WavFile.open wav_bytes_trailing).

(** A [malloc] that hands out the block at address 4104. *)
Definition malloc (size : Z) : option Z := Some 4104.

(** A block of [nch] channels and [nfr] frames, every sample 1/2. *)
Definition halves (nch nfr : nat) : AudioBuffer :=
  mkAudioBuffer nfr (replicate nch (replicate nfr (F32.div F32.one (F32.of_Z 2)))).

(** An encoder of two input channels and first order, as constructed;
    with a source set on channel 1; and with one more set on channel 0. *)
Definition encoder_two : Encoder.AmbisonicEncoder :=
  {| Encoder.number_of_input_channels_ := 2;
     Encoder.number_of_output_channels_ := 4;
     Encoder.ambisonic_order_ := 1;
     Encoder.sources_ := ∅;
     Encoder.encoding_matrix_ := [replicate 4 F32.zero; replicate 4 F32.zero] |}.

Definition encoder_two_side : Encoder.AmbisonicEncoder :=
  match @Encoder.SetSource Sample.libm Sample.tables encoder_two 1 F32.one
          (F32.of_Z 90) F32.zero F32.one with
  | Some enc => enc
  | None => encoder_two
  end.

Definition encoder_two_both : Encoder.AmbisonicEncoder :=
  match @Encoder.SetSource Sample.libm Sample.tables encoder_two_side 0 F32.one
          (F32.of_Z 30) F32.zero F32.one with
  | Some enc => enc
  | None => encoder_two_side
  end.

End SampleData.

(** * Properties *)

(** ** Floating-point facts used throughout *)

Lemma SFabs_idem (x : spec_float) : SFabs (SFabs x) = SFabs x.
Proof. destruct x; reflexivity. Qed.

Lemma SFabs_binary_round (prec emax : Z) (m : positive) (e : Z) :
  SFabs (binary_round prec emax false m e) = binary_round prec emax false m e.
Proof.
  unfold binary_round, binary_round_aux.
  destruct (shl_align _ _ _) as [mz ez].
  destruct (shr_fexp _ _ _ _ _) as [mrs' e'].
  destruct (shr_fexp _ _ _ _ _) as [mrs'' e''].
  destruct (shr_m mrs'') as [|p|p]; [reflexivity| |reflexivity].
  destruct (Z.leb _ _); reflexivity.
Qed.

Lemma SFabs_float_to_double (m : float) :
  SFabs m = m -> SFabs (float_to_double m) = float_to_double m.
Proof.
  destruct m as [s|s| |s m e]; simpl; intros Hm; try exact Hm.
  injection Hm as <-. apply SFabs_binary_round.
Qed.

Lemma SFabs_std_max (m x : float) :
  SFabs m = m -> SFabs (std_max m (SFabs x)) = std_max m (SFabs x).
Proof.
  intros Hm. unfold std_max. destruct (SFltb _ _); [apply SFabs_idem|exact Hm].
Qed.

(** Adding a positive zero leaves every sample but the negative zero as it
    is. *)
Lemma F32_add_zero_r (x : float) :
  x <> S754_zero true -> F32.add x F32.zero = x.
Proof. destruct x as [[|]| | |]; intros Hx; try reflexivity. congruence. Qed.

(** ** List facts *)

Lemma nth_zip_with {A B C : Type} (f : A -> B -> C) (da : A) (db : B) (dc : C) :
  forall (l : list A) (k : list B) (i : nat),
    (i < length l)%nat -> (i < length k)%nat ->
    nth i (zip_with f l k) dc = f (nth i l da) (nth i k db).
Proof.
  induction l as [|a l IH]; intros [|b k] [|i]; simpl; intros H1 H2;
    try lia; [reflexivity|].
  apply IH; lia.
Qed.

Lemma map_nth_seq {A : Type} (d : A) (l : list A) :
  map (fun i => nth i l d) (seq 0 (length l)) = l.
Proof.
  induction l as [|a l IH]; [reflexivity|].
  simpl. f_equal. rewrite <- seq_shift, map_map. exact IH.
Qed.

Lemma zip_with_map_seq {A B C : Type} (f : A -> B -> C) (g : nat -> B) :
  forall (l : list A) (k : nat),
    zip_with f l (map g (seq k (length l))) = imap (fun i x => f x (g (k + i)%nat)) l.
Proof.
  induction l as [|a l IH]; intros k; [reflexivity|].
  simpl. f_equal; [f_equal; f_equal; lia|].
  rewrite IH. apply imap_ext. intros i x _. simpl. f_equal. f_equal. lia.
Qed.

(** ** The peak limiter *)

Section LimiterFacts.
Import Limiter LimiterSpec.

Lemma frame_peak_abs (input : AudioBuffer) (i : nat) :
  SFabs (frame_peak input i) = frame_peak input i.
Proof.
  unfold frame_peak.
  assert (Hfold : forall (chs : list (list float)) (m : float),
             SFabs m = m ->
             SFabs (foldl (fun m ch => std_max m (F32.abs (nth i ch F32.zero))) m chs) =
             foldl (fun m ch => std_max m (F32.abs (nth i ch F32.zero))) m chs).
  { induction chs as [|ch chs IH]; intros m Hm; simpl; [exact Hm|].
    apply IH. apply SFabs_std_max, Hm. }
  apply Hfold. reflexivity.
Qed.

Lemma max_samples_fold (n : nat) (chs : list (list float)) :
  forall acc : list float,
    length acc = n ->
    Forall (fun ch => length ch = n) chs ->
    foldl max_samples_step acc chs =
    map (fun i =>
           foldl (fun m ch => std_max m (F32.abs (nth i ch F32.zero)))
             (nth i acc F32.zero) chs)
      (seq 0 n).
Proof.
  induction chs as [|ch chs IH]; intros acc Hacc Hchs; simpl.
  - subst n. symmetry. apply map_nth_seq.
  - inversion Hchs as [|? ? Hch Hrest]; subst.
    rewrite IH; [|unfold max_samples_step; rewrite length_zip_with; lia|exact Hrest].
    apply map_ext_in. intros i Hi. apply in_seq in Hi.
    unfold max_samples_step.
    rewrite (nth_zip_with _ F32.zero F32.zero) by lia. reflexivity.
Qed.

Lemma max_samples_frame_peak (input : AudioBuffer) :
  buffer_wf input ->
  max_samples_of input = map (frame_peak input) (seq 0 (num_frames input)).
Proof.
  intros Hwf. unfold max_samples_of.
  rewrite (max_samples_fold (num_frames input)); [|apply length_replicate|exact Hwf].
  apply map_ext_in. intros i Hi. apply in_seq in Hi. unfold frame_peak.
  f_equal. rewrite nth_lookup, lookup_replicate_2 by lia. reflexivity.
Qed.

Lemma env_update_step (l : PeakLimiter) (e : double) (input : AudioBuffer) (i : nat) :
  env_update l e (frame_peak input i) =
  envelope_step (ceiling_ l) (release_time_constant_ l) e (frame_peak input i).
Proof.
  unfold env_update, envelope_step, GetMaximumRequiredGain, required_gain, F64.abs.
  rewrite SFabs_float_to_double by apply frame_peak_abs. reflexivity.
Qed.

Lemma limiter_env_loop_spec (l : PeakLimiter) (e0 : double) (input : AudioBuffer) :
  forall n k : nat,
    limiter_env_loop l
      (envelope_end (ceiling_ l) (release_time_constant_ l) e0 input k)
      (map (frame_peak input) (seq k n)) =
    (envelope_end (ceiling_ l) (release_time_constant_ l) e0 input (k + n),
     map (fun i => double_to_float
                     (envelope_at (ceiling_ l) (release_time_constant_ l) e0 input i))
       (seq k n)).
Proof.
  induction n as [|n IH]; intros k; simpl.
  - rewrite Nat.add_0_r. reflexivity.
  - rewrite env_update_step.
    assert (Hk : envelope_step (ceiling_ l) (release_time_constant_ l)
                   (envelope_end (ceiling_ l) (release_time_constant_ l) e0 input k)
                   (frame_peak input k) =
                 envelope_end (ceiling_ l) (release_time_constant_ l) e0 input (S k)).
    { destruct k; reflexivity. }
    rewrite Hk, (IH (S k)).
    replace (S k + n)%nat with (k + S n)%nat by lia. reflexivity.
Qed.

Lemma apply_env_imap (g : nat -> float) (n : nat) (chs : list (list float)) :
  Forall (fun ch => length ch = n) chs ->
  map (apply_env (map g (seq 0 n))) chs =
  map (imap (fun i x => F32.mul x (g i))) chs.
Proof.
  intros Hchs. apply map_ext_in. intros ch Hch.
  rewrite List.Forall_forall in Hchs. rewrite <- (Hchs ch Hch).
  unfold apply_env. apply zip_with_map_seq.
Qed.

Lemma Process_spec (l : PeakLimiter) (input output : AudioBuffer) :
  buffer_wf input ->
  num_channels input = num_channels output ->
  num_frames input = num_frames output ->
  Process l input output =
  Some (set_env l (envelope_end (ceiling_ l) (release_time_constant_ l)
                     (env_ l) input (num_frames input)),
        {| num_frames := num_frames output;
           channels := limited (ceiling_ l) (release_time_constant_ l)
                         (env_ l) input |}).
Proof.
  intros Hwf Hc Hf. unfold Process.
  apply Nat.eqb_eq in Hc, Hf. rewrite Hc, Hf. simpl negb. cbv iota.
  rewrite max_samples_frame_peak by exact Hwf.
  pose proof (limiter_env_loop_spec l (env_ l) input (num_frames input) 0) as Hloop.
  simpl envelope_end in Hloop at 1. rewrite Hloop. simpl plus.
  unfold limited. rewrite apply_env_imap by exact Hwf. reflexivity.
Qed.

End LimiterFacts.

(** *** Blocks laid end to end *)

Section LimiterBlocks.
Import Limiter LimiterSpec.

Lemma max_samples_fold_app (n1 : nat) :
  forall (chs1 chs2 : list (list float)) (acc1 acc2 : list float),
    length chs1 = length chs2 ->
    length acc1 = n1 ->
    Forall (fun ch => length ch = n1) chs1 ->
    foldl max_samples_step (acc1 ++ acc2) (zip_with app chs1 chs2) =
    foldl max_samples_step acc1 chs1 ++ foldl max_samples_step acc2 chs2.
Proof.
  induction chs1 as [|c1 chs1 IH]; intros [|c2 chs2] acc1 acc2 Hlen Hacc Hwf;
    simpl in *; try discriminate; [reflexivity|].
  inversion Hwf as [|? ? Hc1 Hrest]; subst.
  unfold max_samples_step at 2. rewrite zip_with_app by congruence.
  apply IH; [lia| |exact Hrest].
  unfold max_samples_step. rewrite length_zip_with. lia.
Qed.

Lemma max_samples_append (b1 b2 : AudioBuffer) :
  buffer_wf b1 ->
  num_channels b1 = num_channels b2 ->
  max_samples_of (append_frames b1 b2) = max_samples_of b1 ++ max_samples_of b2.
Proof.
  intros Hwf Hch. unfold max_samples_of. simpl.
  rewrite replicate_add.
  apply (max_samples_fold_app (num_frames b1));
    [exact Hch|apply length_replicate|exact Hwf].
Qed.

Lemma limiter_env_loop_app (l : PeakLimiter) (ms2 : list float) :
  forall (ms1 : list float) (e : double),
    limiter_env_loop l e (ms1 ++ ms2) =
    (fst (limiter_env_loop l (fst (limiter_env_loop l e ms1)) ms2),
     snd (limiter_env_loop l e ms1) ++
     snd (limiter_env_loop l (fst (limiter_env_loop l e ms1)) ms2)).
Proof.
  induction ms1 as [|m ms1 IH]; intros e; simpl.
  - destruct (limiter_env_loop l e ms2); reflexivity.
  - rewrite IH. destruct (limiter_env_loop l (env_update l e m) ms1) as [e1 o1].
    reflexivity.
Qed.

Lemma limiter_env_loop_length (l : PeakLimiter) :
  forall (ms : list float) (e : double),
    length (snd (limiter_env_loop l e ms)) = length ms.
Proof.
  induction ms as [|m ms IH]; intros e; simpl; [reflexivity|].
  specialize (IH (env_update l e m)).
  destruct (limiter_env_loop l (env_update l e m) ms). simpl in *. lia.
Qed.

Lemma limiter_env_loop_set_env (l : PeakLimiter) (e' : double) :
  forall (ms : list float) (e : double),
    limiter_env_loop (set_env l e') e ms = limiter_env_loop l e ms.
Proof.
  induction ms as [|m ms IH]; intros e; simpl; [reflexivity|].
  rewrite IH. reflexivity.
Qed.

Lemma max_samples_length (n : nat) (chs : list (list float)) :
  forall acc : list float,
    length acc = n ->
    Forall (fun ch => length ch = n) chs ->
    length (foldl max_samples_step acc chs) = n.
Proof.
  induction chs as [|ch chs IH]; intros acc Hacc Hwf; simpl; [exact Hacc|].
  inversion Hwf as [|? ? Hch Hrest]; subst.
  apply IH; [|exact Hrest].
  unfold max_samples_step. rewrite length_zip_with. lia.
Qed.

Lemma apply_env_append (o1 o2 : list float) (n1 : nat) :
  length o1 = n1 ->
  forall chs1 chs2 : list (list float),
    Forall (fun ch => length ch = n1) chs1 ->
    map (apply_env (o1 ++ o2)) (zip_with app chs1 chs2) =
    zip_with app (map (apply_env o1) chs1) (map (apply_env o2) chs2).
Proof.
  intros Ho. induction chs1 as [|c1 chs1 IH]; intros [|c2 chs2] Hwf; simpl;
    try reflexivity.
  inversion Hwf as [|? ? Hc1 Hrest]; subst.
  rewrite IH by exact Hrest. f_equal.
  unfold apply_env. apply zip_with_app. congruence.
Qed.

(** One block of [n1 + n2] frames gives what its two halves give in turn. *)
Lemma Process_append (l : PeakLimiter) (b1 b2 : AudioBuffer) :
  buffer_wf b1 ->
  num_channels b1 = num_channels b2 ->
  exists (l1 l2 : PeakLimiter) (o1 o2 : AudioBuffer),
    Process_in_place l b1 = Some (l1, o1) /\
    Process_in_place l1 b2 = Some (l2, o2) /\
    Process_in_place l (append_frames b1 b2) = Some (l2, append_frames o1 o2).
Proof.
  intros Hwf Hch. unfold Process_in_place, Process.
  rewrite !Nat.eqb_refl. simpl negb. cbv iota.
  rewrite max_samples_append by assumption.
  rewrite limiter_env_loop_app.
  pose proof (limiter_env_loop_length l (max_samples_of b1) (env_ l)) as Hlen.
  destruct (limiter_env_loop l (env_ l) (max_samples_of b1)) as [e1 o1] eqn:H1.
  simpl fst in *. simpl snd in *.
  destruct (limiter_env_loop l e1 (max_samples_of b2)) as [e2 o2] eqn:H2.
  simpl fst. simpl snd.
  exists (set_env l e1), (set_env l e2),
    {| num_frames := num_frames b1; channels := map (apply_env o1) (channels b1) |},
    {| num_frames := num_frames b2; channels := map (apply_env o2) (channels b2) |}.
  split; [reflexivity|].
  split; [rewrite limiter_env_loop_set_env; simpl env_; rewrite H2; reflexivity|].
  unfold append_frames. simpl. f_equal. f_equal. f_equal.
  apply (apply_env_append o1 o2 (num_frames b1)); [|exact Hwf].
  rewrite Hlen. unfold max_samples_of.
  apply max_samples_length; [apply length_replicate|exact Hwf].
Qed.

Lemma zip_app_lengths (n1 n2 : nat) :
  forall c k : list (list float),
    Forall (fun ch => length ch = n1) c ->
    Forall (fun ch => length ch = n2) k ->
    Forall (fun ch => length ch = (n1 + n2)%nat) (zip_with app c k).
Proof.
  induction c as [|x c IH]; intros [|y k] Hc Hk; simpl; try constructor.
  - inversion Hc; inversion Hk; subst. apply length_app.
  - inversion Hc; inversion Hk; subst. apply IH; assumption.
Qed.

Lemma concat_blocks_shape (nch : nat) (blocks : list AudioBuffer) :
  Forall (fun b => buffer_wf b /\ num_channels b = nch) blocks ->
  buffer_wf (concat_blocks nch blocks) /\
  num_channels (concat_blocks nch blocks) = nch.
Proof.
  induction 1 as [|b rest [Hwf Hn] _ [IHwf IHn]]; simpl.
  - split.
    + unfold buffer_wf. simpl. apply Forall_replicate. reflexivity.
    + unfold num_channels. simpl. apply length_replicate.
  - split.
    + apply zip_app_lengths; assumption.
    + unfold num_channels, append_frames in *. simpl.
      rewrite length_zip_with. lia.
Qed.

Lemma Process_empty_block (l : PeakLimiter) (nch : nat) :
  Process_in_place l (AudioBuffer_new nch 0) = Some (l, AudioBuffer_new nch 0).
Proof.
  unfold Process_in_place, Process. rewrite !Nat.eqb_refl. simpl negb. cbv iota.
  assert (Hmax : max_samples_of (AudioBuffer_new nch 0) = []).
  { unfold max_samples_of. simpl. induction nch as [|n IH]; [reflexivity|exact IH]. }
  rewrite Hmax. clear Hmax. simpl. f_equal. f_equal; [destruct l; reflexivity|].
  unfold AudioBuffer_new. f_equal. simpl.
  induction nch as [|n IH]; simpl; [reflexivity|]. f_equal. exact IH.
Qed.

End LimiterBlocks.


(** Any list of blocks: processed in turn, they give what their
    concatenation gives as one block. *)
Lemma limiter_blocks_concat (nch : nat) (blocks : list AudioBuffer) :
  Forall (fun b => buffer_wf b /\ num_channels b = nch) blocks ->
  forall l : Limiter.PeakLimiter,
  exists (l' : Limiter.PeakLimiter) (outs : list AudioBuffer),
    Limiter.Process_blocks l blocks = Some (l', outs) /\
    Limiter.Process_in_place l (concat_blocks nch blocks) =
    Some (l', concat_blocks nch outs).
Proof.
  induction 1 as [|b rest [Hwf Hn] Hrest IH]; intros l.
  - exists l, []. split; [reflexivity|]. apply Process_empty_block.
  - destruct (concat_blocks_shape nch rest Hrest) as [Hwf' Hn'].
    destruct (Process_append l b (concat_blocks nch rest) Hwf)
      as (l1 & l2 & o1 & o2 & H1 & H2 & H12); [congruence|].
    destruct (IH l1) as (l' & outs & Hblocks & Hwhole).
    rewrite Hwhole in H2. injection H2 as <- <-.
    exists l', (o1 :: outs). split.
    + simpl. rewrite H1, Hblocks. reflexivity.
    + exact H12.
Qed.

Lemma split_frames_concat (sizes : list nat) :
  forall b : AudioBuffer,
    buffer_wf b ->
    sum_list sizes = num_frames b ->
    Forall (fun x => buffer_wf x /\ num_channels x = num_channels b)
      (split_frames sizes b) /\
    concat_blocks (num_channels b) (split_frames sizes b) = b.
Proof.
  induction sizes as [|k rest IH]; intros [n chs] Hwf Hsum;
    unfold buffer_wf, num_channels in *; simpl in *.
  - split; [constructor|]. subst n. unfold AudioBuffer_new. f_equal.
    induction Hwf as [|ch chs Hch _ IHchs]; simpl; [reflexivity|].
    f_equal; [|exact IHchs]. destruct ch; [reflexivity|discriminate].
  - assert (Hk : (k <= n)%nat) by lia.
    destruct (IH (drop_frames k {| num_frames := n; channels := chs |}))
      as [IHall IHcat].
    + unfold buffer_wf, drop_frames. simpl. apply Forall_fmap.
      eapply Forall_impl; [exact Hwf|]. simpl. intros ch Hch.
      rewrite length_drop. lia.
    + simpl. lia.
    + assert (Hn : length (channels (drop_frames k {| num_frames := n; channels := chs |}))
                   = length chs) by apply length_map.
      rewrite Hn in IHall, IHcat. split.
      * constructor; [|exact IHall]. unfold buffer_wf, num_channels. simpl.
        split; [|apply length_map]. apply Forall_fmap.
        eapply Forall_impl; [exact Hwf|]. simpl. intros ch Hch.
        rewrite length_take. lia.
      * rewrite IHcat. unfold append_frames, take_frames, drop_frames. simpl.
        f_equal; [lia|].
        clear. induction chs as [|ch chs IHchs]; simpl; [reflexivity|].
        rewrite take_drop, IHchs. reflexivity.
Qed.

(** C6.  For every signal and every split of it into consecutive blocks of
    arbitrary sizes, feeding the blocks through [Process] in order leaves
    the same envelope and produces the same output samples as feeding the
    whole signal as a single block. *)
Theorem limiter_block_partition (signal : AudioBuffer) (sizes : list nat)
    (l : Limiter.PeakLimiter) :
  buffer_wf signal ->
  sum_list sizes = num_frames signal ->
  exists (l' : Limiter.PeakLimiter) (outs : list AudioBuffer),
    Limiter.Process_blocks l (split_frames sizes signal) = Some (l', outs) /\
    Limiter.Process_in_place l signal =
    Some (l', concat_blocks (num_channels signal) outs).
Proof.
  intros Hwf Hsum.
  destruct (split_frames_concat sizes signal Hwf Hsum) as [Hall Hcat].
  destruct (limiter_blocks_concat _ _ Hall l) as (l' & outs & Hblocks & Hwhole).
  rewrite Hcat in Hwhole. exists l', outs. split; assumption.
Qed.

(** ** The sample converters *)

Example kInt16ToFloat_value :
  SampleConversion.kInt16ToFloat = S754_finite false 8388864 (-38).
Proof. reflexivity. Qed.

(** 513 becomes [8405248 * 2^-29], which times 32767 rounds to
    [8404991 * 2^-14], a little below 513. *)
Example round_trip_513_steps :
  SampleConversion.ConvertSampleToFloatFormat 513 = S754_finite false 8405248 (-29) /\
  F32.mul (SampleConversion.ConvertSampleToFloatFormat 513)
    SampleConversion.kFloatToInt16 = S754_finite false 8404991 (-14) /\
  float_trunc (S754_finite false 8404991 (-14)) = 512.
Proof. repeat split. Qed.

Lemma all_range_spec (P : Z -> bool) (n : nat) :
  forall lo : Z,
    SampleConversion.all_range P lo n = true ->
    forall v : Z, lo <= v < lo + Z.of_nat n -> P v = true.
Proof.
  induction n as [|n IH]; simpl SampleConversion.all_range; intros lo Hall v Hv.
  - lia.
  - apply andb_prop in Hall as [H1 H2].
    destruct (Z.eq_dec v lo) as [->|Hne]; [exact H1|].
    apply (IH (lo + 1)); [exact H2|lia].
Qed.

Lemma round_trip_enumerated :
  SampleConversion.all_range SampleConversion.round_trip_near (-32767)
    (Z.to_nat 65535) = true.
Proof. vm_compute. reflexivity. Qed.

(** C9, as stated, fails: 513 becomes 513/32767 in [float], which scaled
    back by 32767 is 512.99997, and the conversion to [int16_t] discards the
    fraction. *)
Lemma sample_round_trip_513 :
  -32767 <= 513 <= 32767 /\
  SampleConversion.ConvertSampleFromFloatFormat
    (SampleConversion.ConvertSampleToFloatFormat 513) = 512.
Proof. split; [lia|]. vm_compute. reflexivity. Qed.

(** C9, amended.  For every integer [v] in [-0x7FFF, 0x7FFF] the round trip
    through [ConvertSampleToFloatFormat] and [ConvertSampleFromFloatFormat]
    yields [v] or the next integer towards zero, and it yields [v] itself
    whenever [|v| <= 512]. *)
Theorem sample_round_trip_within_one (v : Z) :
  -32767 <= v <= 32767 ->
  let r := SampleConversion.ConvertSampleFromFloatFormat
             (SampleConversion.ConvertSampleToFloatFormat v) in
  (r = v \/ r = v - Z.sgn v) /\ (Z.abs v <= 512 -> r = v).
Proof.
  intros Hv r.
  pose proof (all_range_spec _ _ _ round_trip_enumerated v) as Hnear.
  rewrite Z2Nat.id in Hnear by lia. specialize (Hnear ltac:(lia)).
  unfold SampleConversion.round_trip_near, SampleConversion.round_trip in Hnear.
  fold r in Hnear.
  apply orb_prop in Hnear as [Heq|Hnear].
  - apply Z.eqb_eq in Heq. split; [left; exact Heq|intros _; exact Heq].
  - apply andb_prop in Hnear as [Heq Habs].
    apply Z.eqb_eq in Heq. apply Z.ltb_lt in Habs.
    split; [right; exact Heq|lia].
Qed.

Lemma sample_round_trip_within_one_witness :
  -32767 <= -32672 <= 32767 /\
  let r := SampleConversion.ConvertSampleFromFloatFormat
             (SampleConversion.ConvertSampleToFloatFormat (-32672)) in
  (r = -32672 \/ r = -32672 - Z.sgn (-32672)) /\ (Z.abs (-32672) <= 512 -> r = -32672).
Proof.
  split; [lia|]. apply (sample_round_trip_within_one (-32672)). lia.
Defined.

(** ** The Ambisonic encoder *)

Section EncoderFacts.
Context {libm : Libm} {tables : ShTables}.
Import Encoder.

Lemma GetShCoeffs_loops (azimuth_rad : float) (alp : list float) (degrees : list Z) :
  forall acc : option (list float),
    foldl (fun coeffs degree =>
             foldl (GetShCoeffs_body azimuth_rad alp degree) coeffs (orders_of degree))
      acc degrees =
    foldl put_row acc (sh_writes azimuth_rad alp degrees).
Proof.
  induction degrees as [|l degrees IH]; intros acc; [reflexivity|].
  simpl. unfold sh_writes in *. simpl. rewrite foldl_app, IH. f_equal.
  generalize (orders_of l) as orders. clear.
  intros orders. revert acc.
  induction orders as [|m orders IHo]; intros acc; [reflexivity|].
  simpl. rewrite IHo. f_equal.
Qed.

Lemma rows_of_degree (n : nat) :
  map (AcnSequence (Z.of_nat n)) (orders_of (Z.of_nat n)) =
  map Z.of_nat (seq (n * n) (2 * n + 1)).
Proof.
  unfold orders_of.
  replace (Z.to_nat (2 * Z.of_nat n + 1)) with (2 * n + 1)%nat by lia.
  assert (Hseq : seq (n * n) (2 * n + 1) = map (Nat.add (n * n)) (seq 0 (2 * n + 1))).
  { pose proof (fmap_add_seq (n * n) 0 (2 * n + 1)) as Hs.
    rewrite Nat.add_0_r in Hs. symmetry. exact Hs. }
  rewrite Hseq, !map_map. apply map_ext. intros k.
  unfold AcnSequence. lia.
Qed.

Lemma degrees_upto_S (N : nat) :
  degrees_upto (S N) = degrees_upto N ++ [Z.of_nat (S N)].
Proof. unfold degrees_upto. rewrite seq_S, map_app. reflexivity. Qed.

Lemma sh_writes_app (azimuth_rad : float) (alp : list float) (d1 d2 : list Z) :
  sh_writes azimuth_rad alp (d1 ++ d2) =
  sh_writes azimuth_rad alp d1 ++ sh_writes azimuth_rad alp d2.
Proof. unfold sh_writes. apply flat_map_app. Qed.

Lemma rows_of_writes (azimuth_rad : float) (alp : list float) (N : nat) :
  map fst (sh_writes azimuth_rad alp (degrees_upto N)) =
  map Z.of_nat (seq 0 ((N + 1) * (N + 1))).
Proof.
  induction N as [|N IH]; [reflexivity|].
  rewrite degrees_upto_S, sh_writes_app, map_app, IH.
  assert (Hlast : map fst (sh_writes azimuth_rad alp [Z.of_nat (S N)]) =
                  map Z.of_nat (seq (S N * S N) (2 * S N + 1))).
  { rewrite <- rows_of_degree. unfold sh_writes.
    cbn [flat_map]. rewrite app_nil_r, map_map. apply map_ext. reflexivity. }
  rewrite Hlast, <- map_app. f_equal.
  replace ((S N + 1) * (S N + 1))%nat
    with ((N + 1) * (N + 1) + (2 * S N + 1))%nat by lia.
  rewrite (seq_app ((N + 1) * (N + 1)) (2 * S N + 1) 0). f_equal. f_equal. lia.
Qed.

Lemma values_of_writes (a e : float) (N : nat) :
  map snd (sh_writes (F32.mul a kRadiansFromDegrees)
             (alp_Generate N (std_sin (F32.mul e kRadiansFromDegrees)))
             (degrees_upto N)) =
  EncoderSpec.sh_coefficients N a e.
Proof.
  unfold sh_writes, EncoderSpec.sh_coefficients.
  induction (degrees_upto N) as [|l degrees IH]; [reflexivity|].
  simpl. rewrite map_app, IH, map_map. reflexivity.
Qed.

Lemma fill_rows :
  forall (rvs : list (Z * float)) (filled rest : list float),
    length rest = length rvs ->
    map fst rvs = map Z.of_nat (seq (length filled) (length rvs)) ->
    foldl put_row (Some (filled ++ rest)) rvs = Some (filled ++ map snd rvs).
Proof.
  induction rvs as [|[r v] rvs IH]; intros filled rest Hlen Hrows.
  - destruct rest; [reflexivity|discriminate].
  - destruct rest as [|x rest]; [discriminate|].
    simpl in Hlen, Hrows. injection Hrows as Hr Hrows.
    simpl. subst r.
    replace (Z.of_nat (length filled) =? -1) with false by (symmetry; apply Z.eqb_neq; lia).
    unfold vector_at_put. rewrite length_app. simpl length.
    replace ((0 <=? Z.of_nat (length filled)) &&
             (Z.of_nat (length filled) <? Z.of_nat (length filled + S (length rest))))
      with true
      by (symmetry; apply andb_true_intro; split;
          [apply Z.leb_le|apply Z.ltb_lt]; lia).
    rewrite Nat2Z.id.
    rewrite insert_app_r_alt by lia. rewrite Nat.sub_diag. cbn [insert list_insert].
    replace (filled ++ v :: rest) with ((filled ++ [v]) ++ rest)
      by (rewrite <- app_assoc; reflexivity).
    rewrite IH.
    + rewrite <- app_assoc. reflexivity.
    + lia.
    + rewrite length_app. simpl length.
      replace (length filled + 1)%nat with (S (length filled)) by lia.
      exact Hrows.
Qed.

(** [GetShCoeffs] on a zero vector of [(N+1)^2] entries never throws and
    returns the coefficients in ACN order. *)
Lemma GetShCoeffs_spec (a e : float) (N : nat) :
  GetShCoeffs a e N N (zero_column ((N + 1) * (N + 1))) =
  Some (EncoderSpec.sh_coefficients N a e).
Proof.
  unfold GetShCoeffs. rewrite GetShCoeffs_loops.
  pose proof (rows_of_writes (F32.mul a kRadiansFromDegrees)
                (alp_Generate N (std_sin (F32.mul e kRadiansFromDegrees))) N) as Hrows.
  assert (Hlen : length (sh_writes (F32.mul a kRadiansFromDegrees)
                   (alp_Generate N (std_sin (F32.mul e kRadiansFromDegrees)))
                   (degrees_upto N)) = ((N + 1) * (N + 1))%nat).
  { rewrite <- (length_map fst), Hrows, length_map, length_seq. reflexivity. }
  rewrite (fill_rows _ [] (zero_column ((N + 1) * (N + 1)))).
  - rewrite values_of_writes. reflexivity.
  - unfold zero_column. rewrite length_replicate, Hlen. reflexivity.
  - rewrite Hlen. exact Hrows.
Qed.

End EncoderFacts.

Section EncoderInvariant.
Context {libm : Libm} {tables : ShTables}.
Import Encoder.

Lemma AmbisonicEncoder_new_inv (nin N : nat) (enc : AmbisonicEncoder) :
  AmbisonicEncoder_new nin N = Some enc -> enc_inv enc.
Proof.
  unfold AmbisonicEncoder_new.
  destruct (nin =? 0)%nat eqn:Hnin; [discriminate|].
  destruct (N =? 0)%nat; [discriminate|].
  intros [= <-]. apply Nat.eqb_neq in Hnin.
  unfold enc_inv. simpl. repeat split; [exact Hnin|apply length_replicate|].
  intros c Hc. rewrite lookup_empty. apply lookup_replicate_2. exact Hc.
Qed.

Lemma source_column_zero (N rows : nat) :
  EncoderSpec.source_column N rows (mkSource F32.zero F32.zero F32.zero F32.zero) =
  zero_column rows.
Proof. reflexivity. Qed.

(** What [SetSource] writes when it does not return early. *)
Lemma computed_column (enc : AmbisonicEncoder) (g a e d : float) :
  number_of_output_channels_ enc =
    ((ambisonic_order_ enc + 1) * (ambisonic_order_ enc + 1))%nat ->
  (if F32.ltb (F32.div g (std_max d kHalf)) kNegative120dbInAmplitude
   then Some (zero_column (number_of_output_channels_ enc))
   else
     match GetShCoeffs a e (ambisonic_order_ enc) (ambisonic_order_ enc)
             (zero_column (number_of_output_channels_ enc)) with
     | None => None
     | Some sh_coeffs =>
         Some (map (fun c => F32.mul c (F32.div g (std_max d kHalf))) sh_coeffs)
     end) =
  Some (EncoderSpec.source_column (ambisonic_order_ enc)
          (number_of_output_channels_ enc) (mkSource g a e d)).
Proof.
  intros Hrows. unfold EncoderSpec.source_column, EncoderSpec.overall_gain. simpl.
  destruct (F32.ltb _ _); [reflexivity|].
  rewrite Hrows, GetShCoeffs_spec. reflexivity.
Qed.

Lemma enc_inv_update (enc : AmbisonicEncoder) (srcs : gmap nat Source)
    (c : nat) (s : Source) :
  enc_inv enc ->
  (c < number_of_input_channels_ enc)%nat ->
  (forall c', c' <> c -> srcs !! c' = sources_ enc !! c') ->
  srcs !! c = Some s ->
  enc_inv (set_sources_matrix enc srcs
             (<[c := EncoderSpec.source_column (ambisonic_order_ enc)
                       (number_of_output_channels_ enc) s]>
                (encoding_matrix_ enc))).
Proof.
  intros (Hnin & Hrows & Hlen & Hcols) Hc Hother Hs.
  unfold enc_inv. simpl. repeat split; [exact Hnin|exact Hrows| |].
  - rewrite length_insert. exact Hlen.
  - intros c' Hc'. destruct (Nat.eq_dec c' c) as [->|Hne].
    + rewrite list_lookup_insert_eq by lia. rewrite Hs. reflexivity.
    + rewrite list_lookup_insert_ne by congruence.
      rewrite Hother by exact Hne. apply Hcols. exact Hc'.
Qed.

Lemma RemoveSource_inv (enc : AmbisonicEncoder) (c : nat) :
  enc_inv enc -> enc_inv (RemoveSource enc c).
Proof.
  intros (Hnin & Hrows & Hlen & Hcols).
  unfold enc_inv, RemoveSource. simpl.
  split; [exact Hnin|]. split; [exact Hrows|]. split.
  - rewrite length_insert. exact Hlen.
  - intros c' Hc'. destruct (Nat.eq_dec c' c) as [->|Hne].
    + rewrite list_lookup_insert_eq by lia. rewrite lookup_delete_eq. reflexivity.
    + rewrite list_lookup_insert_ne by congruence.
      rewrite lookup_delete_ne by congruence. apply Hcols. exact Hc'.
Qed.

End EncoderInvariant.

Section EncoderClaims.
Context {libm : Libm} {tables : ShTables}.
Import Encoder.

Ltac enc_fields :=
  unfold set_sources_matrix;
  cbn [number_of_input_channels_ number_of_output_channels_ ambisonic_order_
       sources_ encoding_matrix_].

(** [operator==] on [float] decides [compares_equal]. *)
Lemma F32_eqb_compares_equal (x y : float) :
  F32.eqb x y = true <-> EncoderSpec.compares_equal x y.
Proof.
  unfold F32.eqb, SFeqb, EncoderSpec.compares_equal. split.
  - destruct x as [sx|sx| |sx mx ex], y as [sy|sy| |sy my ey]; cbn;
      try discriminate; try (destruct sx; discriminate);
      try (destruct sy; discriminate).
    + intros _. repeat split; try discriminate. right. eauto.
    + destruct sx, sy; try discriminate; intros _;
        repeat split; try discriminate; left; reflexivity.
    + change (Pos.compare_cont Eq mx my) with (Pos.compare mx my).
      destruct sx, sy; try discriminate;
        destruct (Z.compare_spec ex ey) as [->| |]; try discriminate;
        destruct (Pos.compare_spec mx my) as [->| |]; try discriminate;
        intros _; repeat split; try discriminate; left; reflexivity.
  - intros (Hx & Hy & [<-|(sx & sy & -> & ->)]); [|reflexivity].
    destruct x as [sx|sx| |sx mx ex]; cbn; try reflexivity; try contradiction.
    + destruct sx; reflexivity.
    + rewrite Z.compare_refl, Pos.compare_cont_refl. destruct sx; reflexivity.
Qed.

Lemma source_eqb_repeats (s : Source) (g a e d : float) :
  source_eqb s g a e d = true <-> EncoderSpec.repeats s g a e d.
Proof.
  unfold source_eqb, EncoderSpec.repeats.
  rewrite !andb_true_iff, !F32_eqb_compares_equal. tauto.
Qed.

(** A source of gain zero is muted whatever its distance. *)
Lemma zero_gain_muted (sg : bool) (d : float) :
  d <> S754_nan ->
  F32.ltb (F32.div (S754_zero sg) (std_max d kHalf)) kNegative120dbInAmplitude = true.
Proof.
  intros Hd. unfold std_max.
  destruct (SFltb d kHalf) eqn:Hlt; [destruct sg; vm_compute; reflexivity|].
  destruct d as [sd|sd| |sd md ed]; try contradiction.
  - destruct sd; vm_compute in Hlt; discriminate Hlt.
  - destruct sg, sd; try (vm_compute in Hlt; discriminate Hlt);
      vm_compute; reflexivity.
  - change (F32.div (S754_zero sg) (S754_finite sd md ed))
      with (S754_zero (xorb sg sd)).
    destruct (xorb sg sd); vm_compute; reflexivity.
Qed.

(** The column of a source depends on its gain and distance as values:
    the sign of a zero gain or of a zero distance does not show. *)
Lemma source_column_compares_equal (N rows : nat) (s : Source) (g d : float) :
  EncoderSpec.compares_equal (gain s) g ->
  EncoderSpec.compares_equal (distance s) d ->
  EncoderSpec.source_column N rows s =
  EncoderSpec.source_column N rows (mkSource g (azimuth s) (elevation s) d).
Proof.
  intros (Hg1 & Hg2 & Hg) (Hd1 & Hd2 & Hd).
  unfold EncoderSpec.source_column, EncoderSpec.overall_gain.
  cbn [gain azimuth elevation distance].
  assert (Hmax : std_max (distance s) kHalf = std_max d kHalf).
  { destruct Hd as [->|(sx & sy & -> & ->)]; [reflexivity|].
    destruct sx, sy; reflexivity. }
  rewrite Hmax.
  destruct Hg as [->|(sx & sy & -> & ->)]; [reflexivity|].
  rewrite !zero_gain_muted by exact Hd2. reflexivity.
Qed.

(** C3, amended.  On an encoder in its representation invariant,
    [SetSource] for an input channel [c] succeeds, keeps the invariant, and
    leaves column [c] of the encoding matrix as the column of the given
    gain and distance and of angles [(a', e')]: with
    [g = gain / max(distance, 0.5)], zero if [g < 10^-6] and otherwise [g]
    times the SN3D real spherical-harmonic coefficients of [(a', e')] in
    ACN order.  The angles are the given ones, unless the given tuple
    repeats under [==] the one cached for [c] (all zeros when none is
    cached): then nothing is computed, the matrix stays as it is, and the
    angles are the cached ones, which differ from the given ones at most by
    the sign of a zero. *)
Theorem SetSource_column (enc : AmbisonicEncoder) (c : nat) (g a e d : float) :
  enc_inv enc ->
  (c < number_of_input_channels_ enc)%nat ->
  let cached :=
    default (mkSource F32.zero F32.zero F32.zero F32.zero) (sources_ enc !! c) in
  exists (enc' : AmbisonicEncoder) (a' e' : float),
    SetSource enc c g a e d = Some enc' /\
    enc_inv enc' /\
    encoding_matrix_ enc' !! c =
      Some (EncoderSpec.source_column (ambisonic_order_ enc)
              (number_of_output_channels_ enc) (mkSource g a' e' d)) /\
    (a' = a \/ exists sa sa' : bool, a = S754_zero sa /\ a' = S754_zero sa') /\
    (e' = e \/ exists se se' : bool, e = S754_zero se /\ e' = S754_zero se') /\
    (~ EncoderSpec.repeats cached g a e d ->
     a' = a /\ e' = e /\ sources_ enc' !! c = Some (mkSource g a e d)) /\
    (EncoderSpec.repeats cached g a e d ->
     a' = azimuth cached /\ e' = elevation cached /\
     sources_ enc' !! c = Some cached /\
     encoding_matrix_ enc' = encoding_matrix_ enc).
Proof.
  intros Hinv Hc cached. pose proof Hinv as (Hnin & Hrows & Hlen & Hcols).
  unfold SetSource.
  destruct (number_of_input_channels_ enc =? 0)%nat eqn:E1;
    [apply Nat.eqb_eq in E1; contradiction|].
  destruct (number_of_output_channels_ enc =? 0)%nat eqn:E2;
    [apply Nat.eqb_eq in E2; lia|].
  destruct (c <? number_of_input_channels_ enc)%nat eqn:E3;
    [|apply Nat.ltb_ge in E3; lia].
  simpl negb. cbv iota.
  set (srcs := match sources_ enc !! c with
               | None => <[c := mkSource F32.zero F32.zero F32.zero F32.zero]>
                           (sources_ enc)
               | Some _ => sources_ enc
               end).
  assert (Hother : forall c', c' <> c -> srcs !! c' = sources_ enc !! c').
  { intros c' Hne. subst srcs. destruct (sources_ enc !! c); [reflexivity|].
    apply lookup_insert_ne. congruence. }
  assert (Hcached : srcs !! c = Some cached /\
            encoding_matrix_ enc !! c =
            Some (EncoderSpec.source_column (ambisonic_order_ enc)
                    (number_of_output_channels_ enc) cached)).
  { specialize (Hcols c Hc). subst srcs cached.
    destruct (sources_ enc !! c) as [s0|] eqn:Hs; cbn [default].
    - split; [exact Hs|exact Hcols].
    - split; [apply lookup_insert_eq|].
      rewrite source_column_zero. exact Hcols. }
  destruct Hcached as (Hs0 & Hcol0). rewrite Hs0.
  destruct (source_eqb cached g a e d) eqn:Heq.
  - apply source_eqb_repeats in Heq. pose proof Heq as (Hg & Ha & He & Hd).
    exists (set_sources_matrix enc srcs (encoding_matrix_ enc)),
      (azimuth cached), (elevation cached).
    split; [reflexivity|]. split.
    { rewrite <- (list_insert_id _ _ _ Hcol0).
      apply enc_inv_update; assumption. }
    split.
    { enc_fields. rewrite Hcol0.
      rewrite (source_column_compares_equal _ _ cached g d Hg Hd). reflexivity. }
    split.
    { destruct Ha as (_ & _ & [Ha|(sx & sy & Hx & Hy)]); [left; exact Ha|].
      right. exists sy, sx. split; assumption. }
    split.
    { destruct He as (_ & _ & [He|(sx & sy & Hx & Hy)]); [left; exact He|].
      right. exists sy, sx. split; assumption. }
    split; [intros Hnot; contradiction|].
    intros _. repeat split. exact Hs0.
  - assert (Hnot : ~ EncoderSpec.repeats cached g a e d).
    { intros Hrep. apply source_eqb_repeats in Hrep. congruence. }
    pose proof (computed_column enc g a e d Hrows) as Hcol.
    assert (Hinv' : enc_inv
              (set_sources_matrix enc (<[c := mkSource g a e d]> srcs)
                 (<[c := EncoderSpec.source_column (ambisonic_order_ enc)
                           (number_of_output_channels_ enc) (mkSource g a e d)]>
                    (encoding_matrix_ enc)))).
    { apply enc_inv_update; [exact Hinv|exact Hc| |apply lookup_insert_eq].
      intros c' Hne. rewrite lookup_insert_ne by congruence. apply Hother, Hne. }
    cbv zeta.
    destruct (F32.ltb (F32.div g (std_max d kHalf)) kNegative120dbInAmplitude).
    + injection Hcol as Hcol. rewrite Hcol.
      eexists _, a, e. split; [reflexivity|].
      split; [exact Hinv'|]. enc_fields.
      split; [apply list_lookup_insert_eq; lia|].
      split; [left; reflexivity|]. split; [left; reflexivity|].
      split; [|intros Hrep; contradiction].
      intros _. repeat split. apply lookup_insert_eq.
    + destruct (GetShCoeffs a e (ambisonic_order_ enc) (ambisonic_order_ enc)
                  (zero_column (number_of_output_channels_ enc)))
        as [sh|]; [|discriminate].
      injection Hcol as Hcol. rewrite Hcol.
      eexists _, a, e. split; [reflexivity|].
      split; [exact Hinv'|]. enc_fields.
      split; [apply list_lookup_insert_eq; lia|].
      split; [left; reflexivity|]. split; [left; reflexivity|].
      split; [|intros Hrep; contradiction].
      intros _. repeat split. apply lookup_insert_eq.
Qed.

(** C7.  [SetSource] is idempotent: repeating a call with the identical
    tuple leaves the encoding matrix and all other encoder state as the
    first call left them, hence also the output of
    [ProcessPlanarAudioData]. *)
Theorem SetSource_idempotent (enc enc1 : AmbisonicEncoder) (c : nat)
    (g a e d : float) :
  SetSource enc c g a e d = Some enc1 ->
  SetSource enc1 c g a e d = Some enc1 /\
  forall (enc2 : AmbisonicEncoder) (input output : AudioBuffer),
    SetSource enc1 c g a e d = Some enc2 ->
    ProcessPlanarAudioData enc2 input output =
    ProcessPlanarAudioData enc1 input output.
Proof.
  intros Hfirst.
  assert (Hsecond : SetSource enc1 c g a e d = Some enc1).
  { revert Hfirst. unfold SetSource.
    destruct (number_of_input_channels_ enc =? 0)%nat eqn:E1; [discriminate|].
    destruct (number_of_output_channels_ enc =? 0)%nat eqn:E2; [discriminate|].
    destruct (negb (c <? number_of_input_channels_ enc)%nat) eqn:E3; [discriminate|].
    set (srcs := match sources_ enc !! c with
                 | None => <[c := mkSource F32.zero F32.zero F32.zero F32.zero]>
                             (sources_ enc)
                 | Some _ => sources_ enc
                 end).
    destruct (srcs !! c) as [s0|] eqn:Hs0; [|discriminate].
    destruct (source_eqb s0 g a e d) eqn:Heq.
    - intros [= <-]. enc_fields. rewrite E1, E2, E3, Hs0, Hs0, Heq. reflexivity.
    - cbv zeta.
      destruct (F32.ltb (F32.div g (std_max d kHalf)) kNegative120dbInAmplitude)
        eqn:Hlt.
      + intros [= <-]. enc_fields. rewrite E1, E2, E3.
        repeat (rewrite lookup_insert_eq; cbv beta iota zeta).
        destruct (source_eqb (mkSource g a e d) g a e d); [reflexivity|].
        rewrite insert_insert_eq, list_insert_insert_eq. reflexivity.
      + destruct (GetShCoeffs a e (ambisonic_order_ enc) (ambisonic_order_ enc)
                    (zero_column (number_of_output_channels_ enc)))
          as [sh|] eqn:Hsh; [|discriminate].
        intros [= <-]. enc_fields. rewrite E1, E2, E3.
        repeat (rewrite lookup_insert_eq; cbv beta iota zeta). rewrite Hsh.
        destruct (source_eqb (mkSource g a e d) g a e d); [reflexivity|].
        rewrite insert_insert_eq, list_insert_insert_eq. reflexivity. }
  split; [exact Hsecond|].
  intros enc2 input output Henc2. rewrite Hsecond in Henc2.
  injection Henc2 as <-. reflexivity.
Qed.

End EncoderClaims.

(** ** The renderer *)

Section RendererFacts.
Context {libm : Libm} {tables : ShTables} {dsp : Dsp}.
Import Obr.

(** Case analysis on every match that a hypothesis is stuck on. *)
Ltac break_hyps :=
  unfold mbind, outcome_bind, check in *;
  repeat (match goal with
          | Hyp : context [match ?x with _ => _ end] |- _ => destruct x eqn:?
          | Hyp : context [if ?b then _ else _] |- _ => destruct b eqn:?
          end; try discriminate).

Lemma EncodeStage_fields (s s' : ObrImpl) (input : AudioBuffer) :
  EncodeStage s input = Returns s' ->
  audio_elements_ s' = audio_elements_ s /\
  world_rotation_ s' = world_rotation_ s /\
  head_tracking_enabled_ s' = head_tracking_enabled_ s /\
  ambisonic_rotator_ s' = ambisonic_rotator_ s.
Proof.
  unfold EncodeStage. intros Hstage. break_hyps;
    simplify_eq; repeat split; reflexivity.
Qed.

Lemma RotateStage_elements (s s' : ObrImpl) :
  RotateStage s = Returns s' -> audio_elements_ s' = audio_elements_ s.
Proof.
  unfold RotateStage. intros Hstage. break_hyps; simplify_eq; reflexivity.
Qed.

Lemma DecodeLimitStage_elements (s s' : ObrImpl) (output output' : AudioBuffer) :
  DecodeLimitStage s output = Returns (s', output') ->
  audio_elements_ s' = audio_elements_ s.
Proof.
  unfold DecodeLimitStage. intros Hstage. break_hyps; simplify_eq; reflexivity.
Qed.

Lemma Process_elements (s s' : ObrImpl) (input output output' : AudioBuffer) :
  Process s input output = Returns (s', output') ->
  audio_elements_ s' = audio_elements_ s.
Proof.
  unfold Process. intros Hp. unfold mbind, outcome_bind in Hp.
  destruct (check _); [|discriminate]. destruct (check _); [|discriminate].
  destruct (check _); [|discriminate]. destruct (check _); [|discriminate].
  destruct (EncodeStage s input) as [s1|] eqn:H1; [|discriminate].
  destruct (RotateStage s1) as [s2|] eqn:H2; [|discriminate].
  apply DecodeLimitStage_elements in Hp. apply RotateStage_elements in H2.
  apply EncodeStage_fields in H1 as [H1 _]. congruence.
Qed.

Lemma AudioElementConfig_new_total (type : AudioElementType) :
  exists cfg, Element.AudioElementConfig_new type = Returns cfg.
Proof. destruct type; vm_compute; eexists; reflexivity. Qed.

Lemma AudioElementConfig_new_fields (type : AudioElementType)
    (cfg : Element.AudioElementConfig) :
  Element.AudioElementConfig_new type = Returns cfg ->
  Element.type_ cfg = type /\
  Element.first_channel_index_ cfg = 0%nat /\
  (type <> kInvalidType -> (0 < Element.number_of_input_channels_ cfg)%nat) /\
  (type = kInvalidType -> Element.binaural_filters_ambisonic_order_ cfg = 0%nat) /\
  (IsAmbisonicsType type = true ->
   Element.number_of_input_channels_ cfg =
   ((Element.binaural_filters_ambisonic_order_ cfg + 1) *
    (Element.binaural_filters_ambisonic_order_ cfg + 1))%nat).
Proof.
  destruct type; intros Hnew; vm_compute in Hnew; injection Hnew as <-;
    cbn [Element.type_ Element.first_channel_index_
         Element.number_of_input_channels_
         Element.binaural_filters_ambisonic_order_];
    repeat split; intros; try congruence; try discriminate; try lia;
    reflexivity.
Qed.

Lemma total_channels_app (s : ObrImpl) (l : list Element.AudioElementConfig)
    (cfg : Element.AudioElementConfig) :
  GetNumberOfInputChannels (set_audio_elements s (l ++ [cfg])) =
  (GetNumberOfInputChannels (set_audio_elements s l) +
   Element.number_of_input_channels_ cfg)%nat.
Proof. unfold GetNumberOfInputChannels. simpl. rewrite foldl_app. reflexivity. Qed.

Lemma total_channels_positive (l : list Element.AudioElementConfig) :
  l <> [] ->
  Forall (fun e => Element.type_ e <> kInvalidType /\
                   (0 < Element.number_of_input_channels_ e)%nat) l ->
  forall a : nat,
    (0 < foldl (fun n e => (n + Element.number_of_input_channels_ e)%nat) a l)%nat.
Proof.
  intros Hne Hall.
  assert (Hmono : forall (k : list Element.AudioElementConfig) (a : nat),
             (a <= foldl (fun n e => (n + Element.number_of_input_channels_ e)%nat) a k)%nat).
  { induction k as [|e k IH]; intros a; simpl; [lia|].
    specialize (IH (a + Element.number_of_input_channels_ e)%nat). lia. }
  destruct Hall as [|e k [_ He] _]; [congruence|]. intros a. simpl.
  specialize (Hmono k (a + Element.number_of_input_channels_ e)%nat). lia.
Qed.

Lemma UpdateAmbisonicEncoder_returns (s s' : ObrImpl) (st : Status) :
  UpdateAmbisonicEncoder s = Returns (st, s') ->
  audio_elements_ s' = audio_elements_ s /\
  (status_ok st = false -> s' = s /\ ambisonic_encoder_ s = None).
Proof.
  unfold UpdateAmbisonicEncoder. intros Hu. break_hyps; simplify_eq.
  - split; [reflexivity|]. discriminate.
  - split; [reflexivity|]. intros _. split; reflexivity.
Qed.

(** [InitializeDsp] keeps the element list; when it returns it has passed
    the [CHECK]s on the order of the first element, and it reports an
    error only for an empty list or a list without input channels. *)
Lemma InitializeDsp_returns (s s' : ObrImpl) (st : Status) :
  InitializeDsp s = Returns (st, s') ->
  audio_elements_ s' = audio_elements_ s /\
  (forall first rest, audio_elements_ s = first :: rest ->
     Element.binaural_filters_ambisonic_order_ first <> 0%nat) /\
  (status_ok st = false ->
   s' = s /\ (audio_elements_ s = [] \/ GetNumberOfInputChannels s = 0%nat)).
Proof.
  unfold InitializeDsp. intros Hi.
  destruct (audio_elements_ s) as [|first rest] eqn:Hel.
  - injection Hi as <- <-.
    split; [congruence|]. split; [discriminate|]. intros _. split; [reflexivity|left; reflexivity].
  - unfold mbind, outcome_bind, check in Hi.
    destruct (negb (Element.binaural_filters_ambisonic_order_ first =? 0)%nat)
      eqn:Horder; [|discriminate].
    destruct (kMinSupportedAmbisonicOrder <=?
              Element.binaural_filters_ambisonic_order_ first)%nat;
      [|discriminate].
    destruct (Element.binaural_filters_ambisonic_order_ first <=?
              kMaxSupportedAmbisonicOrder)%nat; [|discriminate].
    assert (Hfirst : forall first0 rest0,
               first :: rest = first0 :: rest0 ->
               Element.binaural_filters_ambisonic_order_ first0 <> 0%nat).
    { intros ? ? [= <- <-]. apply negb_true_iff, Nat.eqb_neq in Horder. exact Horder. }
    destruct (GetNumberOfInputChannels s =? 0)%nat eqn:Htotal.
    + injection Hi as <- <-. apply Nat.eqb_eq in Htotal.
      split; [congruence|]. split; [exact Hfirst|]. intros _. split; [reflexivity|right; exact Htotal].
    + cbn [ResetDsp status_ok OkStatus code negb] in Hi.
      match type of Hi with
      | context [match ?indices with [] => _ | _ :: _ => _ end] =>
          destruct indices as [|i0 indices'] eqn:Hind
      end.
      * cbn [status_ok OkStatus code negb] in Hi.
        break_hyps; simplify_eq.
        split; [exact Hel|]. split; [exact Hfirst|discriminate].
      * break_hyps; simplify_eq;
          match goal with
          | Hu : UpdateAmbisonicEncoder _ = Returns _ |- _ =>
              apply UpdateAmbisonicEncoder_returns in Hu as [Hu1 Hu2]
          end;
          first
            [ solve [split; [cbn in *; congruence|];
                     split; [exact Hfirst|discriminate]]
            | exfalso;
              match goal with
              | Hn : negb (status_ok _) = true |- _ =>
                  apply negb_true_iff in Hn;
                  destruct (Hu2 Hn) as [_ Hnone]; discriminate Hnone
              end ].
Qed.

(** The three ways [AddAudioElement] returns: the two errors, which leave
    the state alone, and success, with the element appended. *)
Lemma AddAudioElement_cases (s s' : ObrImpl) (type : AudioElementType)
    (st : Status) :
  elements_ok s ->
  AddAudioElement s type = Returns (st, s') ->
  (s' = s /\
   st = FailedPreconditionError "Only same-typed audio elements are supported." /\
   exists back, last (audio_elements_ s) = Some back /\ Element.type_ back <> type) \/
  (s' = s /\
   st = ResourceExhaustedError "More input channels requested than supported." /\
   (forall back, last (audio_elements_ s) = Some back -> Element.type_ back = type) /\
   exists cfg, Element.AudioElementConfig_new type = Returns cfg /\
     (kMaxSupportedNumInputChannels <
      GetNumberOfInputChannels s + Element.number_of_input_channels_ cfg)%nat) \/
  (status_ok st = true /\
   (forall back, last (audio_elements_ s) = Some back -> Element.type_ back = type) /\
   exists cfg cfg',
     Element.AudioElementConfig_new type = Returns cfg /\
     (GetNumberOfInputChannels s + Element.number_of_input_channels_ cfg <=
      kMaxSupportedNumInputChannels)%nat /\
     audio_elements_ s' = audio_elements_ s ++ [cfg'] /\
     Element.type_ cfg' = type /\ type <> kInvalidType /\
     Element.number_of_input_channels_ cfg' = Element.number_of_input_channels_ cfg /\
     (0 < Element.number_of_input_channels_ cfg')%nat).
Proof.
  intros Hok Hadd. unfold AddAudioElement in Hadd.
  destruct (AudioElementConfig_new_total type) as [cfg Hcfg].
  destruct (AudioElementConfig_new_fields type cfg Hcfg)
    as (Htype & Hfirst & Hpos & Hinv & _).
  rewrite Hcfg in Hadd. unfold mbind, outcome_bind in Hadd.
  destruct (last (audio_elements_ s)) as [back|] eqn:Hlast.
  - destruct (decide (Element.type_ back = type)) as [Hsame|Hdiff].
    + destruct (kMaxSupportedNumInputChannels <? _)%nat eqn:Hbudget.
      * injection Hadd as <- <-. apply Nat.ltb_lt in Hbudget.
        right. left. split; [reflexivity|]. split; [reflexivity|].
        split; [intros ? [= <-]; exact Hsame|]. exists cfg. split; [exact Hcfg|].
        exact Hbudget.
      * apply Nat.ltb_ge in Hbudget.
        apply last_Some in Hlast as [l' Hl'].
        assert (Hback : Element.type_ back <> kInvalidType).
        { unfold elements_ok in Hok. rewrite Hl' in Hok.
          apply Forall_app in Hok as [_ Hb]. inversion Hb as [|? ? [Hb1 _] _]. exact Hb1. }
        apply InitializeDsp_returns in Hadd as (Hel & _ & Herr).
        cbn [audio_elements_ set_audio_elements] in Hel.
        destruct (status_ok st) eqn:Hst.
        -- right. right. split; [reflexivity|].
           split; [intros ? [= <-]; exact Hsame|].
           eexists cfg, _. split; [exact Hcfg|]. split; [exact Hbudget|].
           split; [exact Hel|]. cbn.
           split; [exact Htype|]. split; [congruence|].
           split; [reflexivity|]. apply Hpos. congruence.
        -- exfalso. destruct (Herr eq_refl) as [_ [Hnil|Hzero]].
           ++ cbn in Hnil. destruct (audio_elements_ s); discriminate Hnil.
           ++ rewrite total_channels_app in Hzero.
              assert (0 < GetNumberOfInputChannels
                            (set_audio_elements s (audio_elements_ s)))%nat.
              { unfold GetNumberOfInputChannels. cbn.
                apply total_channels_positive; [|exact Hok].
                rewrite Hl'. destruct l'; discriminate. }
              lia.
    + injection Hadd as <- <-. left. split; [reflexivity|]. split; [reflexivity|].
      exists back. split; [reflexivity|exact Hdiff].
  - apply last_None in Hlast.
    destruct (kMaxSupportedNumInputChannels <? _)%nat eqn:Hbudget.
    + injection Hadd as <- <-. apply Nat.ltb_lt in Hbudget.
      right. left. split; [reflexivity|]. split; [reflexivity|].
      split; [discriminate|]. exists cfg. split; [exact Hcfg|exact Hbudget].
    + apply Nat.ltb_ge in Hbudget.
      apply InitializeDsp_returns in Hadd as (Hel & Horder & Herr).
      cbn [audio_elements_ set_audio_elements] in Hel, Horder.
      rewrite Hlast in Hel, Horder. cbn in Hel.
      specialize (Horder cfg [] eq_refl).
      assert (Hvalid : type <> kInvalidType).
      { intros Hbad. apply Horder, Hinv, Hbad. }
      destruct (status_ok st) eqn:Hst.
      * right. right. split; [reflexivity|]. split; [discriminate|].
        exists cfg, cfg. split; [exact Hcfg|]. split; [exact Hbudget|].
        rewrite Hlast. split; [exact Hel|]. split; [exact Htype|].
        split; [exact Hvalid|]. split; [reflexivity|]. apply Hpos, Hvalid.
      * exfalso. destruct (Herr eq_refl) as [_ [Hnil|Hzero]].
        -- cbn in Hnil. rewrite Hlast in Hnil. discriminate Hnil.
        -- unfold GetNumberOfInputChannels in Hzero. cbn in Hzero.
           rewrite Hlast in Hzero. cbn in Hzero. specialize (Hpos Hvalid). lia.
Qed.

Lemma Forall_removelast {A : Type} (P : A -> Prop) (l : list A) :
  Forall P l -> Forall P (removelast l).
Proof.
  induction 1 as [|x l Hx Hl IH]; [constructor|].
  simpl. destruct l; [constructor|]. constructor; assumption.
Qed.

Lemma AddAudioElement_elements_ok (s s' : ObrImpl) (type : AudioElementType)
    (st : Status) :
  elements_ok s -> AddAudioElement s type = Returns (st, s') -> elements_ok s'.
Proof.
  intros Hok Hadd.
  destruct (AddAudioElement_cases s s' type st Hok Hadd)
    as [(-> & _)|[(-> & _)|(_ & _ & cfg & cfg' & _ & _ & Hel & Hty & Hvalid & _ & Hpos)]];
    try exact Hok.
  unfold elements_ok. rewrite Hel. apply Forall_app. split; [exact Hok|].
  constructor; [|constructor]. split; [congruence|exact Hpos].
Qed.

Lemma RemoveLastAudioElement_elements_ok (s s' : ObrImpl) (st : Status) :
  elements_ok s -> RemoveLastAudioElement s = Returns (st, s') -> elements_ok s'.
Proof.
  intros Hok Hrem. unfold RemoveLastAudioElement in Hrem.
  destruct (audio_elements_ s) as [|e0 l0] eqn:Hel.
  - injection Hrem as <- <-. exact Hok.
  - cbn [audio_elements_ set_audio_elements] in Hrem.
    assert (Hok' : Forall (fun e => Element.type_ e <> kInvalidType /\
                                    (0 < Element.number_of_input_channels_ e)%nat)
                     (removelast (e0 :: l0))).
    { apply Forall_removelast. unfold elements_ok in Hok. rewrite Hel in Hok. exact Hok. }
    destruct (removelast (e0 :: l0)) as [|e1 l1] eqn:Hrl.
    + injection Hrem as <- <-. unfold elements_ok. cbn. constructor.
    + unfold mbind, outcome_bind in Hrem.
      destruct (InitializeDsp _) as [[st1 s1]|] eqn:Hinit; [|discriminate].
      apply InitializeDsp_returns in Hinit as (Hel1 & _ & _).
      cbn [audio_elements_ set_audio_elements] in Hel1.
      destruct (negb (status_ok st1)).
      * injection Hrem as <- <-. unfold elements_ok. rewrite Hel1. exact Hok'.
      * destruct (UpdateAmbisonicEncoder s1) as [[st2 s2]|] eqn:Hupd; [|discriminate].
        apply UpdateAmbisonicEncoder_returns in Hupd as (Hel2 & _).
        assert (audio_elements_ s' = audio_elements_ s2)
          by (destruct (negb (status_ok st2)); injection Hrem as <- <-; reflexivity).
        unfold elements_ok. rewrite H, Hel2, Hel1. exact Hok'.
Qed.

Lemma UpdateObjectPosition_elements_ok (s s' : ObrImpl) (i : nat)
    (a e d : float) (st : Status) :
  elements_ok s -> UpdateObjectPosition s i a e d = Returns (st, s') ->
  elements_ok s'.
Proof.
  intros Hok Hupd. unfold UpdateObjectPosition in Hupd.
  destruct (audio_elements_ s !! i) as [cfg|] eqn:Hcfg;
    [|injection Hupd as <- <-; exact Hok].
  destruct (Element.object_channels_ cfg); [injection Hupd as <- <-; exact Hok|].
  unfold mbind, outcome_bind in Hupd.
  destruct (UpdateAmbisonicEncoder _) as [[st1 s1]|] eqn:Hu; [|discriminate].
  apply UpdateAmbisonicEncoder_returns in Hu as (Hel & _).
  cbn [audio_elements_ set_audio_elements] in Hel.
  assert (Hs' : audio_elements_ s' = audio_elements_ s1)
    by (destruct (negb (status_ok st1)); injection Hupd as <- <-; reflexivity).
  unfold elements_ok. rewrite Hs', Hel. apply Forall_insert; [exact Hok|].
  unfold elements_ok in Hok. rewrite Forall_lookup in Hok.
  exact (Hok i cfg Hcfg).
Qed.

Lemma reachable_elements_ok (s : ObrImpl) : reachable s -> elements_ok s.
Proof.
  induction 1 as [b rate s Hnew|s s' type st _ IH Hadd|s s' st _ IH Hrem
                 |s s' i a e d st _ IH Hupd|s enable _ IH|s w x y z _ IH
                 |s s' input output output' _ IH Hproc].
  - unfold ObrImpl_new, mbind, outcome_bind, check in Hnew.
    destruct (0 <? b)%nat; [|discriminate]. destruct (0 <? rate); [|discriminate].
    injection Hnew as <-. constructor.
  - eapply AddAudioElement_elements_ok; eassumption.
  - eapply RemoveLastAudioElement_elements_ok; eassumption.
  - eapply UpdateObjectPosition_elements_ok; eassumption.
  - exact IH.
  - exact IH.
  - unfold elements_ok. rewrite (Process_elements _ _ _ _ _ Hproc). exact IH.
Qed.

(** When [InitializeDsp] succeeds, both HRIR sets were loaded from the
    assets of the order of the first element. *)
Lemma InitializeDsp_ok_loads (s s' : ObrImpl) (st : Status)
    (first : Element.AudioElementConfig) (rest : list Element.AudioElementConfig) :
  InitializeDsp s = Returns (st, s') ->
  audio_elements_ s = first :: rest ->
  status_ok st = true ->
  exists hl hr,
    CreateShHrirsFromAssets
      (pretty (Element.binaural_filters_ambisonic_order_ first) +:+ "OA_L")
      (sampling_rate_ s) = Returns hl /\
    CreateShHrirsFromAssets
      (pretty (Element.binaural_filters_ambisonic_order_ first) +:+ "OA_R")
      (sampling_rate_ s) = Returns hr /\
    sh_hrirs_L_ s' = Some hl /\ sh_hrirs_R_ s' = Some hr /\
    ambisonic_mix_bed_ s' =
    AudioBuffer_new ((Element.binaural_filters_ambisonic_order_ first + 1) *
                     (Element.binaural_filters_ambisonic_order_ first + 1))
      (buffer_size_per_channel_ s).
Proof.
  unfold InitializeDsp. intros Hi Hel Hst. rewrite Hel in Hi.
  unfold mbind, outcome_bind, check in Hi.
  destruct (negb (Element.binaural_filters_ambisonic_order_ first =? 0)%nat);
    [|discriminate].
  destruct (kMinSupportedAmbisonicOrder <=? _)%nat; [|discriminate].
  destruct (_ <=? kMaxSupportedAmbisonicOrder)%nat; [|discriminate].
  destruct (GetNumberOfInputChannels s =? 0)%nat;
    [injection Hi as <- <-; discriminate Hst|].
  cbn [ResetDsp status_ok OkStatus code negb] in Hi.
  match type of Hi with
  | context [match ?indices with [] => _ | _ :: _ => _ end] =>
      destruct indices as [|i0 indices'] eqn:Hind
  end.
  - cbn [status_ok OkStatus code negb] in Hi.
    cbn [sampling_rate_ set_rotator set_mix_bed buffer_size_per_channel_] in Hi.
    destruct (CreateShHrirsFromAssets _ _) as [hl|] eqn:Hl; [|discriminate].
    destruct (CreateShHrirsFromAssets (_ +:+ "OA_R") _) as [hr|] eqn:Hr;
      [|discriminate].
    destruct (num_channels hl =? num_channels hr)%nat; [|discriminate].
    destruct (num_frames hl =? num_frames hr)%nat; [|discriminate].
    injection Hi as <- <-. exists hl, hr. repeat split; assumption || reflexivity.
  - destruct (Encoder.AmbisonicEncoder_new _ _) as [enc|]; [|discriminate].
    destruct (UpdateAmbisonicEncoder _) as [[st1 s1]|] eqn:Hu; [|discriminate].
    pose proof Hu as Hu'. unfold UpdateAmbisonicEncoder in Hu'.
    cbn [ambisonic_encoder_ set_encoder] in Hu'.
    unfold mbind, outcome_bind in Hu'.
    destruct (snd _) as [enc'|]; [|discriminate]. injection Hu' as <- <-.
    cbn [status_ok OkStatus code negb] in Hi.
    cbn [sampling_rate_ set_rotator set_mix_bed set_encoder set_encoder_input
         buffer_size_per_channel_] in Hi.
    destruct (CreateShHrirsFromAssets _ _) as [hl|] eqn:Hl; [|discriminate].
    destruct (CreateShHrirsFromAssets (_ +:+ "OA_R") _) as [hr|] eqn:Hr;
      [|discriminate].
    destruct (num_channels hl =? num_channels hr)%nat; [|discriminate].
    destruct (num_frames hl =? num_frames hr)%nat; [|discriminate].
    injection Hi as <- <-. exists hl, hr. repeat split; assumption || reflexivity.
Qed.

Lemma CreateShHrirsFromAssets_missing (filename : string) (rate : Z) :
  GetFile filename = None -> CreateShHrirsFromAssets filename rate = Aborts.
Proof. intros Hmissing. unfold CreateShHrirsFromAssets. rewrite Hmissing. reflexivity. Qed.

Lemma CreateShHrirsFromWav_unsupported (wav : Wav) (rate : Z) :
  wav_sample_rate wav <> rate ->
  AreSampleRatesSupported (wav_sample_rate wav) rate = false ->
  CreateShHrirsFromWav wav rate = Aborts.
Proof.
  intros Hne Hrates. unfold CreateShHrirsFromWav, mbind, outcome_bind, check.
  destruct (IsValidAmbisonicOrder _); [|reflexivity].
  destruct (0 <? wav_sample_rate wav); [|reflexivity].
  destruct (0 <? rate); [|reflexivity].
  apply Z.eqb_neq in Hne. rewrite Hne, Hrates. reflexivity.
Qed.

End RendererFacts.

Section RendererClaims.
Context {libm : Libm} {tables : ShTables} {dsp : Dsp}.
Import Obr.

(** C2.  Whenever [AddAudioElement] returns an error, the renderer is
    exactly as it was before the call: the audio-element list, the
    encoder, the rotator, the HRIR filter banks, the decoder, the limiter
    and the Ambisonic mix bed. *)
Theorem AddAudioElement_error_keeps_state (s s' : ObrImpl)
    (type : AudioElementType) (st : Status) :
  reachable s ->
  AddAudioElement s type = Returns (st, s') ->
  status_ok st = false ->
  s' = s.
Proof.
  intros Hreach Hadd Herr. apply reachable_elements_ok in Hreach.
  destruct (AddAudioElement_cases s s' type st Hreach Hadd)
    as [(-> & _)|[(-> & _)|(Hok & _)]]; try reflexivity.
  congruence.
Qed.

(** C8, amended.  A call of [AddAudioElement] that returns reports an
    error exactly when the new element's type differs from the type of
    the last configured element, or the new total number of input
    channels would exceed the maximum; in particular an Ambisonic element
    whose order differs from that of the configured ones is refused. *)
Theorem AddAudioElement_error_iff (s s' : ObrImpl) (type : AudioElementType)
    (st : Status) :
  reachable s ->
  AddAudioElement s type = Returns (st, s') ->
  (status_ok st = false <->
   (exists back, last (audio_elements_ s) = Some back /\ Element.type_ back <> type) \/
   (exists cfg, Element.AudioElementConfig_new type = Returns cfg /\
      (kMaxSupportedNumInputChannels <
       GetNumberOfInputChannels s + Element.number_of_input_channels_ cfg)%nat)) /\
  (forall back,
     last (audio_elements_ s) = Some back ->
     IsAmbisonicsType (Element.type_ back) = true ->
     IsAmbisonicsType type = true ->
     GetAmbisonicOrder (Element.type_ back) <> GetAmbisonicOrder type ->
     status_ok st = false).
Proof.
  intros Hreach Hadd. apply reachable_elements_ok in Hreach.
  destruct (AddAudioElement_cases s s' type st Hreach Hadd)
    as [(_ & -> & back & Hlast & Hdiff)
       |[(_ & -> & Hsame & cfg & Hcfg & Hbudget)
        |(Hok & Hsame & cfg & cfg' & Hcfg & Hbudget & _)]].
  - split.
    + split; [intros _; left; exists back; split; assumption|reflexivity].
    + reflexivity.
  - split.
    + split; [intros _; right; exists cfg; split; assumption|reflexivity].
    + reflexivity.
  - split.
    + split; [congruence|].
      intros [(back & Hlast & Hdiff)|(cfg0 & Hcfg0 & Hbudget0)].
      * exfalso. apply Hdiff, Hsame, Hlast.
      * exfalso. rewrite Hcfg in Hcfg0. injection Hcfg0 as <-. lia.
    + intros back Hlast _ _ Horders. exfalso. apply Horders.
      rewrite (Hsame back Hlast). reflexivity.
Qed.

(** C10.  [SetHeadRotation] returns an OK status for every argument
    tuple and only replaces the stored world rotation by the given
    components, unvalidated and unnormalized; the rotate stage of the
    next [Process] hands exactly these components to the rotator. *)
Theorem SetHeadRotation_stores (s : ObrImpl) (w x y z : float) :
  let s' := snd (SetHeadRotation s w x y z) in
  status_ok (fst (SetHeadRotation s w x y z)) = true /\
  s' = set_world_rotation s (mkWorldRotation w x y z) /\
  world_rotation_ s' = mkWorldRotation w x y z /\
  (forall (input : AudioBuffer) (s1 : ObrImpl) (rotator : AmbisonicRotator),
     EncodeStage s' input = Returns s1 ->
     head_tracking_enabled_ s = true ->
     ambisonic_rotator_ s = Some rotator ->
     RotateStage s1 =
     (let '(rotator', bed) :=
        AmbisonicRotator_Process rotator (mkWorldRotation w x y z)
          (ambisonic_mix_bed_ s1) in
      Returns (set_rotator (set_mix_bed s1 bed) (Some rotator')))).
Proof.
  cbn zeta. repeat split.
  intros input s1 rotator Hstage Htracking Hrotator.
  apply EncodeStage_fields in Hstage as (_ & Hq & Ht & Hr).
  cbn in Hq, Ht, Hr. unfold RotateStage. rewrite Hq, Ht, Hr, Htracking, Hrotator.
  reflexivity.
Qed.

(** An [AddAudioElement] that reports success has run [InitializeDsp] on
    the list with the new element appended, whose first element is the
    first of the old list, or the new element if the list was empty. *)
Lemma AddAudioElement_ok_initialized (s s' : ObrImpl) (type : AudioElementType)
    (st : Status) (cfg first : Element.AudioElementConfig) :
  AddAudioElement s type = Returns (st, s') ->
  status_ok st = true ->
  Element.AudioElementConfig_new type = Returns cfg ->
  head (audio_elements_ s ++ [cfg]) = Some first ->
  exists (s0 : ObrImpl) (first0 : Element.AudioElementConfig)
         (rest : list Element.AudioElementConfig),
    InitializeDsp s0 = Returns (st, s') /\
    sampling_rate_ s0 = sampling_rate_ s /\
    audio_elements_ s0 = first0 :: rest /\
    Element.binaural_filters_ambisonic_order_ first0 =
    Element.binaural_filters_ambisonic_order_ first.
Proof.
  intros Hadd Hst Hcfg Hhead.
  unfold AddAudioElement, mbind, outcome_bind in Hadd. rewrite Hcfg in Hadd.
  destruct (last (audio_elements_ s)) as [back|] eqn:Hlast.
  - destruct (decide _) as [Hsame|Hdiff];
      [|injection Hadd as <- <-; discriminate Hst].
    destruct (_ <? _)%nat; [injection Hadd as <- <-; discriminate Hst|].
    destruct (audio_elements_ s) as [|el l] eqn:Hel; [discriminate Hlast|].
    injection Hhead as <-.
    eexists _, el, _. split; [exact Hadd|]. split; [reflexivity|].
    split; [|reflexivity].
    cbn [audio_elements_ set_audio_elements]. reflexivity.
  - destruct (_ <? _)%nat; [injection Hadd as <- <-; discriminate Hst|].
    apply last_None in Hlast. rewrite Hlast in Hhead, Hadd. injection Hhead as <-.
    eexists _, cfg, _. split; [exact Hadd|]. split; [reflexivity|].
    split; [|reflexivity].
    cbn [audio_elements_ set_audio_elements]. reflexivity.
Qed.

(** C1, amended.  The two configuration errors that [AddAudioElement]
    detects itself, a type mismatch and an exhausted channel budget, are
    returned as a typed error with a message, the renderer unchanged; no
    other error is ever returned.  When the new element passes the two
    checks and the HRIR asset of either ear for the order of the first
    element is missing, or is there at a sample rate that the resampler
    does not take to the rate of the renderer, [AddAudioElement] does not
    return: the program ends. *)
Theorem configuration_errors (s : ObrImpl) (type : AudioElementType) :
  reachable s ->
  (forall (st : Status) (s' : ObrImpl),
     AddAudioElement s type = Returns (st, s') ->
     status_ok st = false ->
     s' = s /\
     (code st = kFailedPrecondition \/ code st = kResourceExhausted) /\
     message st <> EmptyString) /\
  ((exists back, last (audio_elements_ s) = Some back /\
                 Element.type_ back <> type) ->
   AddAudioElement s type =
   Returns (FailedPreconditionError "Only same-typed audio elements are supported.",
            s)) /\
  (forall cfg : Element.AudioElementConfig,
     (forall back, last (audio_elements_ s) = Some back ->
                   Element.type_ back = type) ->
     Element.AudioElementConfig_new type = Returns cfg ->
     (kMaxSupportedNumInputChannels <
      GetNumberOfInputChannels s + Element.number_of_input_channels_ cfg)%nat ->
     AddAudioElement s type =
     Returns (ResourceExhaustedError "More input channels requested than supported.",
              s)) /\
  (forall (cfg first : Element.AudioElementConfig) (side : string),
     (forall back, last (audio_elements_ s) = Some back ->
                   Element.type_ back = type) ->
     Element.AudioElementConfig_new type = Returns cfg ->
     (GetNumberOfInputChannels s + Element.number_of_input_channels_ cfg <=
      kMaxSupportedNumInputChannels)%nat ->
     head (audio_elements_ s ++ [cfg]) = Some first ->
     side = "OA_L"%string \/ side = "OA_R"%string ->
     let key := pretty (Element.binaural_filters_ambisonic_order_ first) +:+ side in
     (GetFile key = None \/
      exists (data : string) (wav : Wav),
        GetFile key = Some data /\
        Wav_CreateOrNull data = Some wav /\
        wav_sample_rate wav <> sampling_rate_ s /\
        AreSampleRatesSupported (wav_sample_rate wav) (sampling_rate_ s) = false) ->
     AddAudioElement s type = Aborts).
Proof.
  intros Hreach. pose proof (reachable_elements_ok s Hreach) as Hok.
  split; [|split; [|split]].
  - intros st s' Hadd Herr.
    destruct (AddAudioElement_cases s s' type st Hok Hadd)
      as [(-> & -> & _)|[(-> & -> & _)|(Hst & _)]].
    + split; [reflexivity|]. split; [left; reflexivity|discriminate].
    + split; [reflexivity|]. split; [right; reflexivity|discriminate].
    + congruence.
  - intros (back & Hlast & Hne). unfold AddAudioElement. rewrite Hlast.
    destruct (decide _) as [Heq|_]; [contradiction|reflexivity].
  - intros cfg Hsame Hcfg Hbudget. apply Nat.ltb_lt in Hbudget.
    unfold AddAudioElement, mbind, outcome_bind. rewrite Hcfg.
    destruct (last (audio_elements_ s)) as [back|] eqn:Hlast.
    + destruct (decide _) as [_|Hne]; [|exfalso; apply Hne, Hsame; reflexivity].
      cbn [Element.SetFirstChannelIndex Element.number_of_input_channels_].
      rewrite Hbudget. reflexivity.
    + rewrite Hbudget. reflexivity.
  - intros cfg first side Hsame Hcfg Hbudget Hhead Hside key Hfatal.
    destruct (AddAudioElement s type) as [[st s']|] eqn:Hadd; [exfalso|reflexivity].
    destruct (AddAudioElement_cases s s' type st Hok Hadd)
      as [(_ & _ & back & Hlast & Hne)
         |[(_ & _ & _ & cfg0 & Hcfg0 & Hover)|(Hst & _)]].
    + apply Hne, Hsame, Hlast.
    + rewrite Hcfg in Hcfg0. injection Hcfg0 as <-. lia.
    + destruct (AddAudioElement_ok_initialized s s' type st cfg first
                  Hadd Hst Hcfg Hhead)
        as (s0 & first0 & rest & Hinit & Hrate & Hel0 & Horder).
      destruct (InitializeDsp_ok_loads s0 s' st first0 rest Hinit Hel0 Hst)
        as (hl & hr & Hl & Hr & _).
      rewrite Horder, Hrate in Hl, Hr.
      assert (Hload : exists h, CreateShHrirsFromAssets key (sampling_rate_ s)
                                = Returns h).
      { subst key. destruct Hside as [-> | ->]; eauto. }
      destruct Hload as [h Hload].
      destruct Hfatal as [Hmissing|(data & wav & Hfile & Hwav & Hne & Hrates)].
      * rewrite (CreateShHrirsFromAssets_missing _ _ Hmissing) in Hload.
        discriminate Hload.
      * unfold CreateShHrirsFromAssets in Hload. rewrite Hfile, Hwav in Hload.
        rewrite (CreateShHrirsFromWav_unsupported _ _ Hne Hrates) in Hload.
        discriminate Hload.
Qed.

End RendererClaims.

Section MixBed.
Context {libm : Libm} {tables : ShTables} {dsp : Dsp}.
Import Obr.

Lemma zip_with_add_zeros (x : list float) :
  zip_with F32.add x (replicate (length x) F32.zero) =
  map (fun v => F32.add v F32.zero) x.
Proof. induction x as [|v x IH]; simpl; [reflexivity|]. rewrite IH. reflexivity. Qed.

Lemma ambisonics_not_encoded (type : AudioElementType) :
  IsAmbisonicsType type = true ->
  IsLoudspeakerLayoutType type || IsObjectType type = false.
Proof. destruct type; simpl; intros Ht; try discriminate Ht; reflexivity. Qed.

(** The inner loop of the Ambisonic copy, run over the first [k] channels
    of an element that starts at input channel 0, on a cleared bed. *)
Lemma add_channels_fold (input : AudioBuffer) (nf b : nat) (zs : list (list float)) :
  Forall (fun x => length x = b) (channels input) ->
  length zs = length (channels input) ->
  Forall (fun z => z = replicate b F32.zero) zs ->
  forall k : nat,
    (k <= length (channels input))%nat ->
    foldl (fun bed channel =>
             bed ← bed;
             other ← channel_at input (0 + channel);
             channel_add bed channel other)
      (Returns {| num_frames := nf; channels := zs |}) (seq 0 k) =
    Returns {| num_frames := nf;
               channels := map (map (fun v => F32.add v F32.zero))
                             (take k (channels input)) ++ drop k zs |}.
Proof.
  intros Hxs Hlen Hzs. induction k as [|k IH]; intros Hk.
  - simpl. rewrite drop_0. reflexivity.
  - rewrite seq_S, foldl_app, IH by lia. simpl foldl.
    unfold mbind, outcome_bind, channel_at, channel_add. simpl plus.
    destruct (lookup_lt_is_Some_2 (channels input) k ltac:(lia)) as [x Hx].
    destruct (lookup_lt_is_Some_2 zs k ltac:(lia)) as [z Hz].
    rewrite Hx. cbn [channels num_frames].
    assert (Hpre : length (map (map (fun v : spec_float => F32.add v F32.zero))
                             (take k (channels input))) = k).
    { rewrite length_map, length_take. lia. }
    rewrite lookup_app_r by lia. rewrite Hpre, Nat.sub_diag, lookup_drop, Nat.add_0_r, Hz.
    assert (Hxb : length x = b).
    { rewrite Forall_lookup in Hxs. exact (Hxs k x Hx). }
    assert (Hzb : z = replicate b F32.zero).
    { rewrite Forall_lookup in Hzs. exact (Hzs k z Hz). }
    subst z. rewrite length_replicate, Hxb, Nat.eqb_refl. unfold check.
    f_equal. f_equal.
    rewrite insert_app_r_alt by lia. rewrite Hpre, Nat.sub_diag.
    rewrite (drop_S zs (replicate b F32.zero) k Hz). cbn [insert list_insert].
    rewrite (take_S_r _ _ _ Hx), map_app, <- app_assoc. simpl app.
    rewrite <- Hxb, zip_with_add_zeros. reflexivity.
Qed.

(** C4, amended.  For a renderer configured with one Ambisonic element
    and every input block of its shape, each sample of the HOA mix bed
    after the encode stage is the input sample plus the zero of the
    cleared bed: the encoder contributes nothing and nothing of earlier
    blocks remains, so the bed equals the input channel for channel and
    sample for sample wherever the input holds no negative zero. *)
Theorem EncodeStage_single_ambisonic (s : ObrImpl)
    (e : Element.AudioElementConfig) (input : AudioBuffer) :
  audio_elements_ s = [e] ->
  IsAmbisonicsType (Element.type_ e) = true ->
  Element.first_channel_index_ e = 0%nat ->
  num_channels (ambisonic_mix_bed_ s) = Element.number_of_input_channels_ e ->
  buffer_wf (ambisonic_mix_bed_ s) ->
  num_channels input = Element.number_of_input_channels_ e ->
  buffer_wf input ->
  num_frames input = num_frames (ambisonic_mix_bed_ s) ->
  EncodeStage s input =
  Returns (set_mix_bed s
             {| num_frames := num_frames (ambisonic_mix_bed_ s);
                channels := map (map (fun x => F32.add x F32.zero))
                              (channels input) |}) /\
  (Forall (Forall (fun x => x <> S754_zero true)) (channels input) ->
   map (map (fun x => F32.add x F32.zero)) (channels input) = channels input).
Proof.
  intros Hel Hamb Hfirst Hbed Hbedwf Hin Hinwf Hframes. split.
  - unfold EncodeStage, GetAmbisonicEncoderSourceChannelIndices.
    rewrite Hel. cbn [flat_map]. rewrite (ambisonics_not_encoded _ Hamb).
    cbn [app]. unfold mbind at 1, outcome_bind at 1.
    cbn [audio_elements_ set_mix_bed ambisonic_mix_bed_]. rewrite Hel.
    cbn [foldl]. rewrite Hamb, Hfirst.
    unfold AudioBuffer_Clear.
    pose proof (add_channels_fold input (num_frames (ambisonic_mix_bed_ s))
                  (num_frames input)
                  (map (fun ch => replicate (length ch) F32.zero)
                     (channels (ambisonic_mix_bed_ s)))) as Hfold.
    unfold num_channels in *.
    rewrite <- Hin. rewrite Hfold.
    + unfold mbind, outcome_bind. rewrite firstn_all, drop_ge, app_nil_r;
        [reflexivity|]. rewrite length_map. lia.
    + exact Hinwf.
    + rewrite length_map. lia.
    + apply Forall_fmap. eapply Forall_impl; [exact Hbedwf|].
      simpl. intros ch Hch. rewrite Hch, Hframes. reflexivity.
    + lia.
  - intros Hnz. induction Hnz as [|ch chs Hch _ IH]; simpl; [reflexivity|].
    rewrite IH. f_equal.
    induction Hch as [|x ch Hx _ IHch]; simpl; [reflexivity|].
    rewrite IHch, F32_add_zero_r by exact Hx. reflexivity.
Qed.

End MixBed.

(** ** The model run on concrete inputs *)

Example sample_renderer_new :
  @Obr.ObrImpl_new Sample.dsp 4 48000 = Returns Sample.renderer.
Proof. reflexivity. Qed.

Example sample_add_1OA :
  Sample.add Sample.renderer k1OA = Returns (OkStatus, Sample.renderer_1OA).
Proof. vm_compute. reflexivity. Qed.

Example sample_add_1OA_1OA :
  Sample.add Sample.renderer_1OA k1OA = Returns (OkStatus, Sample.renderer_1OA_1OA).
Proof. vm_compute. reflexivity. Qed.

Example sample_add_layout :
  option_map (fun '(st, s) => (status_ok st, @Obr.GetNumberOfInputChannels Sample.dsp s))
    (match Sample.add Sample.renderer kLayout7_1_4_ch with
     | Returns r => Some r
     | Aborts => None
     end) = Some (true, 12%nat).
Proof. vm_compute. reflexivity. Qed.

Example sample_add_3OA_refused :
  Sample.add Sample.renderer_1OA k3OA =
  Returns (FailedPreconditionError "Only same-typed audio elements are supported.",
           Sample.renderer_1OA).
Proof. vm_compute. reflexivity. Qed.

Lemma sample_renderer_1OA_reachable :
  @Obr.reachable Sample.libm Sample.tables Sample.dsp Sample.renderer_1OA.
Proof.
  eapply Obr.reach_add; [|exact sample_add_1OA].
  eapply Obr.reach_new. exact sample_renderer_new.
Qed.

Example sample_renderer_12345_new :
  @Obr.ObrImpl_new Sample.dsp 4 12345 = Returns Sample.renderer_12345.
Proof. reflexivity. Qed.

Example sample_renderer_without_assets_new :
  @Obr.ObrImpl_new Sample.dsp_without_assets 4 48000 =
  Returns Sample.renderer_without_assets.
Proof. reflexivity. Qed.

(** C1, as stated, fails: with an engine rate that the resampler does not
    take the 48 kHz assets to, [AddAudioElement] ends the program, and so
    it does when the asset provider does not have the HRIR file of the
    order. *)
Lemma configuration_error_aborts :
  @Obr.ObrImpl_new Sample.dsp 4 12345 = Returns Sample.renderer_12345 /\
  @AreSampleRatesSupported Sample.dsp 48000 12345 = false /\
  @Obr.AddAudioElement Sample.libm Sample.tables Sample.dsp
    Sample.renderer_12345 k3OA = Aborts /\
  @Obr.ObrImpl_new Sample.dsp_without_assets 4 48000 =
    Returns Sample.renderer_without_assets /\
  @GetFile Sample.dsp_without_assets "3OA_L" = None /\
  @Obr.AddAudioElement Sample.libm Sample.tables Sample.dsp_without_assets
    Sample.renderer_without_assets k3OA = Aborts.
Proof. vm_compute. repeat split. Qed.

Lemma configuration_errors_witness :
  @Obr.reachable Sample.libm Sample.tables Sample.dsp Sample.renderer_1OA /\
  Sample.add Sample.renderer_1OA k3OA =
    Returns (FailedPreconditionError "Only same-typed audio elements are supported.",
             Sample.renderer_1OA) /\
  @Obr.reachable Sample.libm Sample.tables Sample.dsp_without_assets
    Sample.renderer_without_assets /\
  @GetFile Sample.dsp_without_assets "3OA_L" = None /\
  @Obr.AddAudioElement Sample.libm Sample.tables Sample.dsp_without_assets
    Sample.renderer_without_assets k3OA = Aborts /\
  @Obr.reachable Sample.libm Sample.tables Sample.dsp Sample.renderer_12345 /\
  @GetFile Sample.dsp "3OA_L" = Some "3OA_L"%string /\
  @Wav_CreateOrNull Sample.dsp "3OA_L" = Some (mkWav 16 48000 (replicate 16 0)) /\
  @AreSampleRatesSupported Sample.dsp 48000 12345 = false /\
  @Obr.AddAudioElement Sample.libm Sample.tables Sample.dsp
    Sample.renderer_12345 k3OA = Aborts.
Proof.
  assert (Hdry : @Obr.reachable Sample.libm Sample.tables
                   Sample.dsp_without_assets Sample.renderer_without_assets)
    by (eapply Obr.reach_new; exact sample_renderer_without_assets_new).
  assert (Hrate : @Obr.reachable Sample.libm Sample.tables Sample.dsp
                    Sample.renderer_12345)
    by (eapply Obr.reach_new; exact sample_renderer_12345_new).
  split; [exact sample_renderer_1OA_reachable|].
  split.
  { destruct (@configuration_errors Sample.libm Sample.tables Sample.dsp
                Sample.renderer_1OA k3OA sample_renderer_1OA_reachable)
      as (_ & Hmismatch & _).
    apply Hmismatch. eexists. split; [reflexivity|discriminate]. }
  split; [exact Hdry|]. split; [reflexivity|].
  split.
  { destruct (@configuration_errors Sample.libm Sample.tables
                Sample.dsp_without_assets Sample.renderer_without_assets k3OA
                Hdry) as (_ & _ & _ & Hfatal).
    eapply (Hfatal _ _ "OA_L"%string).
    - intros back Hback. discriminate Hback.
    - reflexivity.
    - vm_compute. lia.
    - reflexivity.
    - left. reflexivity.
    - left. reflexivity. }
  split; [exact Hrate|]. split; [reflexivity|]. split; [reflexivity|].
  split; [reflexivity|].
  destruct (@configuration_errors Sample.libm Sample.tables Sample.dsp
              Sample.renderer_12345 k3OA Hrate) as (_ & _ & _ & Hfatal).
  eapply (Hfatal _ _ "OA_L"%string).
  - intros back Hback. discriminate Hback.
  - reflexivity.
  - vm_compute. lia.
  - reflexivity.
  - left. reflexivity.
  - right. exists "3OA_L"%string, (mkWav 16 48000 (replicate 16 0)).
    split; [reflexivity|]. split; [reflexivity|].
    split; [discriminate|reflexivity].
Defined.

Lemma AddAudioElement_error_keeps_state_witness :
  @Obr.reachable Sample.libm Sample.tables Sample.dsp Sample.renderer_1OA /\
  Sample.add Sample.renderer_1OA k3OA =
    Returns (FailedPreconditionError "Only same-typed audio elements are supported.",
             Sample.renderer_1OA) /\
  status_ok (FailedPreconditionError "Only same-typed audio elements are supported.")
    = false /\
  Sample.renderer_1OA = Sample.renderer_1OA.
Proof.
  split; [exact sample_renderer_1OA_reachable|].
  split; [exact sample_add_3OA_refused|].
  split; [reflexivity|].
  apply (@AddAudioElement_error_keeps_state Sample.libm Sample.tables Sample.dsp
           Sample.renderer_1OA Sample.renderer_1OA k3OA
           (FailedPreconditionError "Only same-typed audio elements are supported."));
    [exact sample_renderer_1OA_reachable|exact sample_add_3OA_refused|reflexivity].
Defined.

(** C8, as stated, fails: with a first-order Ambisonic element configured,
    a third-order Ambisonic element is refused, although both elements are
    of the Ambisonic kind and the 4 + 16 input channels fit the budget. *)
Lemma ambisonic_orders_refused :
  option_map Element.type_ (last (Obr.audio_elements_ Sample.renderer_1OA)) = Some k1OA /\
  IsAmbisonicsType k1OA = true /\ IsAmbisonicsType k3OA = true /\
  (@Obr.GetNumberOfInputChannels Sample.dsp Sample.renderer_1OA + 16 <=
   @kMaxSupportedNumInputChannels Sample.dsp)%nat /\
  Sample.add Sample.renderer_1OA k3OA =
    Returns (FailedPreconditionError "Only same-typed audio elements are supported.",
             Sample.renderer_1OA).
Proof.
  split; [vm_compute; reflexivity|]. split; [reflexivity|]. split; [reflexivity|].
  split; [vm_compute; lia|exact sample_add_3OA_refused].
Qed.

Lemma AddAudioElement_error_iff_witness :
  @Obr.reachable Sample.libm Sample.tables Sample.dsp Sample.renderer_1OA /\
  Sample.add Sample.renderer_1OA k1OA = Returns (OkStatus, Sample.renderer_1OA_1OA) /\
  ~ ((exists back, last (Obr.audio_elements_ Sample.renderer_1OA) = Some back /\
                   Element.type_ back <> k1OA) \/
     (exists cfg, Element.AudioElementConfig_new k1OA = Returns cfg /\
        (@kMaxSupportedNumInputChannels Sample.dsp <
         @Obr.GetNumberOfInputChannels Sample.dsp Sample.renderer_1OA +
         Element.number_of_input_channels_ cfg)%nat)).
Proof.
  split; [exact sample_renderer_1OA_reachable|].
  split; [exact sample_add_1OA_1OA|].
  destruct (@AddAudioElement_error_iff Sample.libm Sample.tables Sample.dsp
              Sample.renderer_1OA Sample.renderer_1OA_1OA k1OA OkStatus
              sample_renderer_1OA_reachable sample_add_1OA_1OA) as [[_ Hback] _].
  intros Hcause. specialize (Hback Hcause). discriminate Hback.
Defined.

Lemma SetHeadRotation_stores_witness :
  status_ok (fst (@Obr.SetHeadRotation Sample.dsp Sample.renderer_1OA
                    F32.zero F32.zero F32.zero F32.zero)) = true /\
  Obr.world_rotation_
    (snd (@Obr.SetHeadRotation Sample.dsp Sample.renderer_1OA
            F32.zero F32.zero F32.zero F32.zero)) =
  mkWorldRotation F32.zero F32.zero F32.zero F32.zero.
Proof.
  destruct (@SetHeadRotation_stores Sample.dsp
              Sample.renderer_1OA F32.zero F32.zero F32.zero F32.zero)
    as (Hok & _ & Hq & _).
  split; [exact Hok|exact Hq].
Defined.

(** C4, as stated, fails: with two first-order Ambisonic elements the
    input has eight channels and the bed four, and every bed sample is the
    sum of the samples of the two elements, 2 for an input of ones. *)
Lemma two_ambisonic_elements_sum :
  map Element.type_ (Obr.audio_elements_ Sample.renderer_1OA_1OA) = [k1OA; k1OA] /\
  match @Obr.EncodeStage Sample.dsp Sample.renderer_1OA_1OA (Sample.ones 8 4) with
  | Returns s => Some (channels (Obr.ambisonic_mix_bed_ s))
  | Aborts => None
  end = Some (replicate 4 (replicate 4 (F32.of_Z 2))) /\
  take 4 (channels (Sample.ones 8 4)) <> replicate 4 (replicate 4 (F32.of_Z 2)).
Proof.
  split; [vm_compute; reflexivity|]. split; [vm_compute; reflexivity|].
  vm_compute. discriminate.
Qed.

Lemma EncodeStage_single_ambisonic_witness :
  exists e : Element.AudioElementConfig,
    Obr.audio_elements_ Sample.renderer_1OA = [e] /\
    IsAmbisonicsType (Element.type_ e) = true /\
    Element.first_channel_index_ e = 0%nat /\
    num_channels (Obr.ambisonic_mix_bed_ Sample.renderer_1OA) =
      Element.number_of_input_channels_ e /\
    buffer_wf (Obr.ambisonic_mix_bed_ Sample.renderer_1OA) /\
    num_channels (Sample.ones 4 4) = Element.number_of_input_channels_ e /\
    buffer_wf (Sample.ones 4 4) /\
    num_frames (Sample.ones 4 4) =
      num_frames (Obr.ambisonic_mix_bed_ Sample.renderer_1OA) /\
    match @Obr.EncodeStage Sample.dsp Sample.renderer_1OA (Sample.ones 4 4) with
    | Returns s => Some (channels (Obr.ambisonic_mix_bed_ s))
    | Aborts => None
    end = Some (channels (Sample.ones 4 4)).
Proof.
  assert (Hel : exists e, Obr.audio_elements_ Sample.renderer_1OA = [e] /\
                  IsAmbisonicsType (Element.type_ e) = true /\
                  Element.first_channel_index_ e = 0%nat /\
                  Element.number_of_input_channels_ e = 4%nat).
  { vm_compute. eexists. repeat split. }
  destruct Hel as (e & Hel & Hamb & Hfirst & Hn).
  assert (Hbed : num_channels (Obr.ambisonic_mix_bed_ Sample.renderer_1OA) =
                 Element.number_of_input_channels_ e)
    by (rewrite Hn; vm_compute; reflexivity).
  assert (Hbedwf : buffer_wf (Obr.ambisonic_mix_bed_ Sample.renderer_1OA))
    by (vm_compute; repeat constructor).
  assert (Hin : num_channels (Sample.ones 4 4) = Element.number_of_input_channels_ e)
    by (rewrite Hn; reflexivity).
  assert (Hinwf : buffer_wf (Sample.ones 4 4)) by (vm_compute; repeat constructor).
  assert (Hframes : num_frames (Sample.ones 4 4) =
                    num_frames (Obr.ambisonic_mix_bed_ Sample.renderer_1OA))
    by (vm_compute; reflexivity).
  exists e. repeat (split; [assumption|]).
  destruct (@EncodeStage_single_ambisonic Sample.dsp Sample.renderer_1OA e
              (Sample.ones 4 4) Hel Hamb Hfirst Hbed Hbedwf Hin Hinwf Hframes)
    as [Hstage Hsame].
  rewrite Hstage. cbn [Obr.ambisonic_mix_bed_ Obr.set_mix_bed channels].
  rewrite Hsame; [reflexivity|].
  vm_compute. repeat constructor; discriminate.
Defined.

(** C3, as stated, fails: a call that differs from the cached tuple only in
    the sign of a zero azimuth is taken for a repetition, and the column
    keeps the coefficient [+0] where the column of the given tuple has
    [-0]. *)
Lemma SetSource_sign_of_zero :
  @Encoder.SetSource Sample.libm Sample.tables Sample.encoder 0 F32.one
    (S754_zero false) F32.zero F32.one = Some Sample.encoder_front /\
  @Encoder.SetSource Sample.libm Sample.tables Sample.encoder_front 0 F32.one
    (S754_zero true) F32.zero F32.one = Some Sample.encoder_front /\
  Encoder.encoding_matrix_ Sample.encoder_front !! 0%nat =
    Some [F32.one; S754_zero false; F32.one; F32.one] /\
  @EncoderSpec.source_column Sample.libm Sample.tables 1 4
    (Encoder.mkSource F32.one (S754_zero true) F32.zero F32.one) =
    [F32.one; S754_zero true; F32.one; F32.one].
Proof. vm_compute. repeat split. Qed.

Lemma SetSource_column_witness :
  @enc_inv Sample.libm Sample.tables Sample.encoder /\
  (0 < Encoder.number_of_input_channels_ Sample.encoder)%nat /\
  exists enc' : Encoder.AmbisonicEncoder,
    @Encoder.SetSource Sample.libm Sample.tables Sample.encoder 0 F32.one
      (F32.of_Z 30) F32.zero F32.one = Some enc' /\
    Encoder.sources_ enc' !! 0%nat =
      Some (Encoder.mkSource F32.one (F32.of_Z 30) F32.zero F32.one) /\
    Encoder.encoding_matrix_ enc' !! 0%nat =
    Some (@EncoderSpec.source_column Sample.libm Sample.tables 1 4
            (Encoder.mkSource F32.one (F32.of_Z 30) F32.zero F32.one)).
Proof.
  assert (Hinv : @enc_inv Sample.libm Sample.tables Sample.encoder).
  { apply (@AmbisonicEncoder_new_inv Sample.libm Sample.tables 1 1). reflexivity. }
  assert (Hc : (0 < Encoder.number_of_input_channels_ Sample.encoder)%nat)
    by (vm_compute; lia).
  split; [exact Hinv|]. split; [exact Hc|].
  destruct (@SetSource_column Sample.libm Sample.tables Sample.encoder 0 F32.one
              (F32.of_Z 30) F32.zero F32.one Hinv Hc)
    as (enc' & a' & e' & Hset & _ & Hcol & _ & _ & Hfresh & _).
  destruct Hfresh as (-> & -> & Hsrc).
  { intros ((_ & _ & [Hg|(sx & sy & _ & Hg)]) & _); discriminate Hg. }
  exists enc'. split; [exact Hset|]. split; [exact Hsrc|exact Hcol].
Defined.

Example sample_encoder_set :
  @Encoder.SetSource Sample.libm Sample.tables Sample.encoder 0 F32.one
    (F32.of_Z 30) F32.zero F32.one = Some Sample.encoder_set.
Proof. vm_compute. reflexivity. Qed.

Lemma SetSource_idempotent_witness :
  @Encoder.SetSource Sample.libm Sample.tables Sample.encoder 0 F32.one
    (F32.of_Z 30) F32.zero F32.one = Some Sample.encoder_set /\
  @Encoder.SetSource Sample.libm Sample.tables Sample.encoder_set 0 F32.one
    (F32.of_Z 30) F32.zero F32.one = Some Sample.encoder_set.
Proof.
  split; [exact sample_encoder_set|].
  apply (@SetSource_idempotent Sample.libm Sample.tables Sample.encoder
           Sample.encoder_set 0 F32.one (F32.of_Z 30) F32.zero F32.one
           sample_encoder_set).
Defined.


Lemma limiter_block_partition_witness :
  buffer_wf (Sample.ones 2 3) /\
  sum_list [1; 2]%nat = num_frames (Sample.ones 2 3) /\
  exists (l' : Limiter.PeakLimiter) (outs : list AudioBuffer),
    Limiter.Process_blocks Sample.limiter (split_frames [1; 2]%nat (Sample.ones 2 3)) =
      Some (l', outs) /\
    Limiter.Process_in_place Sample.limiter (Sample.ones 2 3) =
      Some (l', concat_blocks 2 outs).
Proof.
  assert (Hwf : buffer_wf (Sample.ones 2 3)) by (vm_compute; repeat constructor).
  split; [exact Hwf|]. split; [reflexivity|].
  apply (limiter_block_partition (Sample.ones 2 3) [1; 2]%nat Sample.limiter Hwf eq_refl).
Defined.

Example sample_limiter_attack :
  option_map (fun '(l, out) => (Limiter.env_ l, channels out))
    (Limiter.Process_in_place Sample.limiter
       (mkAudioBuffer 1 [[F32.of_Z 2]; [F32.of_Z (-1)]])) =
  Some (F64.div (Limiter.ceiling_ Sample.limiter) (F64.of_Z 2),
        [[F32.mul (F32.of_Z 2)
            (double_to_float (F64.div (Limiter.ceiling_ Sample.limiter) (F64.of_Z 2)))];
         [F32.mul (F32.of_Z (-1))
            (double_to_float (F64.div (Limiter.ceiling_ Sample.limiter) (F64.of_Z 2)))]]).
Proof. vm_compute. reflexivity. Qed.

(** * Further properties of the code *)

(** ** Rounded results have a mantissa of at most [prec] bits *)

Lemma digits2_pos_bound (m : positive) : Z.pos m < 2 ^ Z.pos (digits2_pos m).
Proof.
  induction m as [m IH|m IH|]; cbn [digits2_pos].
  - rewrite Pos2Z.inj_succ, Z.pow_succ_r by lia. lia.
  - rewrite Pos2Z.inj_succ, Z.pow_succ_r by lia. lia.
  - reflexivity.
Qed.

Lemma shr_1_half (mrs : shr_record) :
  0 <= shr_m mrs -> shr_m (shr_1 mrs) = shr_m mrs / 2.
Proof.
  destruct mrs as [m r s]. cbn [shr_m shr_1]. intros Hm.
  destruct m as [|[p|p|]|p]; cbn [shr_m]; try lia.
  - reflexivity.
  - rewrite Pos2Z.inj_xI. apply Z.div_unique with (r := 1); lia.
  - rewrite Pos2Z.inj_xO. apply Z.div_unique with (r := 0); lia.
  - reflexivity.
Qed.

Lemma iter_shr_1 (p : positive) : forall mrs : shr_record,
  0 <= shr_m mrs ->
  shr_m (SpecFloat.iter_pos shr_1 p mrs) = shr_m mrs / 2 ^ Z.pos p.
Proof.
  assert (Hnn : forall a b, 0 <= a -> 0 < b -> 0 <= a / b).
  { intros. apply Z.div_pos; lia. }
  induction p as [p IH|p IH|]; intros mrs Hm; cbn [SpecFloat.iter_pos].
  - assert (H2 : 0 < 2 ^ Z.pos p) by (apply Z.pow_pos_nonneg; lia).
    assert (Hpow : 2 ^ Z.pos p~1 = 2 * 2 ^ Z.pos p * 2 ^ Z.pos p).
    { rewrite <- Z.mul_assoc, <- Z.pow_add_r, <- Z.pow_succ_r by lia.
      f_equal. lia. }
    assert (H1 : 0 <= shr_m (shr_1 mrs))
      by (rewrite shr_1_half by exact Hm; apply Hnn; lia).
    assert (H3 : 0 <= shr_m (SpecFloat.iter_pos shr_1 p (shr_1 mrs)))
      by (rewrite IH by exact H1; apply Hnn; lia).
    rewrite (IH _ H3), (IH _ H1), (shr_1_half _ Hm), Hpow.
    rewrite !Z.div_div by lia. f_equal. lia.
  - assert (H2 : 0 < 2 ^ Z.pos p) by (apply Z.pow_pos_nonneg; lia).
    assert (Hpow : 2 ^ Z.pos p~0 = 2 ^ Z.pos p * 2 ^ Z.pos p).
    { rewrite <- Z.pow_add_r by lia. f_equal. lia. }
    assert (H3 : 0 <= shr_m (SpecFloat.iter_pos shr_1 p mrs))
      by (rewrite IH by exact Hm; apply Hnn; lia).
    rewrite (IH _ H3), (IH _ Hm), Hpow.
    rewrite Z.div_div by lia. reflexivity.
  - rewrite shr_1_half by exact Hm. reflexivity.
Qed.

Lemma shr_fexp_bound (prec emax : Z) (m e : Z) (l : location) :
  0 < prec -> 0 <= m ->
  0 <= shr_m (fst (shr_fexp prec emax m e l)) < 2 ^ prec.
Proof.
  intros Hprec Hm. unfold shr_fexp, shr.
  assert (Hrec : shr_m (shr_record_of_loc m l) = m)
    by (destruct l as [|[]]; reflexivity).
  assert (Hd : m < 2 ^ Zdigits2 m /\ 0 <= Zdigits2 m).
  { destruct m as [|p|p]; cbn [Zdigits2]; [cbn; lia| |lia].
    split; [apply digits2_pos_bound|lia]. }
  destruct Hd as [Hd Hd0].
  set (n := fexp prec emax (Zdigits2 m + e) - e).
  assert (Hn : Zdigits2 m - prec <= n) by (unfold n, fexp; lia).
  destruct n as [|q|q] eqn:Hq; cbn [fst].
  - rewrite Hrec. split; [exact Hm|].
    assert (2 ^ Zdigits2 m <= 2 ^ prec) by (apply Z.pow_le_mono_r; lia). lia.
  - rewrite iter_shr_1 by (rewrite Hrec; exact Hm). rewrite Hrec.
    assert (H2 : 0 < 2 ^ Z.pos q) by (apply Z.pow_pos_nonneg; lia).
    split; [apply Z.div_pos; lia|].
    apply Z.div_lt_upper_bound; [exact H2|].
    rewrite <- Z.pow_add_r by lia.
    assert (2 ^ Zdigits2 m <= 2 ^ (Z.pos q + prec)) by (apply Z.pow_le_mono_r; lia).
    lia.
  - rewrite Hrec. split; [exact Hm|].
    assert (2 ^ Zdigits2 m <= 2 ^ prec) by (apply Z.pow_le_mono_r; lia). lia.
Qed.

Lemma binary_round_aux_bound (prec emax : Z) (s : bool) (mx ex : Z) (lx : location) :
  0 < prec -> 0 <= mx ->
  match binary_round_aux prec emax s mx ex lx with
  | S754_finite _ m _ => Z.pos m < 2 ^ prec
  | _ => True
  end.
Proof.
  intros Hprec Hmx. unfold binary_round_aux.
  pose proof (shr_fexp_bound prec emax mx ex lx Hprec Hmx) as H1.
  destruct (shr_fexp prec emax mx ex lx) as [mrs' e']. cbn [fst] in H1.
  assert (Hrne : 0 <= round_nearest_even (shr_m mrs') (loc_of_shr_record mrs')).
  { unfold round_nearest_even. destruct (loc_of_shr_record mrs') as [|[]];
      try destruct (Z.even _); lia. }
  pose proof (shr_fexp_bound prec emax _ e' loc_Exact Hprec Hrne) as H2.
  destruct (shr_fexp prec emax _ e' loc_Exact) as [mrs'' e'']. cbn [fst] in H2.
  destruct (shr_m mrs'') as [|m|m]; [exact I| |exact I].
  destruct (e'' <=? emax - prec); [lia|exact I].
Qed.

Lemma F32_mul_bound (x y : float) :
  match F32.mul x y with
  | S754_finite _ m _ => Z.pos m < 2 ^ 24
  | _ => True
  end.
Proof.
  unfold F32.mul, SFmul.
  destruct x as [sx|sx| |sx mx ex], y as [sy|sy| |sy my ey]; try exact I.
  apply (binary_round_aux_bound F32.prec F32.emax); [reflexivity|lia].
Qed.

(** X1: [ConvertSampleFromFloatFormat] saturates: whatever the input, be it
    out of range, an infinity or NaN, the result lies in [-32767, 32767]. *)
Theorem ConvertSampleFromFloatFormat_saturates (input : float) :
  -32767 <= SampleConversion.ConvertSampleFromFloatFormat input <= 32767.
Proof.
  unfold SampleConversion.ConvertSampleFromFloatFormat.
  pose proof (F32_mul_bound input SampleConversion.kFloatToInt16) as Hbound.
  set (scaled := F32.mul input SampleConversion.kFloatToInt16) in *.
  change SampleConversion.kInt16Max with (S754_finite false 16776704 (-9)).
  change SampleConversion.kInt16Min with (S754_finite true 16776704 (-9)).
  unfold std_min, std_max.
  destruct (SFltb (S754_finite true 16776704 (-9)) scaled) eqn:Hlow;
    [|vm_compute; split; discriminate].
  destruct (SFltb scaled (S754_finite false 16776704 (-9))) eqn:Hhigh;
    [|vm_compute; split; discriminate].
  destruct scaled as [s|s| |s m e]; try (vm_compute; split; discriminate).
  change (2 ^ 24) with 16777216 in Hbound.
  unfold SFltb, SFcompare in Hlow, Hhigh.
  assert (Hexp : e <= -9).
  { revert Hlow Hhigh. destruct s.
    - destruct (Z.compare_spec (-9) e); cbv beta iota delta [CompOpp];
        intros; try discriminate; lia.
    - destruct (Z.compare_spec e (-9)); cbv beta iota;
        intros; try discriminate; lia. }
  assert (Hmag : (match e with
                  | Z.neg p => Z.shiftr (Z.pos m) (Z.pos p)
                  | _ => Z.shiftl (Z.pos m) e
                  end) <= 32767 /\
                 0 <= (match e with
                  | Z.neg p => Z.shiftr (Z.pos m) (Z.pos p)
                  | _ => Z.shiftl (Z.pos m) e
                  end)).
  { destruct e as [|p|p]; try lia.
    rewrite Z.shiftr_div_pow2 by lia.
    assert (H9 : 2 ^ 9 <= 2 ^ Z.pos p) by (apply Z.pow_le_mono_r; lia).
    change (2 ^ 9) with 512 in H9.
    split; [|apply Z.div_pos; lia].
    assert (Z.pos m / 2 ^ Z.pos p < 32768); [|lia].
    apply Z.div_lt_upper_bound; lia. }
  cbn [float_trunc]. destruct s; lia.
Qed.

(** ** Samples in float format *)

Lemma unit_range_enumerated :
  SampleConversion.all_range unit_range_check (-32768) (Z.to_nat 65536) = true.
Proof. vm_compute. reflexivity. Qed.

(** X2: [ConvertSampleToFloatFormat] takes every 16-bit sample into
    [-1.0, 1.0] but one: the lowest sample, -32768, comes out below -1.0. *)
Theorem ConvertSampleToFloatFormat_range (v : Z) :
  -32768 <= v <= 32767 ->
  in_unit_range (SampleConversion.ConvertSampleToFloatFormat v) =
    negb (v =? -32768) /\
  (v = -32768 ->
   SFltb (SampleConversion.ConvertSampleToFloatFormat v) (F32.of_Z (-1)) = true).
Proof.
  intros Hv. split; [|intros ->; vm_compute; reflexivity].
  pose proof (all_range_spec _ _ _ unit_range_enumerated v) as Hall.
  rewrite Z2Nat.id in Hall by lia. specialize (Hall ltac:(lia)).
  unfold unit_range_check in Hall. apply eqb_prop in Hall. exact Hall.
Qed.

(** Multiplying a [float] by 1.0 is exact. *)
Lemma F32_mul_one (x : float) :
  valid_binary F32.prec F32.emax x = true -> F32.mul x F32.one = x.
Proof.
  change F32.one with (S754_finite false 8388608 (-23)).
  destruct x as [s|s| |s m e]; intros Hvalid.
  - cbn. rewrite xorb_false_r. reflexivity.
  - cbn. rewrite xorb_false_r. reflexivity.
  - reflexivity.
  - cbn [valid_binary] in Hvalid. unfold bounded, canonical_mantissa in Hvalid.
    apply andb_true_iff in Hvalid as [Hcanon Hbound].
    apply Z.eqb_eq in Hcanon. apply Z.leb_le in Hbound.
    unfold F32.mul, SFmul. rewrite xorb_false_r, Pos.mul_comm.
    replace (8388608 * m)%positive with (Pos.iter xO m 23) by reflexivity.
    cbn [Pos.iter].
    unfold binary_round_aux, shr_fexp, Zdigits2. cbn [digits2_pos].
    set (d := digits2_pos m) in *.
    match goal with
    | |- context [shr _ _ ?n] =>
        assert (Hshift : n = 23)
    end.
    { unfold fexp, emin, F32.prec, F32.emax in *. lia. }
    rewrite Hshift. cbn [shr shr_record_of_loc].
    replace (SpecFloat.iter_pos shr_1 23 _)
      with {| shr_m := Z.pos m; shr_r := false; shr_s := false |} by reflexivity.
    cbn [shr_m loc_of_shr_record round_nearest_even digits2_pos].
    fold d.
    replace (e + -23 + 23) with e by lia.
    replace (fexp F32.prec F32.emax (Z.pos d + e) - e) with 0 by lia.
    cbn [shr shr_m].
    unfold F32.prec, F32.emax in *.
    destruct (e <=? 128 - 24) eqn:Hle; [reflexivity|apply Z.leb_gt in Hle; lia].
Qed.

Section LimiterMore.
Context {libm : Libm}.
Import Limiter LimiterSpec.

(** The cross-channel peak of a frame is the magnitude of one of the
    samples, or zero. *)
Lemma frame_peak_cases (input : AudioBuffer) (i : nat) :
  frame_peak input i = F32.zero \/
  exists ch x, In ch (channels input) /\ In x ch /\ frame_peak input i = F32.abs x.
Proof.
  unfold frame_peak.
  assert (Hfold : forall (chs : list (list float)) (m : float),
             (forall ch, In ch chs -> In ch (channels input)) ->
             (m = F32.zero \/
              exists ch x, In ch (channels input) /\ In x ch /\ m = F32.abs x) ->
             let r := foldl (fun m ch => std_max m (F32.abs (nth i ch F32.zero))) m chs in
             r = F32.zero \/
             exists ch x, In ch (channels input) /\ In x ch /\ r = F32.abs x).
  { induction chs as [|ch chs IH]; intros m Hsub Hm; cbn [foldl]; [exact Hm|].
    apply IH; [intros ch' Hch'; apply Hsub; right; exact Hch'|].
    unfold std_max. destruct (SFltb _ _); [|exact Hm].
    destruct (Nat.lt_ge_cases i (length ch)) as [Hlt|Hge].
    - right. exists ch, (nth i ch F32.zero).
      split; [apply Hsub; left; reflexivity|]. split; [apply nth_In; exact Hlt|reflexivity].
    - left. rewrite nth_overflow by exact Hge. reflexivity. }
  apply Hfold; [intros ch Hch; exact Hch|left; reflexivity].
Qed.

Lemma rest_step (alpha : double) :
  is_finite alpha = true ->
  F64.add (F64.mul alpha (F64.sub F64.one F64.one)) F64.one = F64.one.
Proof.
  change (F64.sub F64.one F64.one) with (S754_zero false).
  destruct alpha as [[]|[]| |[] m e]; try discriminate; intros _; reflexivity.
Qed.

(** X3: a limiter at rest is transparent below its ceiling: a block in which
    no sample exceeds the ceiling comes out bit for bit as it went in, and
    the limiter stays at rest. *)
Theorem limiter_transparent_below_ceiling (l : PeakLimiter)
    (input output : AudioBuffer) :
  buffer_wf input ->
  num_channels input = num_channels output ->
  num_frames input = num_frames output ->
  env_ l = F64.one ->
  is_finite (release_time_constant_ l) = true ->
  F64.ltb (ceiling_ l) (S754_zero false) = false ->
  Forall (Forall (fun x =>
            valid_binary F32.prec F32.emax x = true /\
            F64.ltb (ceiling_ l) (float_to_double (F32.abs x)) = false))
    (channels input) ->
  Process l input output =
  Some (l, {| num_frames := num_frames output; channels := channels input |}).
Proof.
  intros Hwf Hc Hf Henv Hfin Hceil Hsamples.
  rewrite (Process_spec l input output Hwf Hc Hf). rewrite Henv.
  assert (Hquiet : forall i,
            required_gain (ceiling_ l) (float_to_double (frame_peak input i)) = F64.one).
  { intros i. unfold required_gain.
    destruct (frame_peak_cases input i) as [->|(ch & x & Hch & Hx & ->)].
    - change (float_to_double F32.zero) with (S754_zero false). rewrite Hceil. reflexivity.
    - rewrite List.Forall_forall in Hsamples. specialize (Hsamples ch Hch).
      rewrite List.Forall_forall in Hsamples. destruct (Hsamples x Hx) as [_ Hbelow].
      rewrite Hbelow. reflexivity. }
  assert (Hstep : forall i,
            envelope_step (ceiling_ l) (release_time_constant_ l) F64.one
              (frame_peak input i) = F64.one).
  { intros i. unfold envelope_step. rewrite Hquiet.
    change (F64.ltb F64.one F64.one) with false. cbv iota.
    apply rest_step, Hfin. }
  assert (Hat : forall i,
            envelope_at (ceiling_ l) (release_time_constant_ l) F64.one input i =
            F64.one).
  { induction i as [|i IH]; cbn [envelope_at]; [apply Hstep|].
    rewrite IH. apply Hstep. }
  assert (Hend : envelope_end (ceiling_ l) (release_time_constant_ l) F64.one input
                   (num_frames input) = F64.one).
  { unfold envelope_end. destruct (num_frames input); [reflexivity|apply Hat]. }
  rewrite Hend. f_equal. f_equal.
  - destruct l. cbn in Henv. subst. reflexivity.
  - f_equal. unfold limited.
    rewrite <- (map_id (channels input)) at 2.
    apply map_ext_in. intros ch Hch.
    rewrite List.Forall_forall in Hsamples. specialize (Hsamples ch Hch).
    clear Hch. induction ch as [|x ch IH] using rev_ind; [reflexivity|].
    apply Forall_app in Hsamples as [Hhead Hlast].
    rewrite imap_app, IH by exact Hhead. f_equal.
    cbn [imap]. rewrite Hat.
    change (double_to_float F64.one) with F32.one.
    inversion Hlast as [|? ? [Hvalid _] _]; subst.
    rewrite (F32_mul_one x Hvalid). reflexivity.
Qed.

End LimiterMore.

Section EncoderMore.
Context {libm : Libm} {tables : ShTables}.
Import Encoder.

(** X4: [SetSource] for one input channel leaves every other channel
    alone: its column of the encoding matrix and its cached source are
    the same before and after, and the encoder keeps its sizes. *)
Theorem SetSource_other_channels (enc enc' : AmbisonicEncoder) (c : nat)
    (g a e d : float) :
  SetSource enc c g a e d = Some enc' ->
  number_of_input_channels_ enc' = number_of_input_channels_ enc /\
  number_of_output_channels_ enc' = number_of_output_channels_ enc /\
  ambisonic_order_ enc' = ambisonic_order_ enc /\
  length (encoding_matrix_ enc') = length (encoding_matrix_ enc) /\
  forall c' : nat, c' <> c ->
    encoding_matrix_ enc' !! c' = encoding_matrix_ enc !! c' /\
    sources_ enc' !! c' = sources_ enc !! c'.
Proof.
  unfold SetSource.
  destruct (number_of_input_channels_ enc =? 0)%nat; [discriminate|].
  destruct (number_of_output_channels_ enc =? 0)%nat; [discriminate|].
  destruct (negb (c <? number_of_input_channels_ enc)%nat); [discriminate|].
  set (srcs := match sources_ enc !! c with
               | None => <[c := mkSource F32.zero F32.zero F32.zero F32.zero]>
                           (sources_ enc)
               | Some _ => sources_ enc
               end).
  assert (Hother : forall c', c' <> c -> srcs !! c' = sources_ enc !! c').
  { intros c' Hne. subst srcs. destruct (sources_ enc !! c); [reflexivity|].
    apply lookup_insert_ne. congruence. }
  destruct (srcs !! c) as [s0|]; [|discriminate].
  destruct (source_eqb s0 g a e d).
  - intros [= <-]. cbn. repeat split; try reflexivity. apply Hother. assumption.
  - cbv zeta.
    destruct (F32.ltb _ _).
    + intros [= <-]. cbn. rewrite length_insert. repeat split; try reflexivity.
      * apply list_lookup_insert_ne. congruence.
      * rewrite lookup_insert_ne by congruence. apply Hother. assumption.
    + destruct (GetShCoeffs _ _ _ _ _); [|discriminate].
      intros [= <-]. cbn. rewrite length_insert. repeat split; try reflexivity.
      * apply list_lookup_insert_ne. congruence.
      * rewrite lookup_insert_ne by congruence. apply Hother. assumption.
Qed.

(** A tuple that compares equal to the all-zero source is muted. *)
Lemma zero_source_muted (g a e d : float) :
  source_eqb (mkSource F32.zero F32.zero F32.zero F32.zero) g a e d = true ->
  F32.ltb (F32.div g (std_max d kHalf)) kNegative120dbInAmplitude = true.
Proof.
  unfold source_eqb. cbn [gain azimuth elevation distance].
  intros Heq. apply andb_true_iff in Heq as [Heq Hd].
  apply andb_true_iff in Heq as [Heq _]. apply andb_true_iff in Heq as [Hg _].
  destruct g as [[]|[]| |[] mg eg]; try (vm_compute in Hg; discriminate Hg);
    destruct d as [[]|[]| |[] md ed]; try (vm_compute in Hd; discriminate Hd);
    vm_compute; reflexivity.
Qed.

(** X5: [RemoveSource] zeroes the column of the channel and forgets its
    cached source, so that a [SetSource] that follows is never taken for a
    repetition: its column is that of the given tuple itself. *)
Theorem RemoveSource_then_SetSource (enc : AmbisonicEncoder) (c : nat)
    (g a e d : float) :
  enc_inv enc ->
  (c < number_of_input_channels_ enc)%nat ->
  let removed := RemoveSource enc c in
  enc_inv removed /\
  sources_ removed !! c = None /\
  encoding_matrix_ removed !! c =
    Some (zero_column (number_of_output_channels_ enc)) /\
  (forall c' : nat, c' <> c ->
     encoding_matrix_ removed !! c' = encoding_matrix_ enc !! c' /\
     sources_ removed !! c' = sources_ enc !! c') /\
  exists enc' : AmbisonicEncoder,
    SetSource removed c g a e d = Some enc' /\
    encoding_matrix_ enc' !! c =
    Some (EncoderSpec.source_column (ambisonic_order_ enc)
            (number_of_output_channels_ enc) (mkSource g a e d)).
Proof.
  intros Hinv Hc. cbv zeta. pose proof Hinv as (Hnin & Hrows & Hlen & Hcols).
  split; [apply RemoveSource_inv; exact Hinv|].
  split; [apply lookup_delete_eq|].
  split; [apply list_lookup_insert_eq; lia|].
  split.
  { intros c' Hne. split; [apply list_lookup_insert_ne; congruence|].
    apply lookup_delete_ne. congruence. }
  unfold SetSource, RemoveSource.
  cbn [set_sources_matrix number_of_input_channels_ number_of_output_channels_
       ambisonic_order_ sources_ encoding_matrix_].
  destruct (number_of_input_channels_ enc =? 0)%nat eqn:E1;
    [apply Nat.eqb_eq in E1; contradiction|].
  destruct (number_of_output_channels_ enc =? 0)%nat eqn:E2;
    [apply Nat.eqb_eq in E2; lia|].
  destruct (c <? number_of_input_channels_ enc)%nat eqn:E3;
    [|apply Nat.ltb_ge in E3; lia].
  cbn [negb]. rewrite lookup_delete_eq, lookup_insert_eq.
  pose proof (computed_column enc g a e d Hrows) as Hcol.
  destruct (source_eqb _ g a e d) eqn:Heq.
  - eexists. split; [reflexivity|]. cbn.
    rewrite list_lookup_insert_eq by lia. f_equal.
    unfold EncoderSpec.source_column, EncoderSpec.overall_gain.
    cbn [gain distance]. rewrite (zero_source_muted g a e d Heq). reflexivity.
  - cbv zeta.
    destruct (F32.ltb (F32.div g (std_max d kHalf)) kNegative120dbInAmplitude).
    + injection Hcol as Hcol. rewrite Hcol. eexists. split; [reflexivity|].
      cbn. apply list_lookup_insert_eq. rewrite length_insert. lia.
    + destruct (GetShCoeffs a e (ambisonic_order_ enc) (ambisonic_order_ enc)
                  (zero_column (number_of_output_channels_ enc)))
        as [sh|]; [|discriminate].
      injection Hcol as Hcol. rewrite Hcol. eexists. split; [reflexivity|].
      cbn. apply list_lookup_insert_eq. rewrite length_insert. lia.
Qed.

End EncoderMore.

(** ** An encoder without sources *)

Section EncoderMuted.
Context {libm : Libm} {tables : ShTables}.
Import Encoder.

Lemma mul_zero_finite (x : float) :
  is_finite x = true -> exists s : bool, F32.mul F32.zero x = S754_zero s.
Proof.
  destruct x as [s|s| |s m e]; try discriminate; intros _; eexists; reflexivity.
Qed.

Lemma nth_zero_column (rows row : nat) :
  nth row (zero_column rows) F32.zero = F32.zero.
Proof.
  unfold zero_column. revert row.
  induction rows as [|rows IH]; intros [|row]; cbn; auto.
Qed.

Lemma nth_finite (frame : nat) (channel : list float) :
  Forall (fun x => is_finite x = true) channel ->
  is_finite (nth frame channel F32.zero) = true.
Proof.
  intros Hall. revert frame.
  induction Hall as [|x l Hx _ IH]; intros [|frame]; cbn; auto.
Qed.

Lemma encoded_sample_muted (rows : nat) (matrix input : list (list float))
    (row frame : nat) :
  Forall (fun column => column = zero_column rows) matrix ->
  Forall (Forall (fun x => is_finite x = true)) input ->
  encoded_sample matrix input row frame = F32.zero.
Proof.
  unfold encoded_sample. intros Hm. revert input.
  induction Hm as [|column matrix -> _ IH]; intros input Hin; [reflexivity|].
  destruct Hin as [|channel input Hch Hin]; [reflexivity|].
  cbn [zip zip_with foldl]. rewrite nth_zero_column.
  destruct (mul_zero_finite _ (nth_finite frame channel Hch)) as [s ->].
  replace (F32.add F32.zero (S754_zero s)) with F32.zero by (destruct s; reflexivity).
  apply IH. exact Hin.
Qed.

Lemma map_map_constant {A B C : Type} (f : A -> B -> C) (z : C)
    (rows : list A) (frames : list B) :
  (forall a b, f a b = z) ->
  map (fun a => map (f a) frames) rows =
  replicate (length rows) (replicate (length frames) z).
Proof.
  intros Hf. induction rows as [|row rows IH]; [reflexivity|].
  cbn [map length replicate]. f_equal; [|exact IH].
  clear IH. induction frames as [|frame frames IH]; [reflexivity|].
  cbn [map length replicate]. f_equal; [apply Hf|exact IH].
Qed.

(** X6: an encoder none of whose channels has a source, which is how it is
    constructed and how [RemoveSource] leaves a channel, encodes every
    finite input to silence. *)
Theorem ProcessPlanarAudioData_muted (enc : AmbisonicEncoder)
    (input_buffer output_buffer : AudioBuffer) :
  Forall (fun column => column = zero_column (number_of_output_channels_ enc))
    (encoding_matrix_ enc) ->
  Forall (Forall (fun x => is_finite x = true)) (channels input_buffer) ->
  number_of_input_channels_ enc = num_channels input_buffer ->
  number_of_output_channels_ enc = num_channels output_buffer ->
  num_frames input_buffer = num_frames output_buffer ->
  ProcessPlanarAudioData enc input_buffer output_buffer =
  Some (AudioBuffer_new (num_channels output_buffer) (num_frames output_buffer)).
Proof.
  intros Hm Hin Hnin Hnout Hfr. unfold ProcessPlanarAudioData.
  rewrite Hnin, Hnout, Hfr, !Nat.eqb_refl. cbn [negb].
  unfold AudioBuffer_new. do 2 f_equal.
  rewrite (map_map_constant _ F32.zero), !length_seq; [reflexivity|].
  intros row frame. eapply encoded_sample_muted; [exact Hm|exact Hin].
Qed.

End EncoderMuted.

Section ElementFacts.

Lemma imap_index_seq {A : Type} (f : A -> nat) (g : nat -> A -> A) (from : nat)
    (l : list A) :
  (forall i x, f (g i x) = (from + i)%nat) ->
  map f (imap g l) = seq from (length l).
Proof.
  revert from g. induction l as [|x l IH]; intros from g Hfg; [reflexivity|].
  cbn [imap map length seq]. rewrite Hfg, Nat.add_0_r. f_equal.
  apply IH. intros i y. unfold compose. rewrite Hfg. lia.
Qed.

(** [SetFirstChannelIndex] numbers the channels of each list from the
    first index on. *)
Lemma SetFirstChannelIndex_indices (cfg : Element.AudioElementConfig) (k : nat) :
  let cfg' := Element.SetFirstChannelIndex cfg k in
  map amb_channel_index (Element.ambisonic_channels_ cfg') =
    seq k (length (Element.ambisonic_channels_ cfg)) /\
  map ls_channel_index (Element.loudspeaker_channels_ cfg') =
    seq k (length (Element.loudspeaker_channels_ cfg)) /\
  map obj_channel_index (Element.object_channels_ cfg') =
    seq k (length (Element.object_channels_ cfg)).
Proof.
  cbn. repeat split; apply imap_index_seq; intros; reflexivity.
Qed.

End ElementFacts.

Lemma imap_imap {A B C : Type} (g : nat -> B -> C) (h : nat -> A -> B)
    (l : list A) :
  imap g (imap h l) = imap (fun i x => g i (h i x)) l.
Proof.
  apply list_eq. intros i. rewrite !list_lookup_imap.
  destruct (l !! i); reflexivity.
Qed.

(** X7: [SetFirstChannelIndex] forgets the index set before: setting it
    twice is setting it to the last value. *)
Theorem SetFirstChannelIndex_twice (cfg : Element.AudioElementConfig) (a b : nat) :
  Element.SetFirstChannelIndex (Element.SetFirstChannelIndex cfg a) b =
  Element.SetFirstChannelIndex cfg b.
Proof.
  unfold Element.SetFirstChannelIndex. cbn. rewrite !imap_imap. reflexivity.
Qed.

(** X8: a constructed element is well numbered whatever its type: it has as
    many input channels as its three lists hold channels, numbered from 0
    on; an Ambisonic element has [(order + 1)^2] of them, and every other
    element is rendered with the filters of the highest order. *)
Theorem AudioElementConfig_new_channels (type : AudioElementType) :
  exists cfg : Element.AudioElementConfig,
    Element.AudioElementConfig_new type = Returns cfg /\
    Element.type_ cfg = type /\
    Element.first_channel_index_ cfg = 0%nat /\
    channel_indices cfg = seq 0 (Element.number_of_input_channels_ cfg) /\
    (forall order : nat, GetAmbisonicOrder type = Some order ->
       Element.binaural_filters_ambisonic_order_ cfg = order /\
       Element.number_of_input_channels_ cfg = ((order + 1) * (order + 1))%nat /\
       Element.loudspeaker_channels_ cfg = [] /\ Element.object_channels_ cfg = []) /\
    (IsLoudspeakerLayoutType type = true ->
       Element.binaural_filters_ambisonic_order_ cfg = kMaxSupportedAmbisonicOrder /\
       Element.loudspeaker_channels_ cfg =
         imap (fun i ch => mkLoudspeakerChannel (ls_id ch) i (ls_azimuth ch)
                             (ls_elevation ch) (ls_distance ch) (ls_is_LFE ch))
           (LoudspeakerLayouts.getLoudspeakerLayout type) /\
       Element.ambisonic_channels_ cfg = [] /\ Element.object_channels_ cfg = []) /\
    (type = kObjectMono ->
       Element.binaural_filters_ambisonic_order_ cfg = kMaxSupportedAmbisonicOrder /\
       Element.object_channels_ cfg =
         [mkObjectChannel "kMono" 0 F32.one F32.zero F32.zero F32.one] /\
       Element.ambisonic_channels_ cfg = [] /\ Element.loudspeaker_channels_ cfg = []) /\
    (type = kInvalidType -> Element.number_of_input_channels_ cfg = 0%nat).
Proof.
  destruct type; eexists; (split; [vm_compute; reflexivity|]);
    vm_compute; repeat split; intros; try discriminate; try congruence;
    simplify_eq; reflexivity.
Qed.

Section LayoutFacts.
Context {libm : Libm} {tables : ShTables} {dsp : Dsp}.
Import Obr.

Lemma foldl_channels_shift (l : list Element.AudioElementConfig) (a : nat) :
  foldl (fun n e => (n + Element.number_of_input_channels_ e)%nat) a l =
  (a + total_channels l)%nat.
Proof.
  unfold total_channels. revert a.
  induction l as [|e l IH]; intros a; cbn [foldl]; [lia|].
  rewrite (IH (a + _)%nat), (IH (0 + _)%nat). lia.
Qed.

Lemma total_channels_cons (e : Element.AudioElementConfig)
    (l : list Element.AudioElementConfig) :
  total_channels (e :: l) =
  (Element.number_of_input_channels_ e + total_channels l)%nat.
Proof. unfold total_channels at 1. cbn [foldl]. rewrite foldl_channels_shift. lia. Qed.

Lemma total_channels_snoc (l : list Element.AudioElementConfig)
    (e : Element.AudioElementConfig) :
  total_channels (l ++ [e]) =
  (total_channels l + Element.number_of_input_channels_ e)%nat.
Proof. unfold total_channels. rewrite foldl_app. reflexivity. Qed.

Lemma channels_contiguous_snoc (l : list Element.AudioElementConfig)
    (e : Element.AudioElementConfig) : forall from : nat,
  channels_contiguous from (l ++ [e]) <->
  channels_contiguous from l /\
  Element.first_channel_index_ e = (from + total_channels l)%nat /\
  channel_indices e =
    seq (from + total_channels l) (Element.number_of_input_channels_ e).
Proof.
  induction l as [|x l IH]; intros from.
  - cbn [app channels_contiguous]. unfold total_channels. cbn [foldl].
    rewrite Nat.add_0_r. tauto.
  - cbn [app channels_contiguous]. rewrite IH, total_channels_cons.
    rewrite !Nat.add_assoc. tauto.
Qed.

Lemma channels_contiguous_last (l : list Element.AudioElementConfig)
    (back : Element.AudioElementConfig) (from : nat) :
  channels_contiguous from l -> last l = Some back ->
  (Element.first_channel_index_ back + Element.number_of_input_channels_ back =
   from + total_channels l)%nat.
Proof.
  intros Hc Hlast. apply last_Some in Hlast as [l' ->].
  apply channels_contiguous_snoc in Hc as (_ & Hfirst & _).
  rewrite total_channels_snoc. lia.
Qed.

Lemma channels_contiguous_removelast (l : list Element.AudioElementConfig)
    (from : nat) :
  channels_contiguous from l -> channels_contiguous from (removelast l).
Proof.
  destruct l as [|e l' _] using rev_ind; [intros; exact I|].
  rewrite removelast_last. intros Hc.
  apply channels_contiguous_snoc in Hc as [Hc _]. exact Hc.
Qed.

Lemma total_channels_removelast (l : list Element.AudioElementConfig) :
  (total_channels (removelast l) <= total_channels l)%nat.
Proof.
  destruct l as [|e l' _] using rev_ind; [cbn; lia|].
  rewrite removelast_last, total_channels_snoc. lia.
Qed.

Lemma GetNumberOfInputChannels_total (s : ObrImpl) :
  GetNumberOfInputChannels s = total_channels (audio_elements_ s).
Proof. reflexivity. Qed.

Lemma SetFirstChannelIndex_again (cfg : Element.AudioElementConfig) (a b : nat) :
  Element.SetFirstChannelIndex (Element.SetFirstChannelIndex cfg a) b =
  Element.SetFirstChannelIndex cfg b.
Proof.
  unfold Element.SetFirstChannelIndex. cbn. rewrite !imap_imap. reflexivity.
Qed.

(** The element a successful [AddAudioElement] appends. *)
Lemma AddAudioElement_ok_appends (s s' : ObrImpl) (type : AudioElementType)
    (st : Status) :
  AddAudioElement s type = Returns (st, s') ->
  status_ok st = true ->
  exists cfg : Element.AudioElementConfig,
    Element.AudioElementConfig_new type = Returns cfg /\
    (forall back, last (audio_elements_ s) = Some back -> Element.type_ back = type) /\
    (GetNumberOfInputChannels s + Element.number_of_input_channels_ cfg <=
     kMaxSupportedNumInputChannels)%nat /\
    audio_elements_ s' =
    audio_elements_ s ++
    [Element.SetFirstChannelIndex cfg
       match last (audio_elements_ s) with
       | Some back => (Element.first_channel_index_ back +
                       Element.number_of_input_channels_ back)%nat
       | None => 0%nat
       end].
Proof.
  intros Hadd Hst. unfold AddAudioElement in Hadd.
  destruct (AudioElementConfig_new_total type) as [cfg Hcfg].
  rewrite Hcfg in Hadd. unfold mbind, outcome_bind in Hadd.
  exists cfg. split; [exact Hcfg|].
  destruct (last (audio_elements_ s)) as [back|] eqn:Hlast.
  - destruct (decide (Element.type_ back = type)) as [Hsame|Hdiff];
      [|injection Hadd as <- <-; discriminate Hst].
    destruct (kMaxSupportedNumInputChannels <? _)%nat eqn:Hbudget;
      [injection Hadd as <- <-; discriminate Hst|].
    apply Nat.ltb_ge in Hbudget. cbn in Hbudget.
    apply InitializeDsp_returns in Hadd as (Hel & _ & _).
    split; [intros ? [= <-]; exact Hsame|]. split; [exact Hbudget|]. exact Hel.
  - destruct (kMaxSupportedNumInputChannels <? _)%nat eqn:Hbudget;
      [injection Hadd as <- <-; discriminate Hst|].
    apply Nat.ltb_ge in Hbudget.
    apply InitializeDsp_returns in Hadd as (Hel & _ & _).
    split; [discriminate|]. split; [exact Hbudget|].
    cbn [audio_elements_ set_audio_elements] in Hel. rewrite Hel. do 2 f_equal.
    revert Hcfg. unfold Element.AudioElementConfig_new, mbind, outcome_bind.
    destruct (if IsAmbisonicsType type then _ else _) as [cfg0|]; [|discriminate].
    intros [= <-]. symmetry. apply SetFirstChannelIndex_again.
Qed.

Lemma AudioElementConfig_new_lists (type : AudioElementType)
    (cfg : Element.AudioElementConfig) :
  Element.AudioElementConfig_new type = Returns cfg ->
  let n := Element.number_of_input_channels_ cfg in
  let la := length (Element.ambisonic_channels_ cfg) in
  let ll := length (Element.loudspeaker_channels_ cfg) in
  let lo := length (Element.object_channels_ cfg) in
  (la = n /\ ll = 0 /\ lo = 0)%nat \/ (la = 0 /\ ll = n /\ lo = 0)%nat \/
  (la = 0 /\ ll = 0 /\ lo = n)%nat.
Proof.
  destruct type; intros Hnew; vm_compute in Hnew; injection Hnew as <-;
    vm_compute; tauto.
Qed.

Lemma SetFirstChannelIndex_layout (type : AudioElementType)
    (cfg : Element.AudioElementConfig) (k : nat) :
  Element.AudioElementConfig_new type = Returns cfg ->
  let cfg' := Element.SetFirstChannelIndex cfg k in
  Element.type_ cfg' = type /\
  Element.first_channel_index_ cfg' = k /\
  Element.number_of_input_channels_ cfg' = Element.number_of_input_channels_ cfg /\
  channel_indices cfg' = seq k (Element.number_of_input_channels_ cfg).
Proof.
  intros Hnew. cbv zeta.
  destruct (AudioElementConfig_new_fields type cfg Hnew) as (Htype & _).
  split; [exact Htype|]. split; [reflexivity|]. split; [reflexivity|].
  unfold channel_indices.
  destruct (SetFirstChannelIndex_indices cfg k) as (Ha & Hl & Ho).
  rewrite Ha, Hl, Ho.
  destruct (AudioElementConfig_new_lists type cfg Hnew)
    as [(-> & -> & ->)|[(-> & -> & ->)|(-> & -> & ->)]]; cbn [seq app];
    rewrite ?app_nil_r; reflexivity.
Qed.

Lemma set_object_position_layout (a e d : float) (cfg : Element.AudioElementConfig) :
  Element.type_ (set_object_position a e d cfg) = Element.type_ cfg /\
  Element.first_channel_index_ (set_object_position a e d cfg) =
    Element.first_channel_index_ cfg /\
  Element.number_of_input_channels_ (set_object_position a e d cfg) =
    Element.number_of_input_channels_ cfg /\
  channel_indices (set_object_position a e d cfg) = channel_indices cfg.
Proof.
  repeat split. unfold channel_indices, set_object_position. cbn.
  rewrite map_map. reflexivity.
Qed.

Lemma channels_contiguous_insert (cfg cfg' : Element.AudioElementConfig) :
  Element.first_channel_index_ cfg' = Element.first_channel_index_ cfg ->
  Element.number_of_input_channels_ cfg' = Element.number_of_input_channels_ cfg ->
  channel_indices cfg' = channel_indices cfg ->
  forall (l : list Element.AudioElementConfig) (i from : nat),
    l !! i = Some cfg ->
    channels_contiguous from l -> channels_contiguous from (<[i := cfg']> l).
Proof.
  intros Hf Hn Hi. induction l as [|x l IH]; intros i from Hlook Hc; [exact I|].
  destruct i as [|i]; cbn in Hlook |- *.
  - injection Hlook as ->. destruct Hc as (H1 & H2 & H3).
    rewrite Hf, Hn, Hi. repeat split; assumption.
  - destruct Hc as (H1 & H2 & H3). repeat split; try assumption.
    apply IH; assumption.
Qed.

Lemma total_channels_insert (cfg cfg' : Element.AudioElementConfig) :
  Element.number_of_input_channels_ cfg' = Element.number_of_input_channels_ cfg ->
  forall (l : list Element.AudioElementConfig) (i : nat),
    l !! i = Some cfg -> total_channels (<[i := cfg']> l) = total_channels l.
Proof.
  intros Hn. induction l as [|x l IH]; intros i Hlook; [reflexivity|].
  destruct i as [|i]; cbn in Hlook.
  - injection Hlook as ->. change (<[0%nat := cfg']> (cfg :: l)) with (cfg' :: l).
    rewrite !total_channels_cons. lia.
  - change (<[S i := cfg']> (x :: l)) with (x :: <[i := cfg']> l).
    rewrite !total_channels_cons. rewrite (IH i Hlook). reflexivity.
Qed.

(** What the operations do to the list of elements. *)
Lemma RemoveLastAudioElement_elements (s s' : ObrImpl) (st : Status) :
  RemoveLastAudioElement s = Returns (st, s') ->
  audio_elements_ s' = removelast (audio_elements_ s).
Proof.
  intros Hrem. unfold RemoveLastAudioElement in Hrem.
  destruct (audio_elements_ s) as [|e0 l0] eqn:Hel.
  - injection Hrem as <- <-. rewrite Hel. reflexivity.
  - cbn [audio_elements_ set_audio_elements] in Hrem.
    destruct (removelast (e0 :: l0)) as [|e1 l1] eqn:Hrl.
    + injection Hrem as <- <-. reflexivity.
    + unfold mbind, outcome_bind in Hrem.
      destruct (InitializeDsp _) as [[st1 s1]|] eqn:Hinit; [|discriminate].
      apply InitializeDsp_returns in Hinit as (Hel1 & _ & _).
      cbn [audio_elements_ set_audio_elements] in Hel1.
      destruct (negb (status_ok st1)).
      * injection Hrem as <- <-. exact Hel1.
      * destruct (UpdateAmbisonicEncoder s1) as [[st2 s2]|] eqn:Hupd; [|discriminate].
        apply UpdateAmbisonicEncoder_returns in Hupd as (Hel2 & _).
        destruct (negb (status_ok st2)); injection Hrem as <- <-; congruence.
Qed.

Lemma UpdateObjectPosition_elements (s s' : ObrImpl) (i : nat) (a e d : float)
    (st : Status) :
  UpdateObjectPosition s i a e d = Returns (st, s') ->
  match audio_elements_ s !! i with
  | None => s' = s
  | Some cfg =>
      match Element.object_channels_ cfg with
      | [] => s' = s
      | _ :: _ =>
          audio_elements_ s' =
          <[i := set_object_position a e d cfg]> (audio_elements_ s)
      end
  end.
Proof.
  intros Hupd. unfold UpdateObjectPosition in Hupd.
  destruct (audio_elements_ s !! i) as [cfg|] eqn:Hcfg;
    [|injection Hupd as <- <-; reflexivity].
  destruct (Element.object_channels_ cfg) eqn:Hobj;
    [injection Hupd as <- <-; reflexivity|].
  unfold mbind, outcome_bind in Hupd.
  destruct (UpdateAmbisonicEncoder _) as [[st1 s1]|] eqn:Hu; [|discriminate].
  apply UpdateAmbisonicEncoder_returns in Hu as (Hel & _).
  cbn [audio_elements_ set_audio_elements] in Hel.
  destruct (negb (status_ok st1)); injection Hupd as <- <-; exact Hel.
Qed.

Lemma reachable_layout_inv (s : ObrImpl) : reachable s -> layout_inv s.
Proof.
  induction 1 as [b rate s Hnew|s s' type st Hreach IH Hadd|s s' st _ IH Hrem
                 |s s' i a e d st _ IH Hupd|s enable _ IH|s w x y z _ IH
                 |s s' input output output' _ IH Hproc].
  - unfold ObrImpl_new, mbind, outcome_bind, check in Hnew.
    destruct (0 <? b)%nat; [|discriminate]. destruct (0 <? rate); [|discriminate].
    injection Hnew as <-. split; [exact I|]. split; [cbn; lia|].
    intros e1 e2 He1. cbn in He1. inversion He1.
  - destruct (status_ok st) eqn:Hst.
    + destruct (AddAudioElement_ok_appends s s' type st Hadd Hst)
        as (cfg & Hcfg & Hback & Hbudget & Hel).
      destruct IH as (Hc & Hb & Hty).
      set (k := match last (audio_elements_ s) with
                | Some back => _ | None => 0%nat end) in Hel.
      destruct (SetFirstChannelIndex_layout type cfg k Hcfg) as (Ht & Hf & Hn & Hi).
      assert (Hk : k = total_channels (audio_elements_ s)).
      { unfold k. destruct (last (audio_elements_ s)) as [back|] eqn:Hlast.
        - rewrite (channels_contiguous_last _ _ _ Hc Hlast). reflexivity.
        - apply last_None in Hlast. rewrite Hlast. reflexivity. }
      unfold layout_inv. rewrite GetNumberOfInputChannels_total, Hel.
      split; [|split].
      * apply channels_contiguous_snoc. split; [exact Hc|].
        rewrite Hf, Hi, Hn, Hk. split; reflexivity.
      * rewrite total_channels_snoc, Hn.
        rewrite GetNumberOfInputChannels_total in Hbudget. exact Hbudget.
      * assert (Hall : forall e0, e0 ∈ audio_elements_ s ++
                         [Element.SetFirstChannelIndex cfg k] ->
                         Element.type_ e0 = type).
        { intros e0 He0. apply elem_of_app in He0 as [He0|He0].
          - destruct (last (audio_elements_ s)) as [back|] eqn:Hlast.
            + rewrite <- (Hback back eq_refl). apply Hty; [exact He0|].
              apply last_Some in Hlast as [l' ->]. apply elem_of_app. right.
              apply list_elem_of_singleton. reflexivity.
            + apply last_None in Hlast. rewrite Hlast in He0. inversion He0.
          - apply list_elem_of_singleton in He0. subst e0. exact Ht. }
        intros e1 e2 He1 He2. rewrite (Hall e1 He1), (Hall e2 He2). reflexivity.
    + pose proof (reachable_elements_ok s Hreach) as Hok.
      destruct (AddAudioElement_cases s s' type st Hok Hadd)
        as [(-> & _)|[(-> & _)|(Hst' & _)]]; try exact IH. congruence.
  - destruct IH as (Hc & Hb & Hty).
    pose proof (RemoveLastAudioElement_elements s s' st Hrem) as Hel.
    unfold layout_inv. rewrite GetNumberOfInputChannels_total, Hel.
    split; [apply channels_contiguous_removelast, Hc|]. split.
    + pose proof (total_channels_removelast (audio_elements_ s)).
      rewrite GetNumberOfInputChannels_total in Hb. lia.
    + assert (Hsub : forall e0, e0 ∈ removelast (audio_elements_ s) ->
                       e0 ∈ audio_elements_ s).
      { intros e0. destruct (audio_elements_ s) as [|y l' _] using rev_ind;
          [intros He0; exact He0|].
        rewrite removelast_last. intros He0. apply elem_of_app. left. exact He0. }
      intros e1 e2 He1 He2. apply Hty; apply Hsub; assumption.
  - destruct IH as (Hc & Hb & Hty).
    pose proof (UpdateObjectPosition_elements s s' i a e d st Hupd) as Hel.
    destruct (audio_elements_ s !! i) as [cfg|] eqn:Hcfg;
      [|subst s'; repeat split; assumption].
    destruct (Element.object_channels_ cfg) eqn:Hobj;
      [subst s'; repeat split; assumption|].
    { destruct (set_object_position_layout a e d cfg) as (Ht & Hf & Hn & Hi).
      unfold layout_inv. rewrite GetNumberOfInputChannels_total, Hel.
      split; [|split].
      * apply (channels_contiguous_insert cfg); assumption.
      * rewrite (total_channels_insert cfg) by assumption.
        rewrite GetNumberOfInputChannels_total in Hb. exact Hb.
      * assert (Hin : forall e0, e0 ∈ <[i := set_object_position a e d cfg]>
                                       (audio_elements_ s) ->
                        exists e0', e0' ∈ audio_elements_ s /\
                                    Element.type_ e0 = Element.type_ e0').
        { intros e0 He0. apply list_elem_of_lookup in He0 as [j Hj].
          destruct (decide (i = j)) as [<-|Hne].
          - rewrite list_lookup_insert_eq in Hj
              by (apply lookup_lt_Some in Hcfg; exact Hcfg).
            injection Hj as <-. exists cfg. split; [|exact Ht].
            apply list_elem_of_lookup. exists i. exact Hcfg.
          - rewrite list_lookup_insert_ne in Hj by exact Hne.
            exists e0. split; [|reflexivity].
            apply list_elem_of_lookup. exists j. exact Hj. }
        intros e1 e2 He1 He2.
        destruct (Hin e1 He1) as (e1' & He1' & ->).
        destruct (Hin e2 He2) as (e2' & He2' & ->).
        apply Hty; assumption. }
  - exact IH.
  - exact IH.
  - unfold layout_inv in *. rewrite GetNumberOfInputChannels_total in *.
    rewrite (Process_elements _ _ _ _ _ Hproc). exact IH.
Qed.

End LayoutFacts.

Section DspFacts.
Context {libm : Libm} {tables : ShTables} {dsp : Dsp}.
Import Obr.

(** The state that a successful [InitializeDsp] leaves behind. *)
Lemma InitializeDsp_ok_state (s s' : ObrImpl) (st : Status)
    (first : Element.AudioElementConfig) (rest : list Element.AudioElementConfig) :
  InitializeDsp s = Returns (st, s') ->
  audio_elements_ s = first :: rest ->
  status_ok st = true ->
  let order := Element.binaural_filters_ambisonic_order_ first in
  st = OkStatus /\
  (1 <= order <= 7)%nat /\
  buffer_size_per_channel_ s' = buffer_size_per_channel_ s /\
  sampling_rate_ s' = sampling_rate_ s /\
  head_tracking_enabled_ s' = head_tracking_enabled_ s /\
  world_rotation_ s' = world_rotation_ s /\
  audio_elements_ s' = audio_elements_ s /\
  ambisonic_rotator_ s' = Some (AmbisonicRotator_new order) /\
  peak_limiter_ s' =
    Some (Limiter.PeakLimiter_new (sampling_rate_ s) (F64.of_Z 50)
            (F64.div (F64.of_Z (-1)) (F64.of_Z 2))) /\
  ambisonic_mix_bed_ s' =
    AudioBuffer_new ((order + 1) * (order + 1)) (buffer_size_per_channel_ s) /\
  (exists hl hr,
     sh_hrirs_L_ s' = Some hl /\ sh_hrirs_R_ s' = Some hr /\
     ambisonic_binaural_decoder_ s' =
       Some (AmbisonicBinauralDecoder_new hl hr (buffer_size_per_channel_ s))) /\
  match GetAmbisonicEncoderSourceChannelIndices s with
  | [] => ambisonic_encoder_ s' = None /\
          ambisonic_encoder_input_buffer_ s' = ambisonic_encoder_input_buffer_ s
  | indices =>
      (exists enc, ambisonic_encoder_ s' = Some enc) /\
      ambisonic_encoder_input_buffer_ s' =
        AudioBuffer_new (length indices) (buffer_size_per_channel_ s)
  end.
Proof.
  unfold InitializeDsp. intros Hi Hel Hst. rewrite Hel in Hi.
  unfold mbind, outcome_bind, check in Hi. cbv zeta.
  destruct (negb (Element.binaural_filters_ambisonic_order_ first =? 0)%nat);
    [|discriminate].
  destruct (kMinSupportedAmbisonicOrder <=? _)%nat eqn:Hmin; [|discriminate].
  destruct (_ <=? kMaxSupportedAmbisonicOrder)%nat eqn:Hmax; [|discriminate].
  apply Nat.leb_le in Hmin, Hmax.
  unfold kMinSupportedAmbisonicOrder in Hmin. unfold kMaxSupportedAmbisonicOrder in Hmax.
  destruct (GetNumberOfInputChannels s =? 0)%nat;
    [injection Hi as <- <-; discriminate Hst|].
  cbn [ResetDsp status_ok OkStatus code negb] in Hi.
  change (GetAmbisonicEncoderSourceChannelIndices (set_mix_bed _ _))
    with (GetAmbisonicEncoderSourceChannelIndices s) in Hi.
  destruct (GetAmbisonicEncoderSourceChannelIndices s) as [|i0 indices'] eqn:Hind.
  - cbn [status_ok OkStatus code negb] in Hi.
    cbn [sampling_rate_ set_rotator set_mix_bed buffer_size_per_channel_] in Hi.
    destruct (CreateShHrirsFromAssets _ _) as [hl|] eqn:Hl; [|discriminate].
    destruct (CreateShHrirsFromAssets (_ +:+ "OA_R") _) as [hr|] eqn:Hr;
      [|discriminate].
    destruct (num_channels hl =? num_channels hr)%nat; [|discriminate].
    destruct (num_frames hl =? num_frames hr)%nat; [|discriminate].
    injection Hi as <- <-. split; [reflexivity|]. split; [lia|].
    cbn. repeat split; try reflexivity. exists hl, hr. repeat split; reflexivity.
  - destruct (Encoder.AmbisonicEncoder_new _ _) as [enc|]; [|discriminate].
    destruct (UpdateAmbisonicEncoder _) as [[st1 s1]|] eqn:Hu; [|discriminate].
    pose proof Hu as Hu'. unfold UpdateAmbisonicEncoder in Hu'.
    cbn [ambisonic_encoder_ set_encoder] in Hu'.
    unfold mbind, outcome_bind in Hu'.
    destruct (snd _) as [enc'|]; [|discriminate]. injection Hu' as <- <-.
    cbn [status_ok OkStatus code negb] in Hi.
    cbn [sampling_rate_ set_rotator set_mix_bed set_encoder set_encoder_input
         buffer_size_per_channel_] in Hi.
    destruct (CreateShHrirsFromAssets _ _) as [hl|] eqn:Hl; [|discriminate].
    destruct (CreateShHrirsFromAssets (_ +:+ "OA_R") _) as [hr|] eqn:Hr;
      [|discriminate].
    destruct (num_channels hl =? num_channels hr)%nat; [|discriminate].
    destruct (num_frames hl =? num_frames hr)%nat; [|discriminate].
    injection Hi as <- <-. split; [reflexivity|]. split; [lia|].
    cbn. repeat split; try reflexivity; [exists hl, hr; repeat split; reflexivity|].
    eexists; reflexivity.
Qed.

End DspFacts.

Section RendererMore.
Context {libm : Libm} {tables : ShTables} {dsp : Dsp}.
Import Obr.

Ltac break_match_hyps :=
  unfold mbind, outcome_bind, check in *;
  repeat (match goal with
          | Hyp : context [match ?x with _ => _ end] |- _ => destruct x eqn:?
          | Hyp : context [if ?b then _ else _] |- _ => destruct b eqn:?
          end; try discriminate).

(** The fields that the stages of [Process] leave alone. *)
Lemma EncodeStage_keeps (s s' : ObrImpl) (input : AudioBuffer) :
  EncodeStage s input = Returns s' ->
  buffer_size_per_channel_ s' = buffer_size_per_channel_ s /\
  sampling_rate_ s' = sampling_rate_ s /\
  head_tracking_enabled_ s' = head_tracking_enabled_ s /\
  world_rotation_ s' = world_rotation_ s /\
  audio_elements_ s' = audio_elements_ s /\
  ambisonic_encoder_ s' = ambisonic_encoder_ s /\
  ambisonic_rotator_ s' = ambisonic_rotator_ s /\
  sh_hrirs_L_ s' = sh_hrirs_L_ s /\ sh_hrirs_R_ s' = sh_hrirs_R_ s /\
  ambisonic_binaural_decoder_ s' = ambisonic_binaural_decoder_ s /\
  peak_limiter_ s' = peak_limiter_ s.
Proof.
  unfold EncodeStage. intros Hstage. break_match_hyps;
    simplify_eq; repeat split; cbn; congruence.
Qed.

Lemma RotateStage_keeps (s s' : ObrImpl) :
  RotateStage s = Returns s' ->
  buffer_size_per_channel_ s' = buffer_size_per_channel_ s /\
  sampling_rate_ s' = sampling_rate_ s /\
  head_tracking_enabled_ s' = head_tracking_enabled_ s /\
  world_rotation_ s' = world_rotation_ s /\
  audio_elements_ s' = audio_elements_ s /\
  ambisonic_encoder_ s' = ambisonic_encoder_ s /\
  (is_Some (ambisonic_rotator_ s) -> is_Some (ambisonic_rotator_ s')) /\
  sh_hrirs_L_ s' = sh_hrirs_L_ s /\ sh_hrirs_R_ s' = sh_hrirs_R_ s /\
  ambisonic_binaural_decoder_ s' = ambisonic_binaural_decoder_ s /\
  peak_limiter_ s' = peak_limiter_ s.
Proof.
  unfold RotateStage. intros Hstage. break_match_hyps;
    simplify_eq; repeat split; cbn; try congruence; intros; eauto.
Qed.

Lemma DecodeLimitStage_keeps (s s' : ObrImpl) (output output' : AudioBuffer) :
  DecodeLimitStage s output = Returns (s', output') ->
  buffer_size_per_channel_ s' = buffer_size_per_channel_ s /\
  sampling_rate_ s' = sampling_rate_ s /\
  head_tracking_enabled_ s' = head_tracking_enabled_ s /\
  world_rotation_ s' = world_rotation_ s /\
  audio_elements_ s' = audio_elements_ s /\
  ambisonic_encoder_ s' = ambisonic_encoder_ s /\
  ambisonic_rotator_ s' = ambisonic_rotator_ s /\
  sh_hrirs_L_ s' = sh_hrirs_L_ s /\ sh_hrirs_R_ s' = sh_hrirs_R_ s /\
  is_Some (ambisonic_binaural_decoder_ s') /\
  is_Some (peak_limiter_ s').
Proof.
  unfold DecodeLimitStage. intros Hstage. break_match_hyps;
    simplify_eq; repeat split; cbn; try congruence; eauto.
Qed.

Lemma Process_stages (s s' : ObrImpl) (input output output' : AudioBuffer) :
  Process s input output = Returns (s', output') ->
  num_channels input = GetNumberOfInputChannels s /\
  num_frames input = buffer_size_per_channel_ s /\
  num_channels output = GetNumberOfOutputChannels /\
  num_frames output = buffer_size_per_channel_ s /\
  exists s1 s2,
    EncodeStage s input = Returns s1 /\ RotateStage s1 = Returns s2 /\
    DecodeLimitStage s2 output = Returns (s', output').
Proof.
  unfold Process. intros Hp. unfold mbind, outcome_bind, check in Hp.
  destruct (num_channels input =? _)%nat eqn:H1; [|discriminate].
  destruct (num_frames input =? _)%nat eqn:H2; [|discriminate].
  destruct (num_channels output =? _)%nat eqn:H3; [|discriminate].
  destruct (num_frames output =? _)%nat eqn:H4; [|discriminate].
  apply Nat.eqb_eq in H1, H2, H3, H4.
  destruct (EncodeStage s input) as [s1|] eqn:He; [|discriminate].
  destruct (RotateStage s1) as [s2|] eqn:Hr; [|discriminate].
  repeat split; try assumption. exists s1, s2. repeat split; assumption.
Qed.

Lemma ambisonic_elements_not_encoded (l : list Element.AudioElementConfig) :
  Forall (fun e => IsAmbisonicsType (Element.type_ e) = true) l ->
  flat_map (fun e =>
              if IsLoudspeakerLayoutType (Element.type_ e) ||
                 IsObjectType (Element.type_ e)
              then map (fun i => (Element.first_channel_index_ e + i)%nat)
                     (seq 0 (Element.number_of_input_channels_ e))
              else []) l = [].
Proof.
  induction 1 as [|e l He _ IH]; [reflexivity|].
  cbn [flat_map]. rewrite IH.
  destruct (Element.type_ e); try discriminate He; reflexivity.
Qed.

(** X9: in every state a renderer can reach, all configured elements are
    of one type. *)
Theorem reachable_same_type (s : ObrImpl) (e1 e2 : Element.AudioElementConfig) :
  reachable s ->
  e1 ∈ audio_elements_ s -> e2 ∈ audio_elements_ s ->
  Element.type_ e1 = Element.type_ e2.
Proof.
  intros Hreach. destruct (reachable_layout_inv s Hreach) as (_ & _ & Hty).
  apply Hty.
Qed.

(** X10: in every state a renderer can reach, the elements occupy the input
    channels back to back from channel 0 on, each channel carrying its own
    index, and the channel budget is respected. *)
Theorem reachable_channel_layout (s : ObrImpl) :
  reachable s ->
  channels_contiguous 0 (audio_elements_ s) /\
  (GetNumberOfInputChannels s <= kMaxSupportedNumInputChannels)%nat.
Proof.
  intros Hreach. destruct (reachable_layout_inv s Hreach) as (Hc & Hb & _).
  split; assumption.
Qed.

(** X11: what a successful [AddAudioElement] leaves behind: the element
    appended at the first free input channel, and the DSP set up afresh for
    the order of the first element. *)
Theorem AddAudioElement_ok_state (s s' : ObrImpl) (type : AudioElementType)
    (st : Status) :
  reachable s ->
  AddAudioElement s type = Returns (st, s') ->
  status_ok st = true ->
  exists (cfg first : Element.AudioElementConfig),
    Element.AudioElementConfig_new type = Returns cfg /\
    audio_elements_ s' =
      audio_elements_ s ++
      [Element.SetFirstChannelIndex cfg (GetNumberOfInputChannels s)] /\
    GetNumberOfInputChannels s' =
      (GetNumberOfInputChannels s + Element.number_of_input_channels_ cfg)%nat /\
    head (audio_elements_ s') = Some first /\
    let order := Element.binaural_filters_ambisonic_order_ first in
    ambisonic_mix_bed_ s' =
      AudioBuffer_new ((order + 1) * (order + 1)) (buffer_size_per_channel_ s) /\
    ambisonic_rotator_ s' = Some (AmbisonicRotator_new order) /\
    peak_limiter_ s' =
      Some (Limiter.PeakLimiter_new (sampling_rate_ s) (F64.of_Z 50)
              (F64.div (F64.of_Z (-1)) (F64.of_Z 2))) /\
    is_Some (ambisonic_binaural_decoder_ s') /\
    (ambisonic_encoder_ s' = None <->
     GetAmbisonicEncoderSourceChannelIndices s' = []) /\
    head_tracking_enabled_ s' = head_tracking_enabled_ s /\
    world_rotation_ s' = world_rotation_ s /\
    buffer_size_per_channel_ s' = buffer_size_per_channel_ s /\
    sampling_rate_ s' = sampling_rate_ s.
Proof.
  intros Hreach Hadd Hst.
  destruct (AddAudioElement_ok_appends s s' type st Hadd Hst)
    as (cfg & Hcfg & Hback & Hbudget & Hel).
  destruct (reachable_layout_inv s Hreach) as (Hc & _ & _).
  assert (Hk : match last (audio_elements_ s) with
               | Some back => (Element.first_channel_index_ back +
                               Element.number_of_input_channels_ back)%nat
               | None => 0%nat
               end = GetNumberOfInputChannels s).
  { rewrite GetNumberOfInputChannels_total.
    destruct (last (audio_elements_ s)) as [back|] eqn:Hlast.
    - rewrite (channels_contiguous_last _ _ _ Hc Hlast). reflexivity.
    - apply last_None in Hlast. rewrite Hlast. reflexivity. }
  rewrite Hk in Hel.
  (* the call of InitializeDsp inside AddAudioElement *)
  assert (Hinit : InitializeDsp
                    (set_audio_elements s (audio_elements_ s')) = Returns (st, s')).
  { rewrite Hel, <- Hk. revert Hadd. unfold AddAudioElement.
    rewrite Hcfg. unfold mbind, outcome_bind.
    destruct (last (audio_elements_ s)) as [back|] eqn:Hlast.
    - destruct (decide (Element.type_ back = type));
        [|intros [= <- <-]; discriminate Hst].
      destruct (kMaxSupportedNumInputChannels <? _)%nat;
        [intros [= <- <-]; discriminate Hst|]. intros H; exact H.
    - destruct (kMaxSupportedNumInputChannels <? _)%nat;
        [intros [= <- <-]; discriminate Hst|].
      replace (Element.SetFirstChannelIndex cfg 0) with cfg; [intros H; exact H|].
      revert Hcfg. unfold Element.AudioElementConfig_new, mbind, outcome_bind.
      destruct (if IsAmbisonicsType type then _ else _) as [cfg0|]; [|discriminate].
      intros [= <-]. symmetry. apply SetFirstChannelIndex_again. }
  destruct (audio_elements_ s') as [|first rest] eqn:Hel'.
  { destruct (audio_elements_ s); discriminate Hel. }
  destruct (InitializeDsp_ok_state _ s' st first rest Hinit eq_refl Hst)
    as (_ & _ & Hbs & Hsr & Hht & Hwr & _ & Hrot & Hlim & Hbed & (hl & hr & _ & _ & Hdec)
        & Henc).
  cbn [buffer_size_per_channel_ sampling_rate_ head_tracking_enabled_
       world_rotation_ set_audio_elements] in *.
  assert (Hind : GetAmbisonicEncoderSourceChannelIndices
                   (set_audio_elements s (first :: rest)) =
                 GetAmbisonicEncoderSourceChannelIndices s').
  { unfold GetAmbisonicEncoderSourceChannelIndices. rewrite Hel'. reflexivity. }
  rewrite Hind in Henc.
  exists cfg, first. split; [exact Hcfg|]. split; [exact Hel|].
  split.
  { rewrite !GetNumberOfInputChannels_total, Hel'.
    rewrite GetNumberOfInputChannels_total in Hel. rewrite Hel.
    rewrite total_channels_snoc. reflexivity. }
  split; [reflexivity|]. cbv zeta.
  split; [exact Hbed|]. split; [exact Hrot|]. split; [exact Hlim|].
  split; [rewrite Hdec; eauto|].
  split.
  { destruct (GetAmbisonicEncoderSourceChannelIndices s').
    - destruct Henc as [Henc _]. rewrite Henc. tauto.
    - destruct Henc as [[enc Henc] _]. rewrite Henc. split; discriminate. }
  repeat split; assumption.
Qed.

(** X12: [RemoveLastAudioElement] on an empty renderer reports an error and
    changes nothing; removing the only element succeeds and leaves the DSP
    as it is; in every case the last element is gone when the call
    returns. *)
Theorem RemoveLastAudioElement_spec (s : ObrImpl) :
  (audio_elements_ s = [] ->
   RemoveLastAudioElement s =
   Returns (FailedPreconditionError "No audio elements to remove.", s)) /\
  (forall e, audio_elements_ s = [e] ->
   RemoveLastAudioElement s = Returns (OkStatus, set_audio_elements s [])) /\
  (forall st s', RemoveLastAudioElement s = Returns (st, s') ->
   audio_elements_ s' = removelast (audio_elements_ s) /\
   buffer_size_per_channel_ s' = buffer_size_per_channel_ s /\
   sampling_rate_ s' = sampling_rate_ s /\
   head_tracking_enabled_ s' = head_tracking_enabled_ s /\
   world_rotation_ s' = world_rotation_ s).
Proof.
  split; [|split].
  - intros Hel. unfold RemoveLastAudioElement. rewrite Hel. reflexivity.
  - intros e Hel. unfold RemoveLastAudioElement. rewrite Hel. reflexivity.
  - intros st s' Hrem.
    split; [exact (RemoveLastAudioElement_elements s s' st Hrem)|].
    unfold RemoveLastAudioElement in Hrem.
    destruct (audio_elements_ s) as [|e0 l0] eqn:Hel.
    { injection Hrem as <- <-. repeat split; reflexivity. }
    cbn [audio_elements_ set_audio_elements] in Hrem.
    destruct (removelast (e0 :: l0)) as [|e1 l1] eqn:Hrl.
    { injection Hrem as <- <-. repeat split; reflexivity. }
    unfold mbind, outcome_bind in Hrem.
    destruct (InitializeDsp _) as [[st1 s1]|] eqn:Hinit; [|discriminate].
    destruct (status_ok st1) eqn:Hst1; cbn [negb] in Hrem.
    + destruct (InitializeDsp_ok_state _ s1 st1 e1 l1 Hinit eq_refl Hst1)
        as (_ & _ & Hbs & Hsr & Hht & Hwr & _).
      cbn [buffer_size_per_channel_ sampling_rate_ head_tracking_enabled_
           world_rotation_ set_audio_elements] in *.
      destruct (UpdateAmbisonicEncoder s1) as [[st2 s2]|] eqn:Hupd; [|discriminate].
      assert (Hs2 : buffer_size_per_channel_ s2 = buffer_size_per_channel_ s1 /\
                    sampling_rate_ s2 = sampling_rate_ s1 /\
                    head_tracking_enabled_ s2 = head_tracking_enabled_ s1 /\
                    world_rotation_ s2 = world_rotation_ s1).
      { revert Hupd. unfold UpdateAmbisonicEncoder, mbind, outcome_bind.
        destruct (ambisonic_encoder_ s1); [|intros [= <- <-]; repeat split; reflexivity].
        destruct (snd _); [|discriminate]. intros [= <- <-]. repeat split; reflexivity. }
      destruct Hs2 as (? & ? & ? & ?).
      destruct (negb (status_ok st2)); injection Hrem as <- <-;
        repeat split; congruence.
    + apply InitializeDsp_returns in Hinit as (_ & _ & Herr).
      destruct (Herr Hst1) as [-> _]. injection Hrem as <- <-.
      repeat split; reflexivity.
Qed.

(** X13: removing one of several Ambisonic elements reports
    [FailedPrecondition], although the element is removed and the DSP set
    up again: with only Ambisonic elements left there is no encoder, and
    the update of the encoder that ends the call says so. *)
Theorem RemoveLastAudioElement_ambisonic_status (s s' : ObrImpl) (st : Status) :
  reachable s ->
  (2 <= length (audio_elements_ s))%nat ->
  Forall (fun e => IsAmbisonicsType (Element.type_ e) = true) (audio_elements_ s) ->
  RemoveLastAudioElement s = Returns (st, s') ->
  st = FailedPreconditionError "Ambisonic encoder not initialized." /\
  audio_elements_ s' = removelast (audio_elements_ s) /\
  ambisonic_encoder_ s' = None /\
  is_Some (ambisonic_binaural_decoder_ s').
Proof.
  intros Hreach Hlen Hamb Hrem.
  split; [|split; [exact (RemoveLastAudioElement_elements s s' st Hrem)|]].
  all: pose proof (reachable_elements_ok s Hreach) as Hok;
    unfold RemoveLastAudioElement in Hrem;
    destruct (audio_elements_ s) as [|e0 l0] eqn:Hel; [cbn in Hlen; lia|];
    cbn [audio_elements_ set_audio_elements] in Hrem;
    destruct (removelast (e0 :: l0)) as [|e1 l1] eqn:Hrl;
      [destruct l0 as [|e1 l1]; [cbn in Hlen; lia|discriminate Hrl]|];
    unfold mbind, outcome_bind in Hrem;
    destruct (InitializeDsp _) as [[st1 s1]|] eqn:Hinit; [|discriminate];
    assert (Hamb' : Forall (fun e => IsAmbisonicsType (Element.type_ e) = true)
                      (e1 :: l1))
      by (rewrite <- Hrl; apply Forall_removelast; exact Hamb);
    assert (Hok' : Forall (fun e => Element.type_ e <> kInvalidType /\
                                    (0 < Element.number_of_input_channels_ e)%nat)
                     (e1 :: l1))
      by (rewrite <- Hrl; apply Forall_removelast; unfold elements_ok in Hok;
          rewrite Hel in Hok; exact Hok);
    assert (Hst1 : status_ok st1 = true)
      by (destruct (status_ok st1) eqn:E; [reflexivity|];
          apply InitializeDsp_returns in Hinit as (_ & _ & Herr);
          destruct (Herr E) as [_ [Hnil|Hzero]]; [discriminate Hnil|];
          pose proof (total_channels_positive (e1 :: l1) ltac:(discriminate)
                        Hok' 0%nat) as Hpos;
          unfold GetNumberOfInputChannels in Hzero; cbn in Hzero, Hpos; lia);
    destruct (InitializeDsp_ok_state _ s1 st1 e1 l1 Hinit eq_refl Hst1)
      as (_ & _ & _ & _ & _ & _ & _ & _ & _ & _ & (hl & hr & _ & _ & Hdec) & Henc);
    unfold GetAmbisonicEncoderSourceChannelIndices in Henc;
    cbn [audio_elements_ set_audio_elements] in Henc;
    rewrite (ambisonic_elements_not_encoded _ Hamb') in Henc;
    destruct Henc as [Henc _];
    rewrite Hst1 in Hrem; cbn [negb] in Hrem;
    unfold UpdateAmbisonicEncoder in Hrem; rewrite Henc in Hrem;
    cbn in Hrem; injection Hrem as <- <-.
  - reflexivity.
  - split; [exact Henc|]. rewrite Hdec. eauto.
Qed.

(** X14: [UpdateObjectPosition] refuses an index outside the list and an
    element without objects, both without any change; otherwise every
    object channel of the element gets the new position, and nothing else
    of the element list changes. *)
Theorem UpdateObjectPosition_spec (s : ObrImpl) (i : nat) (a e d : float) :
  (audio_elements_ s !! i = None ->
   UpdateObjectPosition s i a e d =
   Returns (InvalidArgumentError "Invalid audio element index.", s)) /\
  (forall cfg, audio_elements_ s !! i = Some cfg ->
     Element.object_channels_ cfg = [] ->
     UpdateObjectPosition s i a e d =
     Returns (FailedPreconditionError "No objects in the audio element.", s)) /\
  (forall cfg st s', audio_elements_ s !! i = Some cfg ->
     Element.object_channels_ cfg <> [] ->
     UpdateObjectPosition s i a e d = Returns (st, s') ->
     exists cfg',
       audio_elements_ s' = <[i := cfg']> (audio_elements_ s) /\
       Element.object_channels_ cfg' =
         map (fun ch => mkObjectChannel (obj_id ch) (obj_channel_index ch)
                          (obj_gain ch) a e d)
           (Element.object_channels_ cfg) /\
       Element.type_ cfg' = Element.type_ cfg /\
       Element.first_channel_index_ cfg' = Element.first_channel_index_ cfg /\
       Element.number_of_input_channels_ cfg' =
         Element.number_of_input_channels_ cfg /\
       Element.ambisonic_channels_ cfg' = Element.ambisonic_channels_ cfg /\
       Element.loudspeaker_channels_ cfg' = Element.loudspeaker_channels_ cfg /\
       GetNumberOfInputChannels s' = GetNumberOfInputChannels s).
Proof.
  split; [|split].
  - intros Hnone. unfold UpdateObjectPosition. rewrite Hnone. reflexivity.
  - intros cfg Hcfg Hobj. unfold UpdateObjectPosition. rewrite Hcfg, Hobj. reflexivity.
  - intros cfg st s' Hcfg Hobj Hupd.
    pose proof (UpdateObjectPosition_elements s s' i a e d st Hupd) as Hel.
    rewrite Hcfg in Hel.
    destruct (Element.object_channels_ cfg) eqn:Ho; [congruence|].
    exists (set_object_position a e d cfg). split; [exact Hel|].
    split; [cbn; rewrite Ho; reflexivity|].
    repeat split.
    rewrite !GetNumberOfInputChannels_total, Hel.
    apply (total_channels_insert cfg); [reflexivity|exact Hcfg].
Qed.

Lemma EncodeStage_rotation (s : ObrImpl) (q : WorldRotation) (input : AudioBuffer) :
  EncodeStage (set_world_rotation s q) input =
  match EncodeStage s input with
  | Returns s1 => Returns (set_world_rotation s1 q)
  | Aborts => Aborts
  end.
Proof.
  unfold EncodeStage, mbind, outcome_bind.
  change (GetAmbisonicEncoderSourceChannelIndices (set_world_rotation s q))
    with (GetAmbisonicEncoderSourceChannelIndices s).
  cbn [set_world_rotation ambisonic_mix_bed_ ambisonic_encoder_input_buffer_
       ambisonic_encoder_ audio_elements_].
  destruct (GetAmbisonicEncoderSourceChannelIndices s) as [|i0 indices].
  - cbn [set_mix_bed ambisonic_mix_bed_ audio_elements_].
    destruct (foldl _ _ (audio_elements_ s)); reflexivity.
  - destruct (foldl _ _ (imap _ (i0 :: indices))) as [encoder_input|]; [|reflexivity].
    destruct (ambisonic_encoder_ s) as [enc|]; [|reflexivity].
    destruct (Encoder.ProcessPlanarAudioData _ _ _) as [bed|]; [|reflexivity].
    cbn [set_mix_bed set_encoder_input ambisonic_mix_bed_ audio_elements_].
    destruct (foldl _ _ (audio_elements_ s)); reflexivity.
Qed.

Lemma DecodeLimitStage_rotation (s : ObrImpl) (q : WorldRotation)
    (output : AudioBuffer) :
  DecodeLimitStage (set_world_rotation s q) output =
  match DecodeLimitStage s output with
  | Returns (s1, out) => Returns (set_world_rotation s1 q, out)
  | Aborts => Aborts
  end.
Proof.
  unfold DecodeLimitStage.
  cbn [set_world_rotation ambisonic_binaural_decoder_ ambisonic_mix_bed_ peak_limiter_].
  destruct (ambisonic_binaural_decoder_ s) as [decoder|]; [|reflexivity].
  destruct (ProcessAudioBuffer _ _ _) as [decoder' out].
  destruct (peak_limiter_ s) as [limiter|]; [|reflexivity].
  destruct (Limiter.Process _ _ _) as [[limiter' out']|]; reflexivity.
Qed.

(** X15: while head tracking is disabled, the head rotation has no part in
    rendering: a block processed after [SetHeadRotation] gives the very
    output it gives without the call. *)
Theorem Process_without_tracking_ignores_rotation (s : ObrImpl)
    (w x y z : float) (input output : AudioBuffer) :
  head_tracking_enabled_ s = false ->
  Process (snd (SetHeadRotation s w x y z)) input output =
  match Process s input output with
  | Returns (s', out) => Returns (snd (SetHeadRotation s' w x y z), out)
  | Aborts => Aborts
  end.
Proof.
  intros Hoff. unfold SetHeadRotation. cbn [snd].
  set (q := mkWorldRotation w x y z).
  unfold Process, mbind, outcome_bind.
  change (GetNumberOfInputChannels (set_world_rotation s q))
    with (GetNumberOfInputChannels s).
  cbn [set_world_rotation buffer_size_per_channel_].
  destruct (check (num_channels input =? _)%nat); [|reflexivity].
  destruct (check (num_frames input =? _)%nat); [|reflexivity].
  destruct (check (num_channels output =? _)%nat); [|reflexivity].
  destruct (check (num_frames output =? _)%nat); [|reflexivity].
  rewrite (EncodeStage_rotation s q input).
  destruct (EncodeStage s input) as [s1|] eqn:Hs1; [|reflexivity].
  apply EncodeStage_keeps in Hs1 as (_ & _ & Hht & _).
  unfold RotateStage. cbn [set_world_rotation head_tracking_enabled_].
  rewrite Hht, Hoff.
  apply (DecodeLimitStage_rotation s1 q output).
Qed.

(** X16: [Process] renders and does nothing else: the configuration of the
    renderer is the same after the call, and the DSP objects are still
    there. *)
Theorem Process_keeps_configuration (s s' : ObrImpl)
    (input output output' : AudioBuffer) :
  Process s input output = Returns (s', output') ->
  audio_elements_ s' = audio_elements_ s /\
  head_tracking_enabled_ s' = head_tracking_enabled_ s /\
  world_rotation_ s' = world_rotation_ s /\
  buffer_size_per_channel_ s' = buffer_size_per_channel_ s /\
  sampling_rate_ s' = sampling_rate_ s /\
  GetNumberOfInputChannels s' = GetNumberOfInputChannels s /\
  ambisonic_encoder_ s' = ambisonic_encoder_ s /\
  sh_hrirs_L_ s' = sh_hrirs_L_ s /\ sh_hrirs_R_ s' = sh_hrirs_R_ s /\
  is_Some (ambisonic_binaural_decoder_ s') /\ is_Some (peak_limiter_ s').
Proof.
  intros Hp.
  destruct (Process_stages s s' input output output' Hp)
    as (_ & _ & _ & _ & s1 & s2 & He & Hr & Hd).
  apply EncodeStage_keeps in He
    as (Hb1 & Hr1 & Hh1 & Hw1 & He1 & Hc1 & _ & Hl1 & Hrr1 & _ & _).
  apply RotateStage_keeps in Hr
    as (Hb2 & Hr2 & Hh2 & Hw2 & He2 & Hc2 & _ & Hl2 & Hrr2 & _ & _).
  apply DecodeLimitStage_keeps in Hd
    as (Hb3 & Hr3 & Hh3 & Hw3 & He3 & Hc3 & _ & Hl3 & Hrr3 & Hdec & Hlim).
  rewrite !GetNumberOfInputChannels_total.
  repeat split; try congruence; assumption.
Qed.

(** X17: a renderer to which no element was ever added has no DSP, and
    [Process] on it ends the program whatever the buffers. *)
Theorem Process_new_renderer_aborts (b : nat) (rate : Z) (s : ObrImpl)
    (input output : AudioBuffer) :
  ObrImpl_new b rate = Returns s ->
  Process s input output = Aborts.
Proof.
  unfold ObrImpl_new, mbind, outcome_bind, check.
  destruct (0 <? b)%nat; [|discriminate]. destruct (0 <? rate); [|discriminate].
  intros [= <-]. unfold Process, mbind, outcome_bind.
  destruct (check _); [|reflexivity]. destruct (check _); [|reflexivity].
  destruct (check _); [|reflexivity]. destruct (check _); reflexivity.
Qed.

Lemma UpdateAmbisonicEncoder_fields (s s' : ObrImpl) (st : Status) :
  UpdateAmbisonicEncoder s = Returns (st, s') ->
  buffer_size_per_channel_ s' = buffer_size_per_channel_ s /\
  sampling_rate_ s' = sampling_rate_ s /\
  head_tracking_enabled_ s' = head_tracking_enabled_ s /\
  world_rotation_ s' = world_rotation_ s /\
  audio_elements_ s' = audio_elements_ s /\
  ambisonic_rotator_ s' = ambisonic_rotator_ s /\
  sh_hrirs_L_ s' = sh_hrirs_L_ s /\ sh_hrirs_R_ s' = sh_hrirs_R_ s /\
  ambisonic_binaural_decoder_ s' = ambisonic_binaural_decoder_ s /\
  peak_limiter_ s' = peak_limiter_ s /\
  ambisonic_mix_bed_ s' = ambisonic_mix_bed_ s /\
  (ambisonic_encoder_ s' = None <-> ambisonic_encoder_ s = None).
Proof.
  unfold UpdateAmbisonicEncoder, mbind, outcome_bind.
  destruct (ambisonic_encoder_ s) as [enc|] eqn:Henc.
  - destruct (snd _); [|discriminate]. intros [= <- <-]. cbn.
    repeat split; try reflexivity; discriminate.
  - intros [= <- <-]. repeat split; try reflexivity; intros; assumption.
Qed.

Lemma encoder_indices_insert (cfg cfg' : Element.AudioElementConfig) :
  Element.type_ cfg' = Element.type_ cfg ->
  Element.first_channel_index_ cfg' = Element.first_channel_index_ cfg ->
  Element.number_of_input_channels_ cfg' = Element.number_of_input_channels_ cfg ->
  forall (s1 s2 : ObrImpl) (i : nat),
    audio_elements_ s1 !! i = Some cfg ->
    audio_elements_ s2 = <[i := cfg']> (audio_elements_ s1) ->
    GetAmbisonicEncoderSourceChannelIndices s2 =
    GetAmbisonicEncoderSourceChannelIndices s1.
Proof.
  intros Ht Hf Hn s1 s2 i Hlook Hel. unfold GetAmbisonicEncoderSourceChannelIndices.
  rewrite Hel. clear Hel. revert i Hlook.
  induction (audio_elements_ s1) as [|x l IH]; intros i Hlook; [reflexivity|].
  destruct i as [|i]; cbn in Hlook.
  - injection Hlook as ->. change (<[0%nat := cfg']> (cfg :: l)) with (cfg' :: l).
    cbn [flat_map]. rewrite Ht, Hf, Hn. reflexivity.
  - change (<[S i := cfg']> (x :: l)) with (x :: <[i := cfg']> l).
    cbn [flat_map]. rewrite (IH i Hlook). reflexivity.
Qed.

Lemma AddAudioElement_ok_init (s s' : ObrImpl) (type : AudioElementType)
    (st : Status) :
  AddAudioElement s type = Returns (st, s') ->
  status_ok st = true ->
  exists cfg', InitializeDsp (set_audio_elements s (audio_elements_ s ++ [cfg'])) =
               Returns (st, s').
Proof.
  intros Hadd Hst. unfold AddAudioElement in Hadd.
  destruct (AudioElementConfig_new_total type) as [cfg Hcfg].
  rewrite Hcfg in Hadd. unfold mbind, outcome_bind in Hadd.
  destruct (last (audio_elements_ s)) as [back|].
  - destruct (decide (Element.type_ back = type));
      [|injection Hadd as <- <-; discriminate Hst].
    destruct (kMaxSupportedNumInputChannels <? _)%nat;
      [injection Hadd as <- <-; discriminate Hst|].
    eexists. exact Hadd.
  - destruct (kMaxSupportedNumInputChannels <? _)%nat;
      [injection Hadd as <- <-; discriminate Hst|].
    eexists. exact Hadd.
Qed.

Lemma InitializeDsp_ok_ready (s s' : ObrImpl) (st : Status) :
  InitializeDsp s = Returns (st, s') ->
  audio_elements_ s <> [] ->
  status_ok st = true ->
  dsp_ready s'.
Proof.
  intros Hinit Hne Hst.
  destruct (audio_elements_ s) as [|first rest] eqn:Hel; [congruence|].
  destruct (InitializeDsp_ok_state s s' st first rest Hinit Hel Hst)
    as (_ & _ & _ & _ & _ & _ & Hel' & Hrot & Hlim & _ & (hl & hr & HL & HR & Hdec) & Henc).
  assert (Hind : GetAmbisonicEncoderSourceChannelIndices s' =
                 GetAmbisonicEncoderSourceChannelIndices s)
    by (unfold GetAmbisonicEncoderSourceChannelIndices; rewrite Hel'; reflexivity).
  unfold dsp_ready. rewrite Hrot, Hlim, HL, HR, Hdec, Hind.
  repeat split; eauto.
  - intros Hnone. destruct (GetAmbisonicEncoderSourceChannelIndices s); [reflexivity|].
    destruct Henc as [[enc Henc] _]. congruence.
  - intros Hnil. rewrite Hnil in Henc. destruct Henc as [Henc _]. exact Henc.
Qed.

Lemma InitializeDsp_nonempty_ok (s s' : ObrImpl) (st : Status) :
  InitializeDsp s = Returns (st, s') ->
  audio_elements_ s <> [] ->
  elements_ok s ->
  status_ok st = true.
Proof.
  intros Hinit Hne Hok. destruct (status_ok st) eqn:E; [reflexivity|].
  apply InitializeDsp_returns in Hinit as (_ & _ & Herr).
  destruct (Herr E) as [_ [Hnil|Hzero]]; [congruence|].
  pose proof (total_channels_positive (audio_elements_ s) Hne Hok 0%nat) as Hpos.
  unfold GetNumberOfInputChannels in Hzero. lia.
Qed.

Lemma reachable_dsp_ready_inv (s : ObrImpl) :
  reachable s -> audio_elements_ s <> [] -> dsp_ready s.
Proof.
  induction 1 as [b rate s Hnew|s s' type st Hreach IH Hadd|s s' st Hreach IH Hrem
                 |s s' i a e d st Hreach IH Hupd|s enable _ IH|s w x y z _ IH
                 |s s' input output output' _ IH Hproc].
  - unfold ObrImpl_new, mbind, outcome_bind, check in Hnew.
    destruct (0 <? b)%nat; [|discriminate]. destruct (0 <? rate); [|discriminate].
    injection Hnew as <-. intros Hne. cbn in Hne. congruence.
  - intros Hne. destruct (status_ok st) eqn:Hst.
    + destruct (AddAudioElement_ok_init s s' type st Hadd Hst) as [cfg' Hinit].
      apply (InitializeDsp_ok_ready _ _ _ Hinit); [|exact Hst].
      cbn. destruct (audio_elements_ s); discriminate.
    + pose proof (reachable_elements_ok s Hreach) as Hok.
      destruct (AddAudioElement_cases s s' type st Hok Hadd)
        as [(-> & _)|[(-> & _)|(Hst' & _)]]; try (apply IH; exact Hne). congruence.
  - intros Hne. pose proof (reachable_elements_ok s Hreach) as Hok.
    pose proof (RemoveLastAudioElement_elements s s' st Hrem) as Hel.
    unfold RemoveLastAudioElement in Hrem.
    destruct (audio_elements_ s) as [|e0 l0] eqn:Hel0.
    { injection Hrem as <- <-. congruence. }
    cbn [audio_elements_ set_audio_elements] in Hrem.
    destruct (removelast (e0 :: l0)) as [|e1 l1] eqn:Hrl; [congruence|].
    unfold mbind, outcome_bind in Hrem.
    destruct (InitializeDsp _) as [[st1 s1]|] eqn:Hinit; [|discriminate].
    assert (Hst1 : status_ok st1 = true).
    { apply (InitializeDsp_nonempty_ok _ _ _ Hinit); [discriminate|].
      unfold elements_ok. cbn. rewrite <- Hrl. apply Forall_removelast.
      unfold elements_ok in Hok. rewrite Hel0 in Hok. exact Hok. }
    pose proof (InitializeDsp_ok_ready _ _ _ Hinit ltac:(discriminate) Hst1) as Hready.
    rewrite Hst1 in Hrem. cbn [negb] in Hrem.
    destruct (UpdateAmbisonicEncoder s1) as [[st2 s2]|] eqn:Hupd; [|discriminate].
    assert (Hs' : s' = s2) by (destruct (negb (status_ok st2)); congruence).
    subst s'.
    destruct (UpdateAmbisonicEncoder_fields _ _ _ Hupd)
      as (_ & _ & _ & _ & Hel2 & Hr & HL & HR & Hd & Hl & _ & He).
    destruct Hready as (? & ? & ? & ? & ? & Henc).
    unfold dsp_ready, GetAmbisonicEncoderSourceChannelIndices in *.
    rewrite Hr, HL, HR, Hd, Hl, He, Hel2. repeat split; tauto.
  - intros Hne.
    pose proof (UpdateObjectPosition_elements s s' i a e d st Hupd) as Hel.
    destruct (audio_elements_ s !! i) as [cfg|] eqn:Hcfg;
      [|subst s'; apply IH; exact Hne].
    destruct (Element.object_channels_ cfg) eqn:Hobj;
      [subst s'; apply IH; exact Hne|].
    assert (Hne0 : audio_elements_ s <> [])
      by (intros Hnil; rewrite Hnil in Hcfg; discriminate).
    specialize (IH Hne0).
    revert Hupd. unfold UpdateObjectPosition. rewrite Hcfg, Hobj.
    unfold mbind, outcome_bind.
    destruct (UpdateAmbisonicEncoder _) as [[st1 s1]|] eqn:Hu; [|discriminate].
    intros Hret.
    assert (Hs' : s' = s1) by (destruct (negb (status_ok st1)); congruence).
    subst s'.
    destruct (UpdateAmbisonicEncoder_fields _ _ _ Hu)
      as (_ & _ & _ & _ & _ & Hr & HL & HR & Hd & Hl & _ & He).
    cbn [set_audio_elements ambisonic_rotator_ sh_hrirs_L_ sh_hrirs_R_
         ambisonic_binaural_decoder_ peak_limiter_ ambisonic_encoder_] in *.
    destruct (set_object_position_layout a e d cfg) as (Ht & Hf & Hn & _).
    destruct IH as (? & ? & ? & ? & ? & Henc).
    unfold dsp_ready.
    rewrite (encoder_indices_insert cfg _ Ht Hf Hn s s1 i Hcfg Hel).
    rewrite Hr, HL, HR, Hd, Hl, He. repeat split; tauto.
  - exact IH.
  - exact IH.
  - intros Hne.
    destruct (Process_stages s s' input output output' Hproc)
      as (_ & _ & _ & _ & s1 & s2 & He & Hr & Hd).
    apply EncodeStage_keeps in He
      as (_ & _ & _ & _ & He1 & Hc1 & Hrot1 & Hl1 & Hrr1 & _ & _).
    apply RotateStage_keeps in Hr
      as (_ & _ & _ & _ & He2 & Hc2 & Hrot2 & Hl2 & Hrr2 & _ & _).
    apply DecodeLimitStage_keeps in Hd
      as (_ & _ & _ & _ & He3 & Hc3 & Hrot3 & Hl3 & Hrr3 & Hdec & Hlim).
    assert (Hne0 : audio_elements_ s <> []) by congruence.
    destruct (IH Hne0) as (Hrot & _ & _ & HL & HR & Henc).
    unfold dsp_ready, GetAmbisonicEncoderSourceChannelIndices in *.
    rewrite Hrot3, Hl3, Hrr3, Hc3, He3, Hl2, Hrr2, Hc2, He2, Hl1, Hrr1, Hc1, He1.
    repeat split; try assumption; try tauto.
    apply Hrot2. rewrite Hrot1. exact Hrot.
Qed.

(** X18: once a renderer holds an element, every DSP object that [Process]
    goes through exists: rotator, decoder, limiter and both HRIR sets, and
    the encoder exactly when there are loudspeaker or object channels to
    encode. *)
Theorem reachable_dsp_ready (s : ObrImpl) :
  reachable s ->
  audio_elements_ s <> [] ->
  is_Some (ambisonic_rotator_ s) /\
  is_Some (ambisonic_binaural_decoder_ s) /\
  is_Some (peak_limiter_ s) /\
  is_Some (sh_hrirs_L_ s) /\ is_Some (sh_hrirs_R_ s) /\
  (ambisonic_encoder_ s = None <-> GetAmbisonicEncoderSourceChannelIndices s = []).
Proof. intros Hreach Hne. exact (reachable_dsp_ready_inv s Hreach Hne). Qed.

End RendererMore.

(** ** [CeilToMultipleOfFramesPerBuffer] *)

(** X19: the result is the least positive multiple of [frames_per_buffer]
    that is not below [size]; in particular a size of 0 is ceiled to one
    whole buffer. *)
Theorem CeilToMultipleOfFramesPerBuffer_least (size frames_per_buffer : Z) :
  0 <= size -> 0 < frames_per_buffer ->
  size + frames_per_buffer < 18446744073709551616 ->
  exists r : Z,
    CeilToMultipleOfFramesPerBuffer size frames_per_buffer = Returns r /\
    r mod frames_per_buffer = 0 /\ size <= r /\ frames_per_buffer <= r /\
    forall m : Z,
      m mod frames_per_buffer = 0 -> size <= m -> 0 < m -> r <= m.
Proof.
  intros Hsize Hfpb Hfit. unfold CeilToMultipleOfFramesPerBuffer.
  destruct (frames_per_buffer =? 0) eqn:Hz; [apply Z.eqb_eq in Hz; lia|].
  pose proof (Z.mod_pos_bound size frames_per_buffer Hfpb) as Hrem.
  pose proof (Z.div_mod size frames_per_buffer ltac:(lia)) as Hdm.
  assert (Hmult : forall m, m mod frames_per_buffer = 0 ->
                    m = frames_per_buffer * (m / frames_per_buffer)).
  { intros m Hm. pose proof (Z.div_mod m frames_per_buffer ltac:(lia)). lia. }
  destruct (size mod frames_per_buffer =? 0) eqn:Hr.
  - apply Z.eqb_eq in Hr. eexists. split; [reflexivity|].
    split.
    { destruct (Z.max_spec size frames_per_buffer) as [[_ ->]|[_ ->]];
        [apply Z.mod_same; lia|exact Hr]. }
    split; [lia|]. split; [lia|].
    intros m Hm Hsz Hpos.
    assert (frames_per_buffer <= m).
    { pose proof (Hmult m Hm) as Hq.
      generalize dependent (m / frames_per_buffer). intros q Hq.
      destruct (Z_lt_le_dec 0 q); nia. }
    lia.
  - apply Z.eqb_neq in Hr. eexists. split; [reflexivity|].
    unfold size_t_wrap.
    rewrite (Z.mod_small (size + frames_per_buffer - size mod frames_per_buffer))
      by lia.
    replace (size + frames_per_buffer - size mod frames_per_buffer)
      with (frames_per_buffer * (size / frames_per_buffer + 1)) by lia.
    split; [rewrite Z.mul_comm; apply Z.mod_mul; lia|].
    split; [lia|].
    split.
    { assert (0 <= size / frames_per_buffer) by (apply Z.div_pos; lia). nia. }
    intros m Hm Hsz Hpos. pose proof (Hmult m Hm) as Hq.
    assert (Hlt : size / frames_per_buffer < m / frames_per_buffer).
    { assert (size <> m) by (intros ->; contradiction).
      apply Z.div_lt_upper_bound; [lia|]. rewrite <- Hq. lia. }
    rewrite Hq. apply Z.mul_le_mono_nonneg_l; lia.
Qed.

(** ** The aligned allocator *)

Lemma land_pred_zero (a : Z) :
  0 < a -> (Z.land a (a - 1) = 0 <-> a = 2 ^ Z.log2 a).
Proof.
  intros Ha. pose proof (Z.log2_spec a Ha) as [Hlo Hhi].
  pose proof (Z.log2_nonneg a) as Hk.
  split.
  - intros Hland. destruct (Z.eq_dec a (2 ^ Z.log2 a)) as [Heq|Hne]; [exact Heq|].
    exfalso.
    assert (Hlog : Z.log2 (a - 1) = Z.log2 a).
    { apply Z.log2_unique; [exact Hk|]. lia. }
    assert (Hbit : Z.testbit (Z.land a (a - 1)) (Z.log2 a) = true).
    { rewrite Z.land_spec, Z.bit_log2 by lia.
      rewrite <- Hlog. rewrite Z.bit_log2 by lia. reflexivity. }
    rewrite Hland, Z.bits_0 in Hbit. discriminate.
  - intros Heq. rewrite Heq at 1 2.
    replace (2 ^ Z.log2 a - 1) with (Z.ones (Z.log2 a))
      by (rewrite Z.ones_equiv; lia).
    rewrite Z.land_ones by exact Hk. apply Z.mod_same.
    apply Z.pow_nonzero; lia.
Qed.

(** X20: the alignment test of [StaticAlignmentCheck] holds exactly for the
    powers of two; the test of the type size holds for them and for 0. *)
Theorem StaticAlignmentCheck_powers_of_two (n : Z) :
  0 <= n < 18446744073709551616 ->
  (Aligned.alignment_is_power_of_two n = true <->
   exists k : Z, 0 <= k < 64 /\ n = 2 ^ k) /\
  (Aligned.type_size_is_power_of_two n = true <->
   n = 0 \/ exists k : Z, 0 <= k < 64 /\ n = 2 ^ k).
Proof.
  intros Hn.
  assert (Hpow : 0 < n -> (Z.land n (size_t_wrap (n - 1)) =? 0) = true <->
                 exists k : Z, 0 <= k < 64 /\ n = 2 ^ k).
  { intros Hpos. unfold size_t_wrap. rewrite Z.mod_small by lia.
    rewrite Z.eqb_eq, (land_pred_zero n Hpos). split.
    - intros Heq. exists (Z.log2 n). split; [|exact Heq].
      split; [apply Z.log2_nonneg|].
      apply Z.log2_lt_pow2; [exact Hpos|]. change (2 ^ 64) with 18446744073709551616. lia.
    - intros (k & Hk & ->). rewrite Z.log2_pow2 by lia. reflexivity. }
  unfold Aligned.alignment_is_power_of_two, Aligned.type_size_is_power_of_two.
  rewrite !negb_involutive.
  destruct (Z.eq_dec n 0) as [->|Hnz].
  - split.
    + cbn. split; [discriminate|]. intros (k & Hk & H0).
      pose proof (Z.pow_pos_nonneg 2 k ltac:(lia) ltac:(lia)). lia.
    + split; [intros _; left; reflexivity|intros _; reflexivity].
  - assert (Hpos : 0 < n) by lia. specialize (Hpow Hpos).
    destruct (n =? 0) eqn:E; [apply Z.eqb_eq in E; lia|]. cbn [negb andb].
    split; [exact Hpow|]. rewrite Hpow. split; [intros H; right; exact H|].
    intros [H0|H]; [lia|exact H].
Qed.

Lemma land_lnot_pow2 (x k : Z) :
  0 <= k < 64 -> 0 <= x < 18446744073709551616 ->
  Z.land x (size_t_wrap (Z.lnot (size_t_wrap (2 ^ k - 1)))) = x - x mod 2 ^ k.
Proof.
  intros Hk Hx.
  assert (Hp : 0 < 2 ^ k <= 2 ^ 63).
  { split; [apply Z.pow_pos_nonneg; lia|apply Z.pow_le_mono_r; lia]. }
  change (2 ^ 63) with 9223372036854775808 in Hp.
  unfold size_t_wrap. rewrite (Z.mod_small (2 ^ k - 1)) by lia.
  replace (2 ^ k - 1) with (Z.ones k) by (rewrite Z.ones_equiv; lia).
  change 18446744073709551616 with (2 ^ 64).
  rewrite <- Z.land_ones by lia.
  rewrite Z.land_assoc, <- Z.ldiff_land.
  assert (Hdiff : Z.ldiff x (Z.ones k) = x - x mod 2 ^ k).
  { rewrite Z.ldiff_ones_r by lia. rewrite Z.shiftl_mul_pow2, Z.shiftr_div_pow2 by lia.
    pose proof (Z.div_mod x (2 ^ k) ltac:(lia)). lia. }
  rewrite Hdiff, Z.land_ones by lia.
  pose proof (Z.mod_pos_bound x (2 ^ k) ltac:(lia)).
  pose proof (Z.mod_le x (2 ^ k) ltac:(lia) ltac:(lia)).
  apply Z.mod_small. change (2 ^ 64) with 18446744073709551616. lia.
Qed.

(** X21: for an alignment that is a power of two, the address that
    [AlignedMalloc] returns is aligned, leaves room before it for the saved
    pointer and after it for the data, all inside the block it got from
    [malloc]; and [AlignedFree] hands that very block back to [free]. *)
Theorem AlignedMalloc_aligned (sizeof_Type sizeof_PointerType : Z)
    (malloc : Z -> option Z) (heap : Aligned.saved_pointers)
    (size k mem_block_begin : Z) :
  let alignment := 2 ^ k in
  let data_size := size * sizeof_Type in
  let block_size := data_size + (alignment - 1 + sizeof_PointerType) in
  0 <= k < 64 -> 0 <= size -> 0 <= sizeof_Type -> 0 < sizeof_PointerType ->
  0 <= mem_block_begin ->
  mem_block_begin + block_size < 18446744073709551616 ->
  malloc block_size = Some mem_block_begin ->
  exists (aligned : Z) (heap' : Aligned.saved_pointers),
    Aligned.AlignedMalloc sizeof_Type sizeof_PointerType malloc heap size alignment =
      Some (aligned, heap') /\
    aligned mod alignment = 0 /\
    mem_block_begin + sizeof_PointerType <= aligned /\
    aligned + data_size <= mem_block_begin + block_size /\
    Aligned.AlignedFree sizeof_PointerType heap' aligned = Some mem_block_begin.
Proof.
  intros alignment data_size block_size Hk Hsize Hty Hptr Hbegin Hfit Hmalloc.
  assert (Hp : 0 < alignment) by (apply Z.pow_pos_nonneg; lia).
  assert (Hds : 0 <= data_size) by (apply Z.mul_nonneg_nonneg; lia).
  set (x := mem_block_begin + (alignment - 1 + sizeof_PointerType)).
  assert (Hx : 0 <= x < 18446744073709551616) by (unfold x, block_size in *; lia).
  assert (Hw1 : size_t_wrap (size * sizeof_Type) = data_size)
    by (unfold size_t_wrap; apply Z.mod_small; unfold block_size in Hfit; lia).
  assert (Hw2 : size_t_wrap (alignment - 1 + sizeof_PointerType) =
                alignment - 1 + sizeof_PointerType)
    by (unfold size_t_wrap; apply Z.mod_small; unfold block_size in Hfit; lia).
  assert (Hw3 : size_t_wrap block_size = block_size)
    by (unfold size_t_wrap; apply Z.mod_small; unfold block_size in *; lia).
  assert (Hw4 : size_t_wrap x = x) by (unfold size_t_wrap; apply Z.mod_small; exact Hx).
  unfold Aligned.AlignedMalloc. rewrite Hw1, Hw2. fold block_size.
  rewrite Hw3, Hmalloc. fold x. rewrite Hw4.
  pose proof (land_lnot_pow2 x k Hk Hx) as Hland. fold alignment in Hland.
  rewrite !Hland.
  pose proof (Z.mod_pos_bound x alignment Hp) as Hrem.
  pose proof (Z.div_mod x alignment ltac:(lia)) as Hdm.
  eexists _, _. split; [reflexivity|].
  split.
  { replace (x - x mod alignment) with (x / alignment * alignment) by lia.
    apply Z.mod_mul. lia. }
  assert (Hxdef : x = mem_block_begin + (alignment - 1 + sizeof_PointerType))
    by reflexivity.
  assert (Hbdef : block_size = data_size + (alignment - 1 + sizeof_PointerType))
    by reflexivity.
  split; [lia|]. split; [lia|].
  unfold Aligned.AlignedFree. apply lookup_insert_eq.
Qed.

(** ** The command line tool *)

(** X22: the input type flag round-trips through its text for the four
    types that the tool accepts, and for those only: a text that parses
    unparses to itself, and a type that unparses to a text that parses is
    one of the four. *)
Theorem AbslFlag_round_trip :
  (forall (text : string) (type : AudioElementType),
     Cli.AbslParseFlag text = inl type -> Cli.AbslUnparseFlag type = text) /\
  (forall type : AudioElementType,
     Cli.AbslParseFlag (Cli.AbslUnparseFlag type) =
     if bool_decide (type ∈ [k3OA; k7OA; kLayout7_1_4_ch; kObjectMono])
     then inl type else inr "Unsupported input type.").
Proof.
  split.
  - intros text type. unfold Cli.AbslParseFlag.
    repeat (destruct (decide _) as [->|?]; [intros [= <-]; try reflexivity|]);
      discriminate.
  - intros type. destruct type; vm_compute; reflexivity.
Qed.

Lemma cli_round_trip_enumerated :
  SampleConversion.all_range Cli.round_trips (-32768) (Z.to_nat 65536) = true.
Proof. vm_compute. reflexivity. Qed.

(** X23: the sample conversion of the command line tool loses nothing: every
    16-bit sample, divided by 32768 on the way in and multiplied by 32768
    on the way out, comes back as itself. *)
Theorem cli_sample_round_trip (sample : Z) :
  -32768 <= sample <= 32767 ->
  Cli.output_sample (Cli.input_sample sample) = Some sample.
Proof.
  intros Hs.
  pose proof (all_range_spec _ _ _ cli_round_trip_enumerated sample) as Hrt.
  rewrite Z2Nat.id in Hrt by lia. specialize (Hrt ltac:(lia)).
  unfold Cli.round_trips in Hrt.
  destruct (Cli.output_sample (Cli.input_sample sample)) as [back|]; [|discriminate].
  apply Z.eqb_eq in Hrt. congruence.
Qed.

Section WavFacts.
Import WavFile.

Lemma ReadBinaryDataFromStream_data (s s' : istream) (n : nat) (chunk : list Byte.byte) :
  ReadBinaryDataFromStream s n = (chunk, s') ->
  stream_data s' = stream_data s /\ (stream_pos s <= stream_pos s')%nat.
Proof.
  unfold ReadBinaryDataFromStream. destruct (stream_good s); cbn [negb].
  - intros [= <- <-]. cbn. split; [reflexivity|lia].
  - intros [= <- <-]. split; [reflexivity|lia].
Qed.

(** A read that delivers all [n] bytes leaves a good stream [n] bytes
    further on; for [n > 0] the stream was good before. *)
Lemma ReadBinaryDataFromStream_full (s s' : istream) (n : nat) (chunk : list Byte.byte) :
  ReadBinaryDataFromStream s n = (chunk, s') ->
  length chunk = n ->
  (0 < n)%nat ->
  stream_good s = true /\ stream_good s' = true /\
  stream_data s' = stream_data s /\
  stream_pos s' = (stream_pos s + n)%nat /\
  (stream_pos s + n <= length (stream_data s))%nat /\
  chunk = take n (drop (stream_pos s) (stream_data s)).
Proof.
  unfold ReadBinaryDataFromStream. destruct (stream_good s); cbn [negb].
  - intros [= <- <-] Hlen Hn. cbn. rewrite Hlen, Nat.eqb_refl.
    rewrite length_take, length_drop in Hlen.
    repeat split; try reflexivity; lia.
  - intros [= <- <-] Hlen Hn. cbn in Hlen. lia.
Qed.

Lemma skip_bytes_ok (n : nat) : forall s s' : istream,
  skip_bytes n s = (true, s') ->
  stream_good s = true ->
  (stream_pos s <= length (stream_data s))%nat ->
  stream_good s' = true /\ stream_data s' = stream_data s /\
  stream_pos s' = (stream_pos s + n)%nat /\
  (stream_pos s + n <= length (stream_data s))%nat.
Proof.
  induction n as [|n IH]; intros s s' Hskip Hgood Hpos; cbn [skip_bytes] in Hskip.
  - injection Hskip as <-. repeat split; try assumption; try reflexivity; lia.
  - destruct (ReadBinaryDataFromStream s 1) as [data s1] eqn:Hread.
    destruct (length data =? 1)%nat eqn:Hlen; cbn [negb] in Hskip; [|discriminate].
    apply Nat.eqb_eq in Hlen.
    destruct (ReadBinaryDataFromStream_full _ _ _ _ Hread Hlen ltac:(lia))
      as (_ & Hg1 & Hd1 & Hp1 & Hb1 & _).
    destruct (IH _ _ Hskip Hg1 ltac:(rewrite Hd1, Hp1; lia)) as (Hg & Hd & Hp & Hb).
    rewrite Hd1, Hp1 in *. repeat split; try assumption; lia.
Qed.

Lemma le_uint_bounds (bs : list Byte.byte) :
  0 <= le_uint bs < 256 ^ Z.of_nat (length bs).
Proof.
  induction bs as [|b bs IH]; [cbn; lia|].
  cbn [le_uint foldr length]. fold (le_uint bs).
  rewrite Nat2Z.inj_succ, Z.pow_succ_r by lia.
  pose proof (Byte.to_N_bounded b). lia.
Qed.

Lemma field_take_drop (l : list Byte.byte) (p n from len : nat) :
  (from + len <= n)%nat ->
  field (take n (drop p l)) from len = field l (p + from) len.
Proof.
  intros Hle. unfold field.
  rewrite skipn_firstn_comm, take_take, drop_drop.
  f_equal. lia.
Qed.

Lemma field_take (l : list Byte.byte) (n from len : nat) :
  (from + len <= n)%nat -> field (take n l) from len = field l from len.
Proof. intros Hle. apply (field_take_drop l 0 n from len Hle). Qed.

Lemma id_is_take_drop (l : list Byte.byte) (p n from : nat) (id : string) :
  (from + 4 <= n)%nat ->
  id_is (take n (drop p l)) from id = id_is l (p + from) id.
Proof. intros Hle. unfold id_is. rewrite field_take_drop by exact Hle. reflexivity. Qed.

Lemma id_is_take (l : list Byte.byte) (n from : nat) (id : string) :
  (from + 4 <= n)%nat -> id_is (take n l) from id = id_is l from id.
Proof. intros Hle. unfold id_is. rewrite field_take by exact Hle. reflexivity. Qed.

Lemma skip_extension_ok (format_size : Z) (s s' : istream) :
  skip_extension format_size s = (true, s') ->
  stream_good s = true ->
  (stream_pos s <= length (stream_data s))%nat ->
  stream_good s' = true /\ stream_data s' = stream_data s /\
  (stream_pos s <= stream_pos s' <= length (stream_data s))%nat /\
  (format_size = 16 -> s' = s).
Proof.
  unfold skip_extension. intros Hskip Hgood Hpos.
  destruct (format_size =? 16) eqn:Hfs.
  - injection Hskip as <-. repeat split; try assumption; try reflexivity; lia.
  - destruct (ReadBinaryDataFromStream s 2) as [ext s1] eqn:Hread.
    destruct (length ext =? 2)%nat eqn:Hlen; cbn [negb] in Hskip; [|discriminate].
    apply Nat.eqb_eq in Hlen.
    destruct (ReadBinaryDataFromStream_full _ _ _ _ Hread Hlen ltac:(lia))
      as (_ & Hg1 & Hd1 & Hp1 & Hb1 & _).
    destruct (skip_bytes_ok _ _ _ Hskip Hg1 ltac:(rewrite Hd1, Hp1; lia))
      as (Hg & Hd & Hp & Hb).
    rewrite Hd1, Hp1 in *. apply Z.eqb_neq in Hfs.
    repeat split; try assumption; try lia; try (intros; contradiction).
Qed.

Lemma skip_fact_ok (format_tag : Z) (s s' : istream) :
  skip_fact format_tag s = (true, s') ->
  stream_good s = true ->
  (stream_pos s <= length (stream_data s))%nat ->
  stream_good s' = true /\ stream_data s' = stream_data s /\
  (stream_pos s <= stream_pos s' <= length (stream_data s))%nat /\
  (format_tag <> kExtensibleWavFormat -> s' = s).
Proof.
  unfold skip_fact. intros Hskip Hgood Hpos.
  destruct (format_tag =? kExtensibleWavFormat) eqn:Htag.
  - destruct (ReadBinaryDataFromStream s 8) as [fact s1] eqn:Hread.
    destruct (length fact =? 8)%nat eqn:Hlen; cbn [negb] in Hskip; [|discriminate].
    destruct (id_is fact 0 "fact"); cbn [negb] in Hskip; [|discriminate].
    apply Nat.eqb_eq in Hlen.
    destruct (ReadBinaryDataFromStream_full _ _ _ _ Hread Hlen ltac:(lia))
      as (_ & Hg1 & Hd1 & Hp1 & Hb1 & _).
    destruct (skip_bytes_ok _ _ _ Hskip Hg1 ltac:(rewrite Hd1, Hp1; lia))
      as (Hg & Hd & Hp & Hb).
    rewrite Hd1, Hp1 in *. apply Z.eqb_eq in Htag.
    repeat split; try assumption; try lia; try (intros; contradiction).
  - injection Hskip as <-. repeat split; try assumption; try reflexivity; lia.
Qed.

(** What a header accepted by [ParseHeader] looks like, and what the
    reader has taken from it. *)
Lemma ParseHeader_true (data : list Byte.byte) (r : WavReader) :
  ParseHeader
    {| binary_stream_ := open data; init_ := false; num_channels_ := 0;
       sample_rate_hz_ := -1; num_total_samples_ := 0;
       num_remaining_samples_ := 0; bytes_per_sample_ := None;
       pcm_offset_bytes_ := 0 |} = (true, r) ->
  id_is data 0 "RIFF" = true /\ id_is data 8 "WAVE" = true /\
  id_is data 12 "fmt " = true /\
  (le_uint (field data 20 2) = kPcmFormat \/
   le_uint (field data 20 2) = kExtensibleWavFormat) /\
  le_uint (field data 34 2) / 8 = 2 /\
  16 <= le_uint (field data 16 4) /\
  num_channels_ r = le_uint (field data 22 2) /\
  sample_rate_hz_ r = to_int32 (le_uint (field data 24 4)) /\
  bytes_per_sample_ r = Some 2 /\
  num_remaining_samples_ r = num_total_samples_ r /\
  num_channels_ r <> 0 /\ num_total_samples_ r <> 0 /\
  exists payload : nat,
    binary_stream_ r = mkIstream data payload true /\
    pcm_offset_bytes_ r = Z.of_nat payload /\
    (44 <= payload <= length data)%nat /\
    id_is data (payload - 8) "data" = true /\
    le_uint (field data (payload - 4) 4) = 2 * num_total_samples_ r /\
    (le_uint (field data 16 4) = 16 ->
     le_uint (field data 20 2) = kPcmFormat -> payload = 44%nat).
Proof.
  unfold ParseHeader. cbn [binary_stream_].
  destruct (ReadBinaryDataFromStream (open data) (kWavHeaderSize - 8))
    as [header s0] eqn:Hread0.
  destruct (length header =? kWavHeaderSize - 8)%nat eqn:Hlen0; cbn [negb];
    [|discriminate].
  apply Nat.eqb_eq in Hlen0.
  destruct (ReadBinaryDataFromStream_full _ _ _ _ Hread0 Hlen0 ltac:(cbn; lia))
    as (_ & Hg0 & Hd0 & Hp0 & Hb0 & Hheader).
  cbn [open stream_data stream_pos] in Hd0, Hp0, Hb0, Hheader.
  rewrite drop_0 in Hheader.
  change (kWavHeaderSize - 8)%nat with 36%nat in *.
  destruct (le_uint (field header 16 4) <? 16) eqn:Hfs; [discriminate|].
  destruct (skip_extension (le_uint (field header 16 4)) s0) as [ok1 s1] eqn:Hext.
  destruct ok1; cbn [negb]; [|discriminate].
  destruct (skip_extension_ok _ _ _ Hext Hg0 ltac:(rewrite Hd0, Hp0; lia))
    as (Hg1 & Hd1 & Hp1 & Hsame1).
  destruct (skip_fact (le_uint (field header 20 2)) s1) as [ok2 s2] eqn:Hfact.
  destruct ok2; cbn [negb]; [|discriminate].
  destruct (skip_fact_ok _ _ _ Hfact Hg1 ltac:(rewrite Hd1; lia))
    as (Hg2 & Hd2 & Hp2 & Hsame2).
  destruct (ReadBinaryDataFromStream s2 8) as [dh s3] eqn:Hread3.
  destruct (length dh =? 8)%nat eqn:Hlen3; cbn [negb]; [|discriminate].
  apply Nat.eqb_eq in Hlen3.
  destruct (ReadBinaryDataFromStream_full _ _ _ _ Hread3 Hlen3 ltac:(lia))
    as (_ & Hg3 & Hd3 & Hp3 & Hb3 & Hdh).
  destruct ((le_uint (field header 34 2) / 8 =? 0) ||
            negb (le_uint (field header 34 2) / 8 =? 2)) eqn:Hbps; [discriminate|].
  apply orb_false_iff in Hbps as [_ Hbps].
  apply negb_false_iff, Z.eqb_eq in Hbps. rewrite Hbps.
  match goal with
  | |- (if ?c then _ else _) = _ -> _ => destruct c eqn:Hchecks; [discriminate|]
  end.
  repeat (apply orb_false_iff in Hchecks as [Hchecks ?]).
  unfold tellg. rewrite Hg3.
  destruct (Z.of_nat (stream_pos s3) <? 0); [discriminate|].
  intros [= <-]. cbn.
  assert (Hdata : stream_data s3 = data) by congruence.
  assert (Hdata2 : stream_data s2 = data) by congruence.
  rewrite Hdata2 in Hdh, Hb3.
  rewrite Hheader in *.
  rewrite !field_take in * by lia.
  rewrite !id_is_take in * by lia.
  rewrite Hdh in *. rewrite !id_is_take_drop in * by lia.
  rewrite !field_take_drop in * by lia.
  cbn [Nat.add] in *.
  repeat match goal with
         | Hn : negb _ = false |- _ => apply negb_false_iff in Hn
         end.
  repeat split; try assumption.
  - match goal with
    | Ht : negb _ && negb _ = false |- _ =>
        apply andb_false_iff in Ht as [Ht|Ht]; apply negb_false_iff, Z.eqb_eq in Ht;
          [left|right]; exact Ht
    end.
  - apply Z.ltb_ge in Hfs. exact Hfs.
  - apply Z.eqb_neq. assumption.
  - apply Z.eqb_neq. assumption.
  - exists (stream_pos s3). rewrite Hp3.
    replace (stream_pos s2 + 8 - 8)%nat with (stream_pos s2 + 0)%nat by lia.
    replace (stream_pos s2 + 8 - 4)%nat with (stream_pos s2 + 4)%nat by lia.
    split; [destruct s3; cbn in *; congruence|].
    split; [reflexivity|].
    split; [rewrite Hd1, Hd0 in *; lia|].
    split; [assumption|].
    split.
    + match goal with
      | Hm : (_ mod 2 =? 0) = true |- _ => apply Z.eqb_eq in Hm
      end.
      pose proof (Z.div_mod (le_uint (field data (stream_pos s2 + 4) 4)) 2 ltac:(lia)).
      lia.
    + intros H16 Hpcm. rewrite (Hsame1 H16) in *.
      rewrite (Hsame2 ltac:(rewrite Hpcm; discriminate)) in *. lia.
Qed.

(** The converse for the plain PCM layout: a header of that layout is
    accepted, with the samples starting at byte 44. *)
Lemma ParseHeader_pcm (data : list Byte.byte) :
  (44 <= length data)%nat ->
  id_is data 0 "RIFF" = true -> id_is data 8 "WAVE" = true ->
  id_is data 12 "fmt " = true -> id_is data 36 "data" = true ->
  le_uint (field data 16 4) = 16 ->
  le_uint (field data 20 2) = kPcmFormat ->
  le_uint (field data 34 2) / 8 = 2 ->
  le_uint (field data 22 2) <> 0 ->
  le_uint (field data 40 4) mod 2 = 0 ->
  le_uint (field data 40 4) <> 0 ->
  WavReader_new (open data) =
  {| binary_stream_ := mkIstream data 44 true;
     init_ := true;
     num_channels_ := le_uint (field data 22 2);
     sample_rate_hz_ := to_int32 (le_uint (field data 24 4));
     num_total_samples_ := le_uint (field data 40 4) / 2;
     num_remaining_samples_ := le_uint (field data 40 4) / 2;
     bytes_per_sample_ := Some 2;
     pcm_offset_bytes_ := 44 |}.
Proof.
  intros Hlen Hriff Hwave Hfmt Hdata Hfs Htag Hbps Hch Heven Hsize.
  unfold WavReader_new, ParseHeader. cbn [binary_stream_].
  assert (Hread0 : ReadBinaryDataFromStream (open data) (kWavHeaderSize - 8) =
                   (take 36 data, mkIstream data 36 true)).
  { unfold ReadBinaryDataFromStream, open. cbn [stream_good negb stream_pos stream_data].
    rewrite drop_0, length_take.
    change (kWavHeaderSize - 8)%nat with 36%nat.
    replace (36 `min` length data)%nat with 36%nat by lia. reflexivity. }
  rewrite Hread0. rewrite length_take.
  change (kWavHeaderSize - 8)%nat with 36%nat.
  replace (36 `min` length data)%nat with 36%nat by lia.
  cbn [Nat.eqb negb].
  rewrite !field_take by lia. rewrite !id_is_take by lia.
  rewrite Hfs, Htag. cbn [Z.ltb Z.compare].
  unfold skip_extension, skip_fact. cbn [Z.eqb Pos.eqb negb kPcmFormat kExtensibleWavFormat].
  assert (Hread3 : ReadBinaryDataFromStream (mkIstream data 36 true) 8 =
                   (take 8 (drop 36 data), mkIstream data 44 true)).
  { unfold ReadBinaryDataFromStream. cbn [stream_good negb stream_pos stream_data].
    rewrite length_take, length_drop.
    replace (8 `min` (length data - 36))%nat with 8%nat by lia. reflexivity. }
  rewrite Hread3. rewrite length_take, length_drop.
  replace (8 `min` (length data - 36))%nat with 8%nat by lia.
  cbn [Nat.eqb negb].
  rewrite id_is_take_drop by lia. rewrite field_take_drop by lia.
  cbn [Nat.add].
  rewrite Hbps, Hriff, Hwave, Hfmt, Hdata. cbn [Z.eqb Pos.eqb negb orb andb].
  rewrite Heven.
  destruct (le_uint (field data 22 2) =? 0) eqn:Hc;
    [apply Z.eqb_eq in Hc; contradiction|].
  destruct (le_uint (field data 40 4) / 2 =? 0) eqn:Ht.
  { apply Z.eqb_eq in Ht.
    pose proof (Z.div_mod (le_uint (field data 40 4)) 2 ltac:(lia)). lia. }
  cbn [Z.eqb negb orb andb tellg stream_good stream_pos Z.ltb Z.compare Z.of_nat
       Pos.of_succ_nat Pos.succ].
  reflexivity.
Qed.

Lemma field_length (l : list Byte.byte) (from len : nat) :
  (length (field l from len) <= len)%nat.
Proof. unfold field. rewrite length_take. lia. Qed.

Lemma le_uint_field_bounds (l : list Byte.byte) (from len : nat) :
  0 <= le_uint (field l from len) < 256 ^ Z.of_nat len.
Proof.
  pose proof (le_uint_bounds (field l from len)) as Hb.
  pose proof (field_length l from len) as Hl.
  assert (256 ^ Z.of_nat (length (field l from len)) <= 256 ^ Z.of_nat len)
    by (apply Z.pow_le_mono_r; lia).
  lia.
Qed.

End WavFacts.

Lemma plain_pcm16_fields (data : list Byte.byte) :
  WavFile.plain_pcm16 data = true ->
  (44 <= length data)%nat /\
  WavFile.id_is data 0 "RIFF" = true /\ WavFile.id_is data 8 "WAVE" = true /\
  WavFile.id_is data 12 "fmt " = true /\ WavFile.id_is data 36 "data" = true /\
  WavFile.le_uint (WavFile.field data 16 4) = 16 /\
  WavFile.le_uint (WavFile.field data 20 2) = WavFile.kPcmFormat /\
  WavFile.le_uint (WavFile.field data 34 2) / 8 = 2 /\
  WavFile.le_uint (WavFile.field data 22 2) <> 0 /\
  WavFile.le_uint (WavFile.field data 40 4) mod 2 = 0 /\
  WavFile.le_uint (WavFile.field data 40 4) <> 0.
Proof.
  unfold WavFile.plain_pcm16. intros Hp.
  repeat (apply andb_true_iff in Hp as [Hp ?]).
  repeat match goal with
         | Hn : negb _ = true |- _ => apply negb_true_iff, Z.eqb_neq in Hn
         | He : (_ =? _) = true |- _ => apply Z.eqb_eq in He
         end.
  apply Nat.leb_le in Hp. repeat split; assumption.
Qed.

(** The decoding of a file of the plain layout. *)
Lemma CreateOrNull_plain (data : list Byte.byte) :
  WavFile.plain_pcm16 data = true ->
  WavFile.CreateOrNull (WavFile.open data) =
  if 44 + WavFile.le_uint (WavFile.field data 40 4) <=? Z.of_nat (length data)
  then Some (mkWav (Z.to_nat (WavFile.le_uint (WavFile.field data 22 2)))
               (WavFile.to_int32 (WavFile.le_uint (WavFile.field data 24 4)))
               (WavFile.samples_of_bytes
                  (WavFile.field data 44
                     (Z.to_nat (WavFile.le_uint (WavFile.field data 40 4))))))
  else None.
Proof.
  intros Hplain.
  destruct (plain_pcm16_fields data Hplain)
    as (Hlen & Hriff & Hwave & Hfmt & Hdata & Hfs & Htag & Hbps & Hch & Heven & Hsize).
  unfold WavFile.CreateOrNull.
  rewrite (ParseHeader_pcm data) by assumption.
  unfold WavFile.IsHeaderValid, WavFile.GetNumTotalSamples, WavFile.GetNumChannels,
    WavFile.GetSampleRateHz, WavFile.ReadSamples.
  cbn [WavFile.init_ WavFile.num_total_samples_ WavFile.num_remaining_samples_
       WavFile.binary_stream_ WavFile.bytes_per_sample_ WavFile.num_channels_
       WavFile.sample_rate_hz_ negb orb].
  set (size := WavFile.le_uint (WavFile.field data 40 4)) in *.
  pose proof (le_uint_field_bounds data 40 4) as Hb. fold size in Hb.
  change (256 ^ Z.of_nat 4) with 4294967296 in Hb.
  pose proof (Z.div_mod size 2 ltac:(lia)) as Hdm.
  rewrite Z.min_id.
  destruct (size / 2 =? 0) eqn:Hz; [apply Z.eqb_eq in Hz; lia|].
  replace (size / 2 * 2) with size by lia.
  unfold size_t_wrap. rewrite Z.mod_small by lia.
  unfold WavFile.ReadBinaryDataFromStream.
  cbn [WavFile.stream_good negb WavFile.stream_pos WavFile.stream_data Z.eqb].
  fold (WavFile.field data 44 (Z.to_nat size)).
  unfold WavFile.field at 1. rewrite length_take, length_drop.
  destruct (44 + size <=? Z.of_nat (length data)) eqn:Hfit.
  - apply Z.leb_le in Hfit.
    replace (Z.to_nat size `min` (length data - 44))%nat with (Z.to_nat size) by lia.
    rewrite Z2Nat.id by lia. rewrite Z.eqb_refl. reflexivity.
  - apply Z.leb_gt in Hfit.
    replace (Z.to_nat size `min` (length data - 44))%nat with (length data - 44)%nat by lia.
    destruct (Z.of_nat (length data - 44) / 2 =? size / 2) eqn:Heq; [|reflexivity].
    apply Z.eqb_eq in Heq.
    pose proof (Z.div_mod (Z.of_nat (length data - 44)) 2 ltac:(lia)).
    pose proof (Z.mod_pos_bound (Z.of_nat (length data - 44)) 2 ltac:(lia)).
    assert (Z.of_nat (length data - 44) < size) by lia.
    assert (Z.of_nat (length data - 44) / 2 < size / 2); [|lia].
    apply Z.div_lt_upper_bound; lia.
Qed.

(** X24: a file of the plain PCM layout is decoded exactly when all the
    samples its data chunk declares are there. *)
Theorem CreateOrNull_pcm (data : list Byte.byte) :
  WavFile.plain_pcm16 data = true ->
  WavFile.CreateOrNull (WavFile.open data) =
  if 44 + WavFile.le_uint (WavFile.field data 40 4) <=? Z.of_nat (length data)
  then Some (mkWav (Z.to_nat (WavFile.le_uint (WavFile.field data 22 2)))
               (WavFile.to_int32 (WavFile.le_uint (WavFile.field data 24 4)))
               (WavFile.samples_of_bytes
                  (WavFile.field data 44
                     (Z.to_nat (WavFile.le_uint (WavFile.field data 40 4))))))
  else None.
Proof. exact (CreateOrNull_plain data). Qed.


Section WavFacts2.
Import WavFile.

Lemma byte_of_Z_to_N (z : Z) :
  0 <= z < 256 -> Z.of_N (Byte.to_N (byte_of_Z z)) = z.
Proof.
  intros Hz. unfold byte_of_Z.
  destruct (Byte.of_N (Z.to_N z)) as [b|] eqn:Hb.
  - simpl. apply Byte.to_of_N in Hb. rewrite Hb. lia.
  - apply Byte.of_N_None_iff in Hb. lia.
Qed.

Lemma le_bytes_length (n : nat) : forall z : Z, length (le_bytes n z) = n.
Proof. induction n as [|n IH]; intros z; cbn [le_bytes length]; [|rewrite IH]; reflexivity. Qed.

Lemma le_uint_le_bytes (n : nat) : forall z : Z,
  le_uint (le_bytes n z) = z mod 256 ^ Z.of_nat n.
Proof.
  induction n as [|n IH]; intros z.
  - cbn. rewrite Z.mod_1_r. reflexivity.
  - cbn [le_bytes le_uint foldr]. fold (le_uint (le_bytes n (z / 256))).
    rewrite IH, byte_of_Z_to_N by (apply Z.mod_pos_bound; lia).
    rewrite Nat2Z.inj_succ, Z.pow_succ_r by lia.
    rewrite Z.rem_mul_r by lia. lia.
Qed.

Lemma le_int16_le_bytes (z : Z) :
  -32768 <= z < 32768 -> le_int16 (le_bytes 2 z) = z.
Proof.
  intros Hz. unfold le_int16. rewrite le_uint_le_bytes.
  change (256 ^ Z.of_nat 2) with 65536.
  destruct (Z_lt_le_dec z 0) as [Hneg|Hpos].
  - replace (z mod 65536) with (z + 65536)
      by (apply Z.mod_unique with (q := -1); lia).
    destruct (z + 65536 <? 32768) eqn:E; [apply Z.ltb_lt in E|]; lia.
  - rewrite Z.mod_small by lia.
    destruct (z <? 32768) eqn:E; [|apply Z.ltb_ge in E]; lia.
Qed.

Lemma samples_of_le_bytes (samples : list Z) :
  Forall (fun z => -32768 <= z < 32768) samples ->
  samples_of_bytes (flat_map (le_bytes 2) samples) = samples.
Proof.
  induction 1 as [|z l Hz _ IH]; [reflexivity|].
  cbn [flat_map]. change (le_bytes 2 z) with
    [byte_of_Z (z mod 256); byte_of_Z (z / 256 mod 256)].
  cbn [app samples_of_bytes]. rewrite IH. f_equal.
  apply (le_int16_le_bytes z Hz).
Qed.

Lemma flat_map_le_bytes_length (samples : list Z) :
  length (flat_map (le_bytes 2) samples) = (2 * length samples)%nat.
Proof.
  induction samples as [|z l IH]; [reflexivity|].
  cbn [flat_map]. rewrite length_app, le_bytes_length, IH. cbn [length]. lia.
Qed.

End WavFacts2.

(** X25: the reader decodes what a plain 16-bit PCM file holds. *)
Theorem CreateOrNull_pcm16_file (riff_size byte_rate block_align : Z)
    (channels rate : Z) (samples : list Z) :
  1 <= channels < 65536 ->
  0 <= rate < 2147483648 ->
  samples <> [] ->
  2 * Z.of_nat (length samples) < 4294967296 ->
  Forall (fun z => -32768 <= z < 32768) samples ->
  WavFile.CreateOrNull
    (WavFile.open
       (WavFile.pcm16_file riff_size byte_rate block_align channels rate samples)) =
  Some (mkWav (Z.to_nat channels) rate samples).
Proof.
  intros Hch Hrate Hne Hlen Hrange.
  set (file := WavFile.pcm16_file riff_size byte_rate block_align channels rate samples).
  assert (Hflen : length file = (44 + 2 * length samples)%nat).
  { unfold file, WavFile.pcm16_file.
    rewrite !length_app, !le_bytes_length, flat_map_le_bytes_length. cbn. lia. }
  assert (Hf16 : WavFile.field file 16 4 = WavFile.le_bytes 4 16) by reflexivity.
  assert (Hf20 : WavFile.field file 20 2 = WavFile.le_bytes 2 WavFile.kPcmFormat)
    by reflexivity.
  assert (Hf22 : WavFile.field file 22 2 = WavFile.le_bytes 2 channels) by reflexivity.
  assert (Hf24 : WavFile.field file 24 4 = WavFile.le_bytes 4 rate) by reflexivity.
  assert (Hf34 : WavFile.field file 34 2 = WavFile.le_bytes 2 16) by reflexivity.
  assert (Hf40 : WavFile.field file 40 4 =
                 WavFile.le_bytes 4 (2 * Z.of_nat (length samples))) by reflexivity.
  assert (Hsize : WavFile.le_uint (WavFile.field file 40 4) =
                  2 * Z.of_nat (length samples)).
  { rewrite Hf40, le_uint_le_bytes. apply Z.mod_small.
    change (256 ^ Z.of_nat 4) with 4294967296. lia. }
  assert (Hchan : WavFile.le_uint (WavFile.field file 22 2) = channels).
  { rewrite Hf22, le_uint_le_bytes. apply Z.mod_small.
    change (256 ^ Z.of_nat 2) with 65536. lia. }
  assert (Hr : WavFile.le_uint (WavFile.field file 24 4) = rate).
  { rewrite Hf24, le_uint_le_bytes. apply Z.mod_small.
    change (256 ^ Z.of_nat 4) with 4294967296. lia. }
  assert (Hpos : (0 < length samples)%nat) by (destruct samples; [congruence|cbn; lia]).
  rewrite (CreateOrNull_plain file).
  - rewrite Hsize, Hchan, Hr, Hflen.
    destruct (44 + 2 * Z.of_nat (length samples) <=?
              Z.of_nat (44 + 2 * length samples)) eqn:Hfit;
      [|apply Z.leb_gt in Hfit; lia].
    f_equal. f_equal.
    + unfold WavFile.to_int32.
      destruct (rate <? 2147483648) eqn:E; [reflexivity|apply Z.ltb_ge in E; lia].
    + assert (Hpayload : WavFile.field file 44 (Z.to_nat (2 * Z.of_nat (length samples))) =
                         flat_map (WavFile.le_bytes 2) samples).
      { unfold WavFile.field.
        change (drop 44 file) with (flat_map (WavFile.le_bytes 2) samples).
        apply take_ge. rewrite flat_map_le_bytes_length. lia. }
      rewrite Hpayload. apply samples_of_le_bytes, Hrange.
  - unfold WavFile.plain_pcm16. rewrite Hsize, Hchan, Hflen.
    change (WavFile.id_is file 0 "RIFF") with true.
    change (WavFile.id_is file 8 "WAVE") with true.
    change (WavFile.id_is file 12 "fmt ") with true.
    change (WavFile.id_is file 36 "data") with true.
    change (WavFile.le_uint (WavFile.field file 16 4)) with 16.
    change (WavFile.le_uint (WavFile.field file 20 2)) with WavFile.kPcmFormat.
    change (WavFile.le_uint (WavFile.field file 34 2)) with 16.
    rewrite Z.mul_comm, Z.mod_mul by lia.
    cbn [andb Z.eqb Z.div Pos.eqb WavFile.kPcmFormat].
    repeat (apply andb_true_iff; split); try reflexivity;
      first [apply Nat.leb_le; lia | apply negb_true_iff, Z.eqb_neq; lia].
Qed.

(** X26: what the reader has checked when it reports a valid header. *)
Theorem WavReader_valid_header (data : list Byte.byte) :
  let r := WavFile.WavReader_new (WavFile.open data) in
  WavFile.IsHeaderValid r = true ->
  WavFile.id_is data 0 "RIFF" = true /\
  WavFile.id_is data 8 "WAVE" = true /\
  WavFile.id_is data 12 "fmt " = true /\
  (WavFile.le_uint (WavFile.field data 20 2) = WavFile.kPcmFormat \/
   WavFile.le_uint (WavFile.field data 20 2) = WavFile.kExtensibleWavFormat) /\
  16 <= WavFile.le_uint (WavFile.field data 34 2) < 24 /\
  WavFile.GetNumChannels r = WavFile.le_uint (WavFile.field data 22 2) /\
  1 <= WavFile.GetNumChannels r /\
  WavFile.GetSampleRateHz r =
    WavFile.to_int32 (WavFile.le_uint (WavFile.field data 24 4)) /\
  1 <= WavFile.GetNumTotalSamples r /\
  exists payload : nat,
    WavFile.pcm_offset_bytes_ r = Z.of_nat payload /\
    (44 <= payload <= length data)%nat /\
    WavFile.id_is data (payload - 8) "data" = true /\
    WavFile.le_uint (WavFile.field data (payload - 4) 4) =
      2 * WavFile.GetNumTotalSamples r.
Proof.
  cbv zeta. unfold WavFile.WavReader_new, WavFile.IsHeaderValid.
  destruct (WavFile.ParseHeader _) as [init r] eqn:Hparse.
  cbn [WavFile.init_]. intros ->.
  destruct (ParseHeader_true data r Hparse)
    as (Hriff & Hwave & Hfmt & Htag & Hbps & _ & Hch & Hrate & _ & _ &
        Hnzc & Hnzt & payload & _ & Hoff & Hpay & Hdata & Hsize & _).
  unfold WavFile.GetNumChannels, WavFile.GetSampleRateHz, WavFile.GetNumTotalSamples.
  cbn [WavFile.num_channels_ WavFile.sample_rate_hz_ WavFile.num_total_samples_
       WavFile.pcm_offset_bytes_].
  pose proof (le_uint_field_bounds data 22 2) as Hb22.
  pose proof (le_uint_field_bounds data (payload - 4) 4) as Hb40.
  pose proof (le_uint_field_bounds data 34 2) as Hb34.
  repeat split; try assumption; try lia.
  - pose proof (Z.div_mod (WavFile.le_uint (WavFile.field data 34 2)) 8 ltac:(lia)).
    pose proof (Z.mod_pos_bound (WavFile.le_uint (WavFile.field data 34 2)) 8 ltac:(lia)).
    lia.
  - pose proof (Z.div_mod (WavFile.le_uint (WavFile.field data 34 2)) 8 ltac:(lia)).
    pose proof (Z.mod_pos_bound (WavFile.le_uint (WavFile.field data 34 2)) 8 ltac:(lia)).
    lia.
  - exists payload. repeat split; try assumption; lia.
Qed.

Lemma samples_of_bytes_length (bytes : list Byte.byte) :
  Z.of_nat (length (WavFile.samples_of_bytes bytes)) = Z.of_nat (length bytes) / 2.
Proof.
  assert (Hgen : forall (n : nat) (bs : list Byte.byte), (length bs <= n)%nat ->
            Z.of_nat (length (WavFile.samples_of_bytes bs)) = Z.of_nat (length bs) / 2).
  { induction n as [|n IH]; intros bs Hn.
    - destruct bs; [reflexivity|cbn in Hn; lia].
    - destruct bs as [|lo [|hi rest]]; [reflexivity|reflexivity|].
      cbn [WavFile.samples_of_bytes length].
      rewrite !Nat2Z.inj_succ, IH by (cbn in Hn; lia).
      replace (Z.succ (Z.succ (Z.of_nat (length rest))))
        with (Z.of_nat (length rest) + 1 * 2) by lia.
      rewrite Z.div_add by lia. lia. }
  apply (Hgen (length bytes)). lia.
Qed.

Lemma samples_of_bytes_range (bytes : list Byte.byte) :
  Forall (fun z => -32768 <= z < 32768) (WavFile.samples_of_bytes bytes).
Proof.
  assert (Hgen : forall (n : nat) (bs : list Byte.byte), (length bs <= n)%nat ->
            Forall (fun z => -32768 <= z < 32768) (WavFile.samples_of_bytes bs)).
  { induction n as [|n IH]; intros bs Hn.
    - destruct bs; [constructor|cbn in Hn; lia].
    - destruct bs as [|lo [|hi rest]]; [constructor|constructor|].
      cbn [WavFile.samples_of_bytes]. constructor; [|apply IH; cbn in Hn; lia].
      unfold WavFile.le_int16.
      pose proof (le_uint_bounds [lo; hi]) as Hb.
      change (256 ^ Z.of_nat (length [lo; hi])) with 65536 in Hb.
      destruct (WavFile.le_uint [lo; hi] <? 32768) eqn:E;
        [apply Z.ltb_lt in E|apply Z.ltb_ge in E]; lia. }
  apply (Hgen (length bytes)). lia.
Qed.

(** What a decoded file was decoded from. *)
Lemma CreateOrNull_some (data : list Byte.byte) (wav : Wav) :
  WavFile.CreateOrNull (WavFile.open data) = Some wav ->
  exists payload : nat,
    (44 <= payload)%nat /\
    WavFile.le_uint (WavFile.field data (payload - 4) 4) =
      2 * Z.of_nat (length (interleaved_samples wav)) /\
    (payload + 2 * length (interleaved_samples wav) <= length data)%nat /\
    interleaved_samples wav =
      WavFile.samples_of_bytes
        (WavFile.field data payload (2 * length (interleaved_samples wav))) /\
    (1 <= length (interleaved_samples wav))%nat /\
    (1 <= wav_num_channels wav)%nat /\
    Forall (fun z => -32768 <= z < 32768) (interleaved_samples wav).
Proof.
  unfold WavFile.CreateOrNull, WavFile.WavReader_new.
  destruct (WavFile.ParseHeader _) as [init r] eqn:Hparse.
  unfold WavFile.IsHeaderValid, WavFile.GetNumTotalSamples, WavFile.GetNumChannels,
    WavFile.GetSampleRateHz.
  cbn [WavFile.init_ WavFile.num_total_samples_ WavFile.num_channels_
       WavFile.sample_rate_hz_].
  destruct init; cbn [negb orb]; [|discriminate].
  destruct (ParseHeader_true data r Hparse)
    as (_ & _ & _ & _ & _ & _ & Hch & _ & Hbps & Hrem & Hnzc & Hnzt &
        payload & Hstream & _ & Hpay & _ & Hsize & _).
  destruct (WavFile.num_total_samples_ r =? 0) eqn:Hz;
    [discriminate|]. apply Z.eqb_neq in Hz.
  unfold WavFile.ReadSamples.
  cbn [WavFile.num_remaining_samples_ WavFile.binary_stream_ WavFile.bytes_per_sample_].
  rewrite Hrem, Z.min_id, Hbps, Hstream.
  destruct (WavFile.num_total_samples_ r =? 0) eqn:Hz'; [apply Z.eqb_eq in Hz'; lia|].
  unfold WavFile.ReadBinaryDataFromStream.
  cbn [WavFile.stream_good negb WavFile.stream_pos WavFile.stream_data Z.eqb].
  set (total := WavFile.num_total_samples_ r) in *.
  pose proof (le_uint_field_bounds data (payload - 4) 4) as Hb.
  change (256 ^ Z.of_nat 4) with 4294967296 in Hb.
  pose proof (le_uint_field_bounds data 22 2) as Hb22.
  unfold size_t_wrap. rewrite Z.mod_small by lia.
  set (want := Z.to_nat (total * 2)).
  fold (WavFile.field data payload want).
  destruct (Z.of_nat (length (WavFile.field data payload want)) / 2 =? total) eqn:Hcount;
    cbn [negb]; [|discriminate].
  apply Z.eqb_eq in Hcount. intros [= <-]. cbn [interleaved_samples wav_num_channels].
  pose proof (field_length data payload want) as Hfl.
  assert (Hfull : length (WavFile.field data payload want) = want).
  { pose proof (Z.div_mod (Z.of_nat (length (WavFile.field data payload want))) 2 ltac:(lia)).
    pose proof (Z.mod_pos_bound (Z.of_nat (length (WavFile.field data payload want))) 2 ltac:(lia)).
    unfold want in *. lia. }
  assert (Hn : Z.of_nat (length (WavFile.samples_of_bytes (WavFile.field data payload want))) = total).
  { rewrite samples_of_bytes_length, Hfull. unfold want.
    rewrite Z2Nat.id by lia. apply Z.div_mul. lia. }
  assert (Hwant : (2 * length (WavFile.samples_of_bytes (WavFile.field data payload want)))%nat = want)
    by (apply Nat2Z.inj; rewrite Nat2Z.inj_mul, Hn; unfold want;
        rewrite Z2Nat.id by lia; change (Z.of_nat 2) with 2; lia).
  exists payload. rewrite Hwant.
  split; [lia|]. split; [lia|]. split.
  { unfold WavFile.field in Hfull. rewrite length_take, length_drop in Hfull. lia. }
  split; [reflexivity|]. split; [lia|]. split; [lia|].
  apply samples_of_bytes_range.
Qed.

(** X27: a decoded file is never partial: every sample that the data chunk
    declares is there, taken from the bytes that follow the header. *)
Theorem CreateOrNull_complete (data : list Byte.byte) (wav : Wav) :
  WavFile.CreateOrNull (WavFile.open data) = Some wav ->
  exists payload : nat,
    (44 <= payload)%nat /\
    WavFile.le_uint (WavFile.field data (payload - 4) 4) =
      2 * Z.of_nat (length (interleaved_samples wav)) /\
    (payload + 2 * length (interleaved_samples wav) <= length data)%nat /\
    interleaved_samples wav =
      WavFile.samples_of_bytes
        (WavFile.field data payload (2 * length (interleaved_samples wav))) /\
    (1 <= length (interleaved_samples wav))%nat /\
    (1 <= wav_num_channels wav)%nat /\
    Forall (fun z => -32768 <= z < 32768) (interleaved_samples wav).
Proof. exact (CreateOrNull_some data wav). Qed.

(** X28: a file cut short anywhere before its last declared sample is
    refused. *)
Theorem CreateOrNull_truncated (data : list Byte.byte) (k : nat) :
  WavFile.plain_pcm16 data = true ->
  Z.of_nat k < 44 + WavFile.le_uint (WavFile.field data 40 4) ->
  WavFile.CreateOrNull (WavFile.open (take k data)) = None.
Proof.
  intros Hplain Hk.
  destruct (le_lt_dec 44 k) as [Hlong|Hshort].
  - destruct (plain_pcm16_fields data Hplain)
      as (Hlen & Hriff & Hwave & Hfmt & Hdata & Hfs & Htag & Hbps & Hch & Heven & Hsize).
    assert (Hplain' : WavFile.plain_pcm16 (take k data) = true).
    { unfold WavFile.plain_pcm16.
      rewrite !id_is_take, !field_take by lia.
      rewrite Hriff, Hwave, Hfmt, Hdata, Hfs, Htag, Hbps, Heven.
      rewrite length_take.
      cbn [andb Z.eqb Pos.eqb WavFile.kPcmFormat].
      repeat (apply andb_true_iff; split); try reflexivity;
        first [apply Nat.leb_le; lia | apply negb_true_iff, Z.eqb_neq; assumption]. }
    rewrite (CreateOrNull_plain _ Hplain').
    rewrite field_take by lia. rewrite length_take.
    destruct (44 + WavFile.le_uint (WavFile.field data 40 4) <=?
              Z.of_nat (k `min` length data)) eqn:Hfit; [|reflexivity].
    apply Z.leb_le in Hfit. lia.
  - destruct (WavFile.CreateOrNull (WavFile.open (take k data))) as [wav|] eqn:Hc;
      [|reflexivity].
    apply CreateOrNull_some in Hc as (payload & Hp & _ & Hfit & _).
    rewrite length_take in Hfit. lia.
Qed.

(** X29: [ReadSamples] asked for no more than the remaining samples returns
    at most that many, all of them if the stream still holds them, and
    counts them off. *)
Theorem ReadSamples_counts (r : WavFile.WavReader) (num_samples : Z) :
  WavFile.bytes_per_sample_ r = Some 2 ->
  0 <= num_samples <= WavFile.num_remaining_samples_ r ->
  WavFile.num_remaining_samples_ r < 9223372036854775808 ->
  exists (count : Z) (target : list Byte.byte) (r' : WavFile.WavReader),
    WavFile.ReadSamples r num_samples = Some (count, target, r') /\
    0 <= count <= num_samples /\
    count = Z.of_nat (length target) / 2 /\
    WavFile.num_remaining_samples_ r' = WavFile.num_remaining_samples_ r - count /\
    (WavFile.stream_good (WavFile.binary_stream_ r) = true ->
     Z.of_nat (WavFile.stream_pos (WavFile.binary_stream_ r)) + 2 * num_samples <=
       Z.of_nat (length (WavFile.stream_data (WavFile.binary_stream_ r))) ->
     count = num_samples /\
     target = WavFile.field (WavFile.stream_data (WavFile.binary_stream_ r))
                (WavFile.stream_pos (WavFile.binary_stream_ r))
                (Z.to_nat (2 * num_samples))).
Proof.
  intros Hbps Hn Hrem. unfold WavFile.ReadSamples.
  rewrite Z.min_r by lia.
  destruct (num_samples =? 0) eqn:Hz.
  - apply Z.eqb_eq in Hz. subst num_samples.
    exists 0, [], r. split; [reflexivity|].
    split; [lia|]. split; [reflexivity|]. split; [lia|].
    intros _ _. split; [reflexivity|]. reflexivity.
  - apply Z.eqb_neq in Hz. rewrite Hbps. cbn [Z.eqb].
    unfold size_t_wrap at 1. rewrite Z.mod_small by lia.
    destruct (WavFile.ReadBinaryDataFromStream (WavFile.binary_stream_ r)
                (Z.to_nat (num_samples * 2))) as [target s] eqn:Hread.
    assert (Hlen : (length target <= Z.to_nat (num_samples * 2))%nat).
    { revert Hread. unfold WavFile.ReadBinaryDataFromStream.
      destruct (WavFile.stream_good _); cbn [negb]; intros [= <- <-];
        [rewrite length_take|cbn]; lia. }
    assert (Hcount : 0 <= Z.of_nat (length target) / 2 <= num_samples).
    { split; [apply Z.div_pos; lia|].
      apply Z.div_le_upper_bound; lia. }
    eexists _, target, _. split; [reflexivity|].
    split; [exact Hcount|]. split; [reflexivity|].
    cbn [WavFile.num_remaining_samples_].
    split; [unfold size_t_wrap; apply Z.mod_small; lia|].
    intros Hgood Hfit. revert Hread. unfold WavFile.ReadBinaryDataFromStream.
    rewrite Hgood. cbn [negb]. intros [= <- <-].
    replace (num_samples * 2) with (2 * num_samples) by lia.
    fold (WavFile.field (WavFile.stream_data (WavFile.binary_stream_ r))
            (WavFile.stream_pos (WavFile.binary_stream_ r)) (Z.to_nat (2 * num_samples))).
    split; [|reflexivity].
    unfold WavFile.field. rewrite length_take, length_drop.
    replace (Z.of_nat (Z.to_nat (2 * num_samples) `min`
               (length (WavFile.stream_data (WavFile.binary_stream_ r)) -
                WavFile.stream_pos (WavFile.binary_stream_ r))))
      with (num_samples * 2) by lia.
    apply Z.div_mul. lia.
Qed.

(** X30: [ReadSamples] does not stop at the declared number of samples: asked
    for more than remain, it reads on into whatever follows the data chunk
    and its count of remaining samples wraps around. *)
Theorem ReadSamples_past_declared (r : WavFile.WavReader) (num_samples : Z) :
  WavFile.bytes_per_sample_ r = Some 2 ->
  0 < WavFile.num_remaining_samples_ r < num_samples ->
  num_samples < 9223372036854775808 ->
  WavFile.stream_good (WavFile.binary_stream_ r) = true ->
  Z.of_nat (WavFile.stream_pos (WavFile.binary_stream_ r)) + 2 * num_samples <=
    Z.of_nat (length (WavFile.stream_data (WavFile.binary_stream_ r))) ->
  exists (target : list Byte.byte) (r' : WavFile.WavReader),
    WavFile.ReadSamples r num_samples = Some (num_samples, target, r') /\
    Z.of_nat (length target) = 2 * num_samples /\
    WavFile.num_remaining_samples_ r' =
      18446744073709551616 + WavFile.num_remaining_samples_ r - num_samples.
Proof.
  intros Hbps Hrem Hn Hgood Hfit. unfold WavFile.ReadSamples.
  rewrite Z.min_l by lia.
  destruct (WavFile.num_remaining_samples_ r =? 0) eqn:Hz;
    [apply Z.eqb_eq in Hz; lia|].
  rewrite Hbps. cbn [Z.eqb].
  unfold size_t_wrap at 1. rewrite Z.mod_small by lia.
  unfold WavFile.ReadBinaryDataFromStream. rewrite Hgood. cbn [negb].
  set (target := take (Z.to_nat (num_samples * 2)) _).
  assert (Hlen : Z.of_nat (length target) = num_samples * 2).
  { unfold target. rewrite length_take, length_drop. lia. }
  rewrite Hlen, Z.div_mul by lia.
  eexists target, _. split; [reflexivity|]. split; [lia|].
  cbn [WavFile.num_remaining_samples_]. unfold size_t_wrap.
  symmetry. apply Z.mod_unique with (q := -1); lia.
Qed.

(** ** The properties on the sample inputs *)

Lemma ConvertSampleToFloatFormat_range_witness :
  in_unit_range (SampleConversion.ConvertSampleToFloatFormat (-32768)) = false /\
  SFltb (SampleConversion.ConvertSampleToFloatFormat (-32768)) (F32.of_Z (-1)) = true.
Proof.
  destruct (ConvertSampleToFloatFormat_range (-32768)) as [Hrange Hbelow]; [lia|].
  split; [exact Hrange|]. apply Hbelow. reflexivity.
Defined.

Lemma limiter_transparent_below_ceiling_witness :
  Limiter.env_ Sample.limiter = F64.one /\
  Limiter.Process Sample.limiter (SampleData.halves 2 4) (Sample.ones 2 4) =
  Some (Sample.limiter, SampleData.halves 2 4).
Proof.
  split; [reflexivity|].
  apply (limiter_transparent_below_ceiling Sample.limiter
           (SampleData.halves 2 4) (Sample.ones 2 4));
    try reflexivity;
    vm_compute; repeat constructor.
Defined.

Example sample_encoder_two :
  @Encoder.AmbisonicEncoder_new 2 1 = Some SampleData.encoder_two /\
  @Encoder.SetSource Sample.libm Sample.tables SampleData.encoder_two 1 F32.one
    (F32.of_Z 90) F32.zero F32.one = Some SampleData.encoder_two_side /\
  @Encoder.SetSource Sample.libm Sample.tables SampleData.encoder_two_side 0
    F32.one (F32.of_Z 30) F32.zero F32.one = Some SampleData.encoder_two_both.
Proof. vm_compute. repeat split. Qed.

Lemma SetSource_other_channels_witness :
  @Encoder.SetSource Sample.libm Sample.tables SampleData.encoder_two_side 0
    F32.one (F32.of_Z 30) F32.zero F32.one = Some SampleData.encoder_two_both /\
  Encoder.sources_ SampleData.encoder_two_side !! 1%nat =
    Some (Encoder.mkSource F32.one (F32.of_Z 90) F32.zero F32.one) /\
  Encoder.encoding_matrix_ SampleData.encoder_two_side !! 1%nat =
    Some (@EncoderSpec.source_column Sample.libm Sample.tables 1 4
            (Encoder.mkSource F32.one (F32.of_Z 90) F32.zero F32.one)) /\
  Encoder.encoding_matrix_ SampleData.encoder_two_both !! 1%nat =
    Encoder.encoding_matrix_ SampleData.encoder_two_side !! 1%nat /\
  Encoder.sources_ SampleData.encoder_two_both !! 1%nat =
    Encoder.sources_ SampleData.encoder_two_side !! 1%nat /\
  Encoder.sources_ SampleData.encoder_two_both !! 0%nat =
    Some (Encoder.mkSource F32.one (F32.of_Z 30) F32.zero F32.one).
Proof.
  destruct sample_encoder_two as (_ & _ & Hset).
  split; [exact Hset|]. split; [reflexivity|].
  split; [vm_compute; reflexivity|].
  destruct (@SetSource_other_channels Sample.libm Sample.tables
              SampleData.encoder_two_side SampleData.encoder_two_both 0 F32.one
              (F32.of_Z 30) F32.zero F32.one Hset) as (_ & _ & _ & _ & Hother).
  destruct (Hother 1%nat ltac:(discriminate)) as [Hcol Hsrc].
  split; [exact Hcol|]. split; [exact Hsrc|]. reflexivity.
Defined.

Example sample_encoder_set_inv :
  @enc_inv Sample.libm Sample.tables Sample.encoder_set.
Proof.
  unfold enc_inv. cbv zeta. split; [discriminate|]. split; [reflexivity|].
  split; [reflexivity|]. intros [|c] Hc; [vm_compute; reflexivity|].
  vm_compute in Hc. lia.
Qed.

Lemma RemoveSource_then_SetSource_witness :
  @enc_inv Sample.libm Sample.tables Sample.encoder_set /\
  (0 < Encoder.number_of_input_channels_ Sample.encoder_set)%nat /\
  Encoder.sources_ Sample.encoder_set !! 0%nat =
    Some (Encoder.mkSource F32.one (F32.of_Z 30) F32.zero F32.one) /\
  Encoder.sources_ (Encoder.RemoveSource Sample.encoder_set 0) !! 0%nat = None /\
  Encoder.encoding_matrix_ (Encoder.RemoveSource Sample.encoder_set 0) !! 0%nat =
    Some (Encoder.zero_column 4) /\
  exists enc' : Encoder.AmbisonicEncoder,
    @Encoder.SetSource Sample.libm Sample.tables
      (Encoder.RemoveSource Sample.encoder_set 0) 0 F32.one (F32.of_Z 30) F32.zero
      F32.one = Some enc' /\
    Encoder.encoding_matrix_ enc' !! 0%nat =
    Some (@EncoderSpec.source_column Sample.libm Sample.tables 1 4
            (Encoder.mkSource F32.one (F32.of_Z 30) F32.zero F32.one)).
Proof.
  assert (Hc : (0 < Encoder.number_of_input_channels_ Sample.encoder_set)%nat)
    by (vm_compute; lia).
  split; [exact sample_encoder_set_inv|]. split; [exact Hc|].
  split; [reflexivity|].
  destruct (@RemoveSource_then_SetSource Sample.libm Sample.tables
              Sample.encoder_set 0 F32.one (F32.of_Z 30) F32.zero F32.one
              sample_encoder_set_inv Hc)
    as (_ & Hgone & Hzero & _ & Hset).
  split; [exact Hgone|]. split; [exact Hzero|]. exact Hset.
Defined.

Lemma ProcessPlanarAudioData_muted_witness :
  Encoder.ProcessPlanarAudioData Sample.encoder (SampleData.halves 1 4)
    (Sample.ones 4 4) = Some (AudioBuffer_new 4 4).
Proof.
  apply (ProcessPlanarAudioData_muted Sample.encoder (SampleData.halves 1 4)
           (Sample.ones 4 4));
    try reflexivity; vm_compute; repeat constructor.
Defined.

Lemma sample_renderer_1OA_1OA_reachable :
  @Obr.reachable Sample.libm Sample.tables Sample.dsp Sample.renderer_1OA_1OA.
Proof.
  eapply Obr.reach_add; [exact sample_renderer_1OA_reachable|].
  exact sample_add_1OA_1OA.
Qed.

Lemma reachable_same_type_witness :
  exists e1 e2 : Element.AudioElementConfig,
    @Obr.audio_elements_ Sample.dsp Sample.renderer_1OA_1OA !! 0%nat = Some e1 /\
    @Obr.audio_elements_ Sample.dsp Sample.renderer_1OA_1OA !! 1%nat = Some e2 /\
    Element.type_ e1 = Element.type_ e2.
Proof.
  destruct (@Obr.audio_elements_ Sample.dsp Sample.renderer_1OA_1OA !! 0%nat)
    as [e1|] eqn:H1; [|vm_compute in H1; discriminate H1].
  destruct (@Obr.audio_elements_ Sample.dsp Sample.renderer_1OA_1OA !! 1%nat)
    as [e2|] eqn:H2; [|vm_compute in H2; discriminate H2].
  exists e1, e2. split; [reflexivity|]. split; [reflexivity|].
  apply (@reachable_same_type Sample.libm Sample.tables Sample.dsp
           Sample.renderer_1OA_1OA e1 e2 sample_renderer_1OA_1OA_reachable).
  - apply list_elem_of_lookup. exists 0%nat. exact H1.
  - apply list_elem_of_lookup. exists 1%nat. exact H2.
Defined.

Lemma reachable_channel_layout_witness :
  channels_contiguous 0 (@Obr.audio_elements_ Sample.dsp Sample.renderer_1OA_1OA) /\
  (@Obr.GetNumberOfInputChannels Sample.dsp Sample.renderer_1OA_1OA <=
   @kMaxSupportedNumInputChannels Sample.dsp)%nat.
Proof.
  apply (@reachable_channel_layout Sample.libm Sample.tables Sample.dsp
           Sample.renderer_1OA_1OA sample_renderer_1OA_1OA_reachable).
Defined.

Lemma AddAudioElement_ok_state_witness :
  Sample.add Sample.renderer_1OA k1OA = Returns (OkStatus, Sample.renderer_1OA_1OA) /\
  exists cfg : Element.AudioElementConfig,
    Element.AudioElementConfig_new k1OA = Returns cfg /\
    @Obr.audio_elements_ Sample.dsp Sample.renderer_1OA_1OA =
      @Obr.audio_elements_ Sample.dsp Sample.renderer_1OA ++
      [Element.SetFirstChannelIndex cfg
         (@Obr.GetNumberOfInputChannels Sample.dsp Sample.renderer_1OA)].
Proof.
  split; [exact sample_add_1OA_1OA|].
  destruct (@AddAudioElement_ok_state Sample.libm Sample.tables Sample.dsp
              Sample.renderer_1OA Sample.renderer_1OA_1OA k1OA OkStatus
              sample_renderer_1OA_reachable sample_add_1OA_1OA eq_refl)
    as (cfg & first & Hcfg & Hel & _).
  exists cfg. split; [exact Hcfg|exact Hel].
Defined.

Example sample_remove_1OA :
  @Obr.RemoveLastAudioElement Sample.libm Sample.tables Sample.dsp
    Sample.renderer_1OA_1OA =
  Returns (FailedPreconditionError "Ambisonic encoder not initialized.",
           Sample.state_after Sample.renderer_1OA_1OA
             (@Obr.RemoveLastAudioElement Sample.libm Sample.tables Sample.dsp
                Sample.renderer_1OA_1OA)).
Proof. vm_compute. reflexivity. Qed.

Lemma RemoveLastAudioElement_ambisonic_status_witness :
  (2 <= length (@Obr.audio_elements_ Sample.dsp Sample.renderer_1OA_1OA))%nat /\
  forall (st : Status) (s' : @Obr.ObrImpl Sample.dsp),
    @Obr.RemoveLastAudioElement Sample.libm Sample.tables Sample.dsp
      Sample.renderer_1OA_1OA = Returns (st, s') ->
    st = FailedPreconditionError "Ambisonic encoder not initialized." /\
    @Obr.audio_elements_ Sample.dsp s' =
      removelast (@Obr.audio_elements_ Sample.dsp Sample.renderer_1OA_1OA).
Proof.
  assert (Hlen : (2 <= length (@Obr.audio_elements_ Sample.dsp
                                 Sample.renderer_1OA_1OA))%nat)
    by (vm_compute; lia).
  split; [exact Hlen|]. intros st s' Hrem.
  destruct (@RemoveLastAudioElement_ambisonic_status Sample.libm Sample.tables
              Sample.dsp Sample.renderer_1OA_1OA s' st
              sample_renderer_1OA_1OA_reachable Hlen) as (Hst & Hel & _).
  - vm_compute. repeat constructor.
  - exact Hrem.
  - split; [exact Hst|exact Hel].
Defined.

Lemma Process_without_tracking_ignores_rotation_witness :
  @Obr.head_tracking_enabled_ Sample.dsp Sample.renderer_1OA = false /\
  @Obr.Process Sample.dsp
    (snd (@Obr.SetHeadRotation Sample.dsp Sample.renderer_1OA F32.zero F32.one
            F32.zero F32.zero))
    (Sample.ones 4 4) (Sample.ones 2 4) =
  match @Obr.Process Sample.dsp Sample.renderer_1OA (Sample.ones 4 4)
          (Sample.ones 2 4) with
  | Returns (s', out) =>
      Returns (snd (@Obr.SetHeadRotation Sample.dsp s' F32.zero F32.one F32.zero
                      F32.zero), out)
  | Aborts => Aborts
  end.
Proof.
  split; [reflexivity|].
  apply (@Process_without_tracking_ignores_rotation Sample.dsp Sample.renderer_1OA).
  reflexivity.
Defined.

Example sample_process_1OA :
  exists (s' : @Obr.ObrImpl Sample.dsp) (out : AudioBuffer),
    @Obr.Process Sample.dsp Sample.renderer_1OA (Sample.ones 4 4) (Sample.ones 2 4) =
    Returns (s', out).
Proof. eexists _, _. vm_compute. reflexivity. Qed.

Lemma Process_keeps_configuration_witness :
  exists (s' : @Obr.ObrImpl Sample.dsp) (out : AudioBuffer),
    @Obr.Process Sample.dsp Sample.renderer_1OA (Sample.ones 4 4) (Sample.ones 2 4) =
    Returns (s', out) /\
    @Obr.audio_elements_ Sample.dsp s' =
    @Obr.audio_elements_ Sample.dsp Sample.renderer_1OA.
Proof.
  destruct sample_process_1OA as (s' & out & Hp).
  exists s', out. split; [exact Hp|].
  destruct (@Process_keeps_configuration Sample.dsp Sample.renderer_1OA s'
              (Sample.ones 4 4) (Sample.ones 2 4) out Hp) as (Hel & _).
  exact Hel.
Defined.

Lemma Process_new_renderer_aborts_witness :
  @Obr.ObrImpl_new Sample.dsp 4 48000 = Returns Sample.renderer /\
  @Obr.Process Sample.dsp Sample.renderer (mkAudioBuffer 4 []) (Sample.ones 2 4) =
  Aborts.
Proof.
  split; [exact sample_renderer_new|].
  apply (@Process_new_renderer_aborts Sample.dsp 4 48000 Sample.renderer).
  exact sample_renderer_new.
Defined.

Lemma reachable_dsp_ready_witness :
  @Obr.audio_elements_ Sample.dsp Sample.renderer_1OA <> [] /\
  is_Some (@Obr.ambisonic_binaural_decoder_ Sample.dsp Sample.renderer_1OA) /\
  is_Some (@Obr.peak_limiter_ Sample.dsp Sample.renderer_1OA).
Proof.
  assert (Hne : @Obr.audio_elements_ Sample.dsp Sample.renderer_1OA <> [])
    by (vm_compute; discriminate).
  split; [exact Hne|].
  destruct (@reachable_dsp_ready Sample.libm Sample.tables Sample.dsp
              Sample.renderer_1OA sample_renderer_1OA_reachable Hne)
    as (_ & Hdec & Hlim & _).
  split; [exact Hdec|exact Hlim].
Defined.

Lemma CeilToMultipleOfFramesPerBuffer_least_witness :
  exists r : Z,
    CeilToMultipleOfFramesPerBuffer 1000 256 = Returns r /\
    r mod 256 = 0 /\ 1000 <= r /\ 256 <= r /\
    forall m : Z, m mod 256 = 0 -> 1000 <= m -> 0 < m -> r <= m.
Proof. apply (CeilToMultipleOfFramesPerBuffer_least 1000 256); lia. Defined.

Lemma StaticAlignmentCheck_powers_of_two_witness :
  (Aligned.alignment_is_power_of_two 64 = true <->
   exists k : Z, 0 <= k < 64 /\ 64 = 2 ^ k) /\
  (Aligned.type_size_is_power_of_two 64 = true <->
   64 = 0 \/ exists k : Z, 0 <= k < 64 /\ 64 = 2 ^ k).
Proof. apply (StaticAlignmentCheck_powers_of_two 64). lia. Defined.

Lemma AlignedMalloc_aligned_witness :
  exists (aligned : Z) (heap' : Aligned.saved_pointers),
    Aligned.AlignedMalloc 4 8 SampleData.malloc ∅ 10 (2 ^ 6) = Some (aligned, heap') /\
    aligned mod 2 ^ 6 = 0 /\
    4104 + 8 <= aligned /\
    aligned + 10 * 4 <= 4104 + (10 * 4 + (2 ^ 6 - 1 + 8)) /\
    Aligned.AlignedFree 8 heap' aligned = Some 4104.
Proof.
  apply (AlignedMalloc_aligned 4 8 SampleData.malloc ∅ 10 6 4104);
    try reflexivity; lia.
Defined.

Lemma cli_sample_round_trip_witness :
  Cli.output_sample (Cli.input_sample (-32768)) = Some (-32768).
Proof. apply (cli_sample_round_trip (-32768)). lia. Defined.

Example sample_wav_plain : WavFile.plain_pcm16 SampleData.wav_bytes = true.
Proof. vm_compute. reflexivity. Qed.

Lemma CreateOrNull_pcm_witness :
  WavFile.plain_pcm16 SampleData.wav_bytes = true /\
  WavFile.CreateOrNull (WavFile.open SampleData.wav_bytes) =
  Some (mkWav 1 48000 [1; -2; 3]).
Proof.
  split; [exact sample_wav_plain|].
  rewrite (CreateOrNull_pcm SampleData.wav_bytes sample_wav_plain).
  vm_compute. reflexivity.
Defined.

Lemma CreateOrNull_pcm16_file_witness :
  WavFile.CreateOrNull
    (WavFile.open (WavFile.pcm16_file 42 96000 2 1 48000 [1; -2; 3])) =
  Some (mkWav 1 48000 [1; -2; 3]).
Proof.
  apply (CreateOrNull_pcm16_file 42 96000 2 1 48000 [1; -2; 3]);
    try lia; try discriminate.
  - cbn. lia.
  - repeat constructor; lia.
Defined.

Example sample_reader_valid : WavFile.IsHeaderValid SampleData.reader = true.
Proof. vm_compute. reflexivity. Qed.

Lemma WavReader_valid_header_witness :
  WavFile.IsHeaderValid SampleData.reader = true /\
  WavFile.GetNumChannels SampleData.reader =
    WavFile.le_uint (WavFile.field SampleData.wav_bytes 22 2) /\
  1 <= WavFile.GetNumTotalSamples SampleData.reader.
Proof.
  split; [exact sample_reader_valid|].
  destruct (WavReader_valid_header SampleData.wav_bytes sample_reader_valid)
    as (_ & _ & _ & _ & _ & Hch & _ & _ & Htotal & _).
  split; [exact Hch|exact Htotal].
Defined.

Example sample_wav_decoded :
  WavFile.CreateOrNull (WavFile.open SampleData.wav_bytes) =
  Some (mkWav 1 48000 [1; -2; 3]).
Proof. vm_compute. reflexivity. Qed.

Lemma CreateOrNull_complete_witness :
  exists payload : nat,
    (44 <= payload)%nat /\
    WavFile.le_uint (WavFile.field SampleData.wav_bytes (payload - 4) 4) =
      2 * 3 /\
    (payload + 2 * 3 <= length SampleData.wav_bytes)%nat.
Proof.
  destruct (CreateOrNull_complete SampleData.wav_bytes (mkWav 1 48000 [1; -2; 3])
              sample_wav_decoded) as (payload & H44 & Hsize & Hfit & _).
  exists payload. split; [exact H44|]. split; [exact Hsize|exact Hfit].
Defined.

Lemma CreateOrNull_truncated_witness :
  WavFile.plain_pcm16 SampleData.wav_bytes = true /\
  WavFile.CreateOrNull (WavFile.open (take 49 SampleData.wav_bytes)) = None.
Proof.
  split; [exact sample_wav_plain|].
  apply (CreateOrNull_truncated SampleData.wav_bytes 49 sample_wav_plain).
  vm_compute. reflexivity.
Defined.

Example sample_reader_sample_size :
  WavFile.bytes_per_sample_ SampleData.reader = Some 2 /\
  WavFile.num_remaining_samples_ SampleData.reader = 3 /\
  WavFile.bytes_per_sample_ SampleData.reader_trailing = Some 2 /\
  WavFile.num_remaining_samples_ SampleData.reader_trailing = 3.
Proof. vm_compute. repeat split. Qed.

Lemma ReadSamples_counts_witness :
  exists (target : list Byte.byte) (r' : WavFile.WavReader),
    WavFile.ReadSamples SampleData.reader 2 = Some (2, target, r') /\
    WavFile.num_remaining_samples_ r' = 1.
Proof.
  destruct sample_reader_sample_size as (Hbps & Hrem & _).
  destruct (ReadSamples_counts SampleData.reader 2 Hbps)
    as (count & target & r' & Hread & _ & _ & Hleft & Hall).
  - rewrite Hrem. lia.
  - rewrite Hrem. lia.
  - destruct Hall as [Hcount _]; [reflexivity|vm_compute; discriminate|].
    exists target, r'. rewrite Hread, Hleft, Hrem, Hcount. split; reflexivity.
Defined.

Lemma ReadSamples_past_declared_witness :
  WavFile.num_remaining_samples_ SampleData.reader_trailing = 3 /\
  exists (target : list Byte.byte) (r' : WavFile.WavReader),
    WavFile.ReadSamples SampleData.reader_trailing 4 = Some (4, target, r') /\
    WavFile.num_remaining_samples_ r' = 18446744073709551615.
Proof.
  destruct sample_reader_sample_size as (_ & _ & Hbps & Hrem).
  split; [exact Hrem|].
  destruct (ReadSamples_past_declared SampleData.reader_trailing 4 Hbps)
    as (target & r' & Hread & _ & Hleft).
  - rewrite Hrem. lia.
  - lia.
  - reflexivity.
  - vm_compute. discriminate.
  - exists target, r'. rewrite Hread, Hleft, Hrem. split; reflexivity.
Defined.
